(** * products-demo-api: the validation, authentication and product-query core

    A shallow embedding of the TypeScript sources
      - [backend/src/services/auth.service.ts]          (module [AuthService])
      - [backend/src/middleware/auth.middleware.ts]     (module [AuthMiddleware])
      - [backend/src/services/product.service.ts]       (module [ProductService])
      - [backend/src/middleware/validation.middleware.ts],
        [backend/src/utils/validation.schemas.ts]       (module [Validation])
      - [backend/src/config/database.connection.ts]     (module [DatabaseConnection])
      - [backend/src/middleware/error.middleware.ts]    (module [ErrorMiddleware])
      - [backend/src/controllers/auth.controller.ts],
        [backend/src/controllers/product.controller.ts] (module [Controllers])
      - the health checks of [backend/src/routes/index.ts] and
        [backend/src/app.ts]                            (module [Health])

    Conventions.
      - An [async] method is a computation in the monad [M W]: explicit state
        passing over a world [W], with a completion that either returns a value
        or throws ([try ... catch] is [try_catch]).
      - The external collaborators (the database driver, [jsonwebtoken],
        [bcryptjs], Joi's message catalogue) are the fields of a record the
        functions take: every theorem holds for whatever they answer.
      - JS numbers that count things (ids, pages, totals) are [Z]; prices are
        rationals [Q] (finite, ordered; NaN is outside the model).
      - In a request that is validated, a string is its UTF-16 code units and
        a number a double, given by its rational value and rounded after
        each operation.
      - A [Date] is its epoch value in [Z]. *)

From Stdlib Require Import ZArith QArith Qround Strings.String Strings.Ascii List Lia.
From stdpp Require Import base option gmap strings list.

Open Scope string_scope.
Open Scope Z_scope.

(** ** JavaScript values and strings *)

Module Js.

(** The values thrown in the sources: an [Error] (name, message), the
    repository's [AppError] (an [Error] carrying [statusCode] and [code]),
    or any other thrown value. *)
Inductive Thrown : Type :=
| ErrorObj (name message : string)
| AppError (message : string) (statusCode : Z) (code : string)
| NonError (description : string).

(** [error instanceof Error] *)
Definition instanceof_Error (e : Thrown) : bool :=
  match e with
  | ErrorObj _ _ | AppError _ _ _ => true
  | NonError _ => false
  end.

(** [error instanceof AppError] *)
Definition instanceof_AppError (e : Thrown) : bool :=
  match e with
  | AppError _ _ _ => true
  | _ => false
  end.

(** [error.name]; [AppError] does not override it. *)
Definition error_name (e : Thrown) : string :=
  match e with
  | ErrorObj n _ => n
  | AppError _ _ _ => "Error"
  | NonError _ => EmptyString
  end.

(** [error.message] *)
Definition error_message (e : Thrown) : string :=
  match e with
  | ErrorObj _ m => m
  | AppError m _ _ => m
  | NonError _ => EmptyString
  end.

(** [new Error(message)] *)
Definition new_Error (message : string) : Thrown := ErrorObj "Error" message.

(** Truthiness of a string: only the empty string is falsy. *)
Definition truthy (s : string) : bool :=
  match s with
  | EmptyString => false
  | String _ _ => true
  end.

(** Truthiness of [string | undefined]. *)
Definition truthy_opt (s : option string) : bool :=
  match s with
  | None => false
  | Some s => truthy s
  end.

(** [s.split(sep)] for a one-character separator. *)
Fixpoint split (sep : ascii) (s : string) : list string :=
  match s with
  | EmptyString => [EmptyString]
  | String c s' =>
      if Ascii.eqb c sep then EmptyString :: split sep s'
      else match split sep s' with
           | [] => [String c EmptyString]
           | w :: ws => String c w :: ws
           end
  end.

(** [parts.join(sep)] *)
Fixpoint join (sep : ascii) (parts : list string) : string :=
  match parts with
  | [] => EmptyString
  | [w] => w
  | w :: ws => w ++ String sep (join sep ws)
  end.

(** The string has no occurrence of [sep]. *)
Fixpoint free_of (sep : ascii) (s : string) : bool :=
  match s with
  | EmptyString => true
  | String c s' => negb (Ascii.eqb c sep) && free_of sep s'
  end.

Definition space : ascii := " "%char.

End Js.

(** ** Computations: state passing with exceptions *)

Module Comp.
Import Js.

Inductive Completion (A : Type) : Type :=
| Return (a : A)
| Throw (e : Thrown).
Arguments Return {A} a.
Arguments Throw {A} e.

Definition M (W A : Type) : Type := W -> Completion A * W.

Definition ret {W A} (a : A) : M W A := fun w => (Return a, w).

Definition bind {W A B} (m : M W A) (k : A -> M W B) : M W B :=
  fun w =>
    match m w with
    | (Return a, w') => k a w'
    | (Throw e, w') => (Throw e, w')
    end.

Definition throw {W A} (e : Thrown) : M W A := fun w => (Throw e, w).

(** [try { m } catch (error) { h error }] *)
Definition try_catch {W A} (m : M W A) (h : Thrown -> M W A) : M W A :=
  fun w =>
    match m w with
    | (Return a, w') => (Return a, w')
    | (Throw e, w') => h e w'
    end.

Definition get {W} : M W W := fun w => (Return w, w).
Definition modify {W} (f : W -> W) : M W unit := fun w => (Return tt, f w).

(** Run a computation over a component [V] of the world [W]. *)
Definition zoom {W V A} (proj : W -> V) (upd : V -> W -> W) (m : M V A) : M W A :=
  fun w => let '(r, v') := m (proj w) in (r, upd v' w).

(** Lift a completion that needs no state. *)
Definition lift {W A} (c : Completion A) : M W A := fun w => (c, w).

#[global] Instance M_ret {W} : MRet (M W) := fun A => @ret W A.
#[global] Instance M_bind {W} : MBind (M W) := fun A B k m => @bind W A B m k.

End Comp.

(** ** backend/src/services/auth.service.ts *)

Module AuthService.
Import Js Comp.

Definition Date : Type := Z.

(** [interface User]; [passwordHash?: string]. *)
Record User : Type := {
  id : Z;
  username : string;
  email : string;
  passwordHash : option string;
  createdAt : Date;
  updatedAt : Date
}.

Record CreateUserDto : Type := {
  dto_username : string;
  dto_email : string;
  dto_password : string
}.

Record LoginDto : Type := {
  login_username : string;
  login_password : string
}.

Record JwtPayload : Type := {
  userId : Z;
  jwt_username : string;
  jwt_email : string;
  iat : option Z;
  exp : option Z
}.

Record AuthConfig : Type := {
  jwtSecret : string;
  jwtExpiresIn : string;
  saltRounds : Z
}.

(** The property values that occur in the object literals of the service. *)
Inductive JsValue : Type :=
| JNumber (n : Z)
| JString (s : string)
| JDate (d : Date).

(** [interface AuthResponse]. The [user] member is the object literal the
    service builds, kept as an object (property name to value) so that the
    set of its properties can be spoken about. *)
Record AuthResponse : Type := {
  user : gmap string JsValue;
  token : string;
  expiresIn : string
}.

(** [interface DatabaseResult<T>]: the code tests [!result.recordset]. *)
Record DatabaseResult (T : Type) : Type := { recordset : option (list T) }.
Arguments recordset {T} _.

(** The calls the service issues on [dbConnection]. *)
Inductive DbCall : Type :=
| CreateUser (Username Email PasswordHash : string)
| GetUserByUsername (Username : string)
| SelectUserById (userId : Z).

(** [str.includes(sub)] *)
Definition includes (sub str : string) : bool :=
  match String.index 0 sub str with
  | Some _ => true
  | None => false
  end.

(** The external collaborators of the service. *)
Record Collaborators (DbState : Type) : Type := {
  (** [dbConnection.executeStoredProcedure] / [executeQuery]: resolves to a
      result or rejects, and may change the database. *)
  db_run : DbCall -> DbState -> Completion (DatabaseResult User) * DbState;
  (** [jwt.verify(token, secret)] *)
  jwt_verify : string -> string -> Completion JwtPayload;
  (** [jwt.sign(payload, secret, { expiresIn })] *)
  jwt_sign : JwtPayload -> string -> string -> Completion string;
  (** [bcrypt.hash(password, saltRounds)] *)
  bcrypt_hash : string -> Z -> Completion string;
  (** [bcrypt.compare(password, hash)] *)
  bcrypt_compare : string -> string -> Completion bool;
  authConfig : AuthConfig
}.
Arguments db_run {DbState} _.
Arguments jwt_verify {DbState} _.
Arguments jwt_sign {DbState} _.
Arguments bcrypt_hash {DbState} _.
Arguments bcrypt_compare {DbState} _.
Arguments authConfig {DbState} _.

(** The world of the service: the database and the calls issued so far. *)
Record World (DbState : Type) : Type := {
  db_state : DbState;
  db_calls : list DbCall
}.
Arguments db_state {DbState} _.
Arguments db_calls {DbState} _.

Section WithCollaborators.

Context {DbState : Type}.
Variable env : Collaborators DbState.

Definition execute (c : DbCall) : M (World DbState) (DatabaseResult User) :=
  fun w =>
    let '(r, s') := db_run env c (db_state w) in
    (r, {| db_state := s'; db_calls := db_calls w ++ [c] |}).

(** [private generateToken(payload)] *)
Definition generateToken (userId : Z) (username email : string) : Completion string :=
  jwt_sign env {| userId := userId; jwt_username := username; jwt_email := email;
              iat := None; exp := None |}
           (jwtSecret (authConfig env)) (jwtExpiresIn (authConfig env)).

(** The object literal [{ id, username, email, createdAt, updatedAt }]. *)
Definition user_literal (u : User) : gmap string JsValue :=
  <["id" := JNumber (id u)]>
  (<["username" := JString (username u)]>
  (<["email" := JString (email u)]>
  (<["createdAt" := JDate (createdAt u)]>
  (<["updatedAt" := JDate (updatedAt u)]> ∅)))).

(** [public async register(userData)] *)
Definition register (userData : CreateUserDto) : M (World DbState) AuthResponse :=
  try_catch
    (passwordHash ← lift (bcrypt_hash env (dto_password userData) (saltRounds (authConfig env)));
     result ← execute (CreateUser (dto_username userData) (dto_email userData) passwordHash);
     match recordset result with
     | None | Some [] => throw (new_Error "Failed to create user")
     | Some (newUser :: _) =>
         token ← lift (generateToken (id newUser) (username newUser) (email newUser));
         mret {| user := user_literal newUser;
                 token := token;
                 expiresIn := jwtExpiresIn (authConfig env) |}
     end)
    (fun error =>
       if instanceof_Error error then
         if includes "already exists" (error_message error)
         then throw (new_Error "Username or email already exists")
         else throw error
       else throw (new_Error "Registration failed")).

(** [public async login(loginData)] *)
Definition login (loginData : LoginDto) : M (World DbState) AuthResponse :=
  try_catch
    (result ← execute (GetUserByUsername (login_username loginData));
     match recordset result with
     | None | Some [] => throw (new_Error "Invalid credentials")
     | Some (user :: _) =>
         if negb (truthy_opt (passwordHash user))
         then throw (new_Error "Invalid user data")
         else
           isValidPassword ← lift (bcrypt_compare env (login_password loginData)
                                                  (default EmptyString (passwordHash user)));
           if negb isValidPassword
           then throw (new_Error "Invalid credentials")
           else
             token ← lift (generateToken (id user) (username user) (email user));
             mret {| AuthService.user := user_literal user;
                     token := token;
                     expiresIn := jwtExpiresIn (authConfig env) |}
     end)
    (fun error =>
       if instanceof_Error error && String.eqb (error_message error) "Invalid credentials"
       then throw error
       else throw (new_Error "Login failed")).

(** [public verifyToken(token)] (synchronous, no state) *)
Definition verifyToken (token : string) : Completion JwtPayload :=
  match jwt_verify env token (jwtSecret (authConfig env)) with
  | Return decoded => Return decoded
  | Throw error =>
      if instanceof_Error error then
        if String.eqb (error_name error) "TokenExpiredError"
        then Throw (new_Error "Token expired")
        else if String.eqb (error_name error) "JsonWebTokenError"
        then Throw (new_Error "Invalid token")
        else Throw (new_Error "Token verification failed")
      else Throw (new_Error "Token verification failed")
  end.

(** [public async getUserById(userId)]: [null] is [None]. *)
Definition getUserById (userId : Z) : M (World DbState) (option User) :=
  try_catch
    (result ← execute (SelectUserById userId);
     match recordset result with
     | Some (u :: _) => mret (Some u)
     | _ => mret None
     end)
    (fun _ => mret None).

End WithCollaborators.

End AuthService.

(** ** backend/src/middleware/auth.middleware.ts *)

Module AuthMiddleware.
Import Js Comp AuthService.

(** The JSON body [{ error, message }] of a rejection. *)
Record JsonBody : Type := {
  error : string;
  message : string
}.

(** [res.status(code).json(body)] *)
Record Response : Type := {
  status : Z;
  body : JsonBody
}.

(** What a middleware acts on besides the header it reads: [req.user], the
    responses written on [res], how often [next()] ran (each run hands the
    request to the downstream handler), and the world of the auth service. *)
Record Ctx (DbState : Type) : Type := {
  req_user : option JwtPayload;
  sent : list Response;
  next_calls : nat;
  world : World DbState
}.
Arguments req_user {DbState} _.
Arguments sent {DbState} _.
Arguments next_calls {DbState} _.
Arguments world {DbState} _.

Section WithCollaborators.

Context {DbState : Type}.
Variable env : Collaborators DbState.

Definition res_status_json (code : Z) (err msg : string) : M (Ctx DbState) unit :=
  modify (fun c => {| req_user := req_user c;
                      sent := sent c ++ [{| status := code;
                                            body := {| error := err; message := msg |} |}];
                      next_calls := next_calls c;
                      world := world c |}).

(** [next()] *)
Definition next : M (Ctx DbState) unit :=
  modify (fun c => {| req_user := req_user c;
                      sent := sent c;
                      next_calls := S (next_calls c);
                      world := world c |}).

(** [req.user = decoded] *)
Definition set_req_user (decoded : JwtPayload) : M (Ctx DbState) unit :=
  modify (fun c => {| req_user := Some decoded;
                      sent := sent c;
                      next_calls := next_calls c;
                      world := world c |}).

(** A call into [authService] that uses the database. *)
Definition in_service {A} (m : M (World DbState) A) : M (Ctx DbState) A :=
  zoom world
       (fun w c => {| req_user := req_user c;
                      sent := sent c;
                      next_calls := next_calls c;
                      world := w |})
       m.

(** The [message] the catch block of [authenticate] selects. *)
Definition failure_message (error : Thrown) : string :=
  if instanceof_Error error then
    if String.eqb (error_message error) "Token expired" then "Token has expired"
    else if String.eqb (error_message error) "Invalid token" then "Invalid token provided"
    else "Authentication failed"
  else "Authentication failed".

(** [export const authenticate]; [authHeader] is [req.headers.authorization]. *)
Definition authenticate (authHeader : option string) : M (Ctx DbState) unit :=
  try_catch
    (if negb (truthy_opt authHeader) then
       res_status_json 401 "Authorization header missing" "Access token is required"
     else
       let tokenParts := split space (default EmptyString authHeader) in
       if negb (Nat.eqb (length tokenParts) 2)
          || negb (bool_decide (tokenParts !! 0%nat = Some "Bearer"))
       then
         res_status_json 401 "Invalid authorization format"
                         "Authorization header must be in format: Bearer <token>"
       else
         let token := tokenParts !! 1%nat in
         if negb (truthy_opt token) then
           res_status_json 401 "Invalid token" "Token cannot be empty"
         else
           decoded ← lift (verifyToken env (default EmptyString token));
           user ← in_service (getUserById env (userId decoded));
           match user with
           | None =>
               res_status_json 401 "User not found"
                               "The user associated with this token no longer exists"
           | Some _ =>
               set_req_user decoded;;
               next
           end)
    (fun error =>
       let message := failure_message error in
       let statusCode := 401 in
       res_status_json statusCode "Authentication failed" message).

(** [export const optionalAuthenticate] *)
Definition optionalAuthenticate (authHeader : option string) : M (Ctx DbState) unit :=
  try_catch
    ((if truthy_opt authHeader then
        let tokenParts := split space (default EmptyString authHeader) in
        if Nat.eqb (length tokenParts) 2
           && bool_decide (tokenParts !! 0%nat = Some "Bearer")
        then
          let token := tokenParts !! 1%nat in
          if truthy_opt token then
            decoded ← lift (verifyToken env (default EmptyString token));
            set_req_user decoded
          else mret tt
        else mret tt
      else mret tt);;
     next)
    (fun error => next).

(** The header has the shape [Bearer <token>]: the word, one space, and a
    token without spaces. *)
Definition bearer_shape (h : string) : Prop :=
  exists t : string, h = "Bearer " ++ t /\ free_of space t = true.

(** [authenticate] answered with one 401 carrying [err] and [msg], did not run
    [next()] and left [req.user] alone. *)
Definition rejected_401 (c c' : Ctx DbState) (err msg : string) : Prop :=
  sent c' = (sent c ++ [{| status := 401; body := {| error := err; message := msg |} |}])%list
  /\ next_calls c' = next_calls c
  /\ req_user c' = req_user c.

(** The outcome [Authenticated]: the header is [Bearer <token>], the token
    verifies, its user still exists; the identity is attached, [next()] ran
    once and nothing was written on [res]. *)
Definition authenticated (authHeader : option string) (c c' : Ctx DbState) : Prop :=
  exists (t : string) (decoded : JwtPayload) (u : User),
    authHeader = Some ("Bearer " ++ t)
    /\ verifyToken env t = Return decoded
    /\ fst (getUserById env (userId decoded) (world c)) = Return (Some u)
    /\ sent c' = sent c
    /\ next_calls c' = S (next_calls c)
    /\ req_user c' = Some decoded.

End WithCollaborators.

End AuthMiddleware.

(** ** backend/src/services/product.service.ts *)

Module ProductService.
Import Js Comp.

Definition Date : Type := Z.

(** [interface Product]; [description: string | null]. *)
Record Product : Type := {
  id : Z;
  name : string;
  description : option string;
  price : Q;
  category : string;
  createdAt : Date;
  updatedAt : Date
}.

(** A row of a recordset: [Product & { TotalCount: number }] for
    [GetProducts]; the other procedures return rows without that column. *)
Record Row : Type := {
  product : Product;
  TotalCount : option Z
}.

Record UpdateProductDto : Type := {
  dto_name : option string;
  dto_description : option string;
  dto_price : option Q;
  dto_category : option string
}.

Record ProductQuery : Type := {
  pageNumber : option Z;
  pageSize : option Z;
  q_category : option string;
  searchTerm : option string;
  sortBy : option string;
  sortOrder : option string;
  minPrice : option Q;
  maxPrice : option Q
}.

Record ProductResponse : Type := {
  r_id : Z;
  r_name : string;
  r_description : option string;
  r_price : Q;
  r_category : string;
  r_createdAt : string;
  r_updatedAt : string
}.

(** A JS number that is an integer or one of the non-finite values a division
    by zero yields. *)
Inductive JsNumber : Type :=
| Finite (z : Z)
| PosInfinity
| NegInfinity
| NaN.

(** [Math.ceil(a / b)] on integers. *)
Definition ceil_div (a b : Z) : JsNumber :=
  if b =? 0 then
    if a =? 0 then NaN else if 0 <? a then PosInfinity else NegInfinity
  else Finite (Qceiling (inject_Z a / inject_Z b)).

(** [a < b] for an integer [a]. *)
Definition lt_number (a : Z) (b : JsNumber) : bool :=
  match b with
  | Finite z => a <? z
  | PosInfinity => true
  | NegInfinity => false
  | NaN => false
  end.

Record Pagination : Type := {
  currentPage : Z;
  p_pageSize : Z;
  totalCount : Z;
  totalPages : JsNumber;
  hasNextPage : bool;
  hasPreviousPage : bool
}.

Record Filters : Type := {
  f_category : option string;
  f_searchTerm : option string;
  f_minPrice : option Q;
  f_maxPrice : option Q
}.

Record ProductListResponse : Type := {
  products : list ProductResponse;
  pagination : Pagination;
  filters : option Filters
}.

Record GetProductsInput : Type := {
  PageNumber : Z;
  PageSize : Z;
  Category : option string;
  SearchTerm : option string
}.

Record UpdateProductInput : Type := {
  Id : Z;
  Name : string;
  Description : option string;
  Price : Q;
  Category' : string
}.

Record DatabaseResult : Type := { recordset : option (list Row) }.

(** The stored procedures the service calls through
    [dbConnection.executeStoredProcedure(name, input)]. *)
Inductive SpCall : Type :=
| GetProducts (input : GetProductsInput)
| GetProductById (Id : Z)
| UpdateProduct (input : UpdateProductInput)
| DeleteProduct (Id : Z).

(** [UpdateProduct] and [DeleteProduct] are the mutating calls. *)
Definition mutating (c : SpCall) : bool :=
  match c with
  | UpdateProduct _ | DeleteProduct _ => true
  | GetProducts _ | GetProductById _ => false
  end.

Record Collaborators (DbState : Type) : Type := {
  (** the database behind [executeStoredProcedure] *)
  db_run : SpCall -> DbState -> Completion DatabaseResult * DbState;
  (** [date.toISOString()] *)
  toISOString : Date -> string
}.
Arguments db_run {DbState} _.
Arguments toISOString {DbState} _.

Record World (DbState : Type) : Type := {
  db_state : DbState;
  db_calls : list SpCall
}.
Arguments db_state {DbState} _.
Arguments db_calls {DbState} _.

(** [s || null] for [string | undefined] *)
Definition or_null (s : option string) : option string :=
  if truthy_opt s then s else None.

(** [n || 0] for [number | undefined] *)
Definition or_zero (n : option Z) : Z :=
  match n with
  | Some z => if z =? 0 then 0 else z
  | None => 0
  end.

(** [isSome]: [x !== undefined] *)
Definition defined {A} (x : option A) : bool :=
  match x with Some _ => true | None => false end.

(** [a < b] on prices. *)
Definition Qltb (a b : Q) : bool :=
  (Qnum a * QDen b <? Qnum b * QDen a)%Z.

(** The predicate of [products.filter(...)] in [getProducts]. *)
Definition price_filter (minPrice maxPrice : option Q) (row : Row) : bool :=
  if match minPrice with
     | Some lo => Qltb (price (product row)) lo
     | None => false
     end
  then false
  else if match maxPrice with
          | Some hi => Qltb hi (price (product row))
          | None => false
          end
  then false
  else true.

Section WithCollaborators.

Context {DbState : Type}.
Variable env : Collaborators DbState.

Definition executeStoredProcedure (c : SpCall) : M (World DbState) DatabaseResult :=
  fun w =>
    let '(r, s') := db_run env c (db_state w) in
    (r, {| db_state := s'; db_calls := db_calls w ++ [c] |}).

(** The callback of [products.map(...)] in [getProducts]. *)
Definition format_product (row : Row) : ProductResponse :=
  let p := product row in
  {| r_id := id p;
     r_name := name p;
     r_description := description p;
     r_price := price p;
     r_category := category p;
     r_createdAt := toISOString env (createdAt p);
     r_updatedAt := toISOString env (updatedAt p) |}.

(** The [input] object of [getProducts]; the price bounds and the sort keys
    are not part of it. *)
Definition products_input (query : ProductQuery) : GetProductsInput :=
  {| PageNumber := default 1 (pageNumber query);
     PageSize := default 10 (pageSize query);
     Category := or_null (q_category query);
     SearchTerm := or_null (searchTerm query) |}.

(** [public async getProducts(query)] *)
Definition getProducts (query : ProductQuery) : M (World DbState) ProductListResponse :=
  try_catch
    (let pageNumber := default 1 (pageNumber query) in
     let pageSize := default 10 (pageSize query) in
     let category := q_category query in
     let searchTerm := searchTerm query in
     let minPrice := minPrice query in
     let maxPrice := maxPrice query in
     let input := products_input query in
     result ← executeStoredProcedure (GetProducts input);
     match recordset result with
     | None | Some [] =>
         mret {| products := [];
                 pagination := {| currentPage := pageNumber;
                                  p_pageSize := pageSize;
                                  totalCount := 0;
                                  totalPages := Finite 0;
                                  hasNextPage := false;
                                  hasPreviousPage := false |};
                 filters := None |}
     | Some ((first :: _) as rows) =>
         let totalCount := or_zero (TotalCount first) in
         let totalPages := ceil_div totalCount pageSize in
         let products :=
           if defined minPrice || defined maxPrice
           then List.filter (price_filter minPrice maxPrice) rows
           else rows in
         let formattedProducts := List.map format_product products in
         mret {| products := formattedProducts;
                 pagination := {| currentPage := pageNumber;
                                  p_pageSize := pageSize;
                                  totalCount := totalCount;
                                  totalPages := totalPages;
                                  hasNextPage := lt_number pageNumber totalPages;
                                  hasPreviousPage := 1 <? pageNumber |};
                 filters :=
                   if truthy_opt category || truthy_opt searchTerm
                      || defined minPrice || defined maxPrice
                   then Some {| f_category := or_null category;
                                f_searchTerm := or_null searchTerm;
                                f_minPrice := minPrice;
                                f_maxPrice := maxPrice |}
                   else None |}
     end)
    (fun error => throw (AppError "Failed to retrieve products" 500 "PRODUCTS_FETCH_ERROR")).

(** [public async getProductById(id)] *)
Definition getProductById (id : Z) : M (World DbState) (option Product) :=
  try_catch
    (result ← executeStoredProcedure (GetProductById id);
     match recordset result with
     | None | Some [] => mret None
     | Some (first :: _) => mret (Some (product first))
     end)
    (fun error => throw (AppError "Failed to retrieve product" 500 "PRODUCT_FETCH_ERROR")).

(** The [input] object of [updateProduct]: existing data merged with updates. *)
Definition merge_update (id : Z) (productData : UpdateProductDto) (existingProduct : Product)
  : UpdateProductInput :=
  {| Id := id;
     Name := default (name existingProduct) (dto_name productData);
     Description := match dto_description productData with
                    | Some d => or_null (Some d)
                    | None => description existingProduct
                    end;
     Price := default (price existingProduct) (dto_price productData);
     Category' := default (category existingProduct) (dto_category productData) |}.

(** [public async updateProduct(id, productData)] *)
Definition updateProduct (id : Z) (productData : UpdateProductDto) : M (World DbState) Product :=
  try_catch
    (existingProduct ← getProductById id;
     match existingProduct with
     | None => throw (AppError "Product not found" 404 "PRODUCT_NOT_FOUND")
     | Some existingProduct =>
         let input := merge_update id productData existingProduct in
         result ← executeStoredProcedure (UpdateProduct input);
         match recordset result with
         | None | Some [] => throw (AppError "Failed to update product" 500 "PRODUCT_UPDATE_ERROR")
         | Some (updatedProduct :: _) => mret (product updatedProduct)
         end
     end)
    (fun error =>
       if instanceof_AppError error then throw error
       else throw (AppError "Failed to update product" 500 "PRODUCT_UPDATE_ERROR")).

(** [public async deleteProduct(id)] *)
Definition deleteProduct (id : Z) : M (World DbState) unit :=
  try_catch
    (existingProduct ← getProductById id;
     match existingProduct with
     | None => throw (AppError "Product not found" 404 "PRODUCT_NOT_FOUND")
     | Some _ =>
         executeStoredProcedure (DeleteProduct id);;
         mret tt
     end)
    (fun error =>
       if instanceof_AppError error then throw error
       else throw (AppError "Failed to delete product" 500 "PRODUCT_DELETE_ERROR")).

End WithCollaborators.

End ProductService.

(** ** backend/src/middleware/validation.middleware.ts and
       backend/src/utils/validation.schemas.ts *)

Module Validation.
Import Js Comp.

(** *** Strings and numbers of a request

    A string is the sequence of its UTF-16 code units: that is what
    [value.length] counts and what [value.trim()] works on. *)
Definition JsString : Type := list N.

(** The string of an ASCII literal of the sources, one code unit for each
    character. *)
Definition lit (s : string) : JsString := List.map N_of_ascii (list_ascii_of_string s).

(** What [String.prototype.trim] removes, the WhiteSpace and LineTerminator
    code points of ECMAScript: U+0009 to U+000D, U+0020, U+00A0, U+1680,
    U+2000 to U+200A, U+2028, U+2029, U+202F, U+205F, U+3000 and U+FEFF. *)
Definition is_whitespace (c : N) : bool :=
  ((9 <=? c) && (c <=? 13) || (c =? 32) || (c =? 160) || (c =? 5760)
   || (8192 <=? c) && (c <=? 8202) || (c =? 8232) || (c =? 8233)
   || (c =? 8239) || (c =? 8287) || (c =? 12288) || (c =? 65279))%N.

Fixpoint trim_start (s : JsString) : JsString :=
  match s with
  | [] => []
  | c :: s' => if is_whitespace c then trim_start s' else s
  end.

Fixpoint trim_end (s : JsString) : JsString :=
  match s with
  | [] => []
  | c :: s' =>
      match trim_end s' with
      | [] => if is_whitespace c then [] else [c]
      | r => c :: r
      end
  end.

(** [s.trim()] *)
Definition trim (s : JsString) : JsString := trim_end (trim_start s).

(** [t] is [s] without the whitespace at its two ends: what [trim] is to
    return. *)
Definition trimmed (s t : JsString) : Prop :=
  exists pre post : JsString,
    s = (pre ++ t ++ post)%list
    /\ Forall (fun c => is_whitespace c = true) pre
    /\ Forall (fun c => is_whitespace c = true) post
    /\ (forall c rest, t = c :: rest -> is_whitespace c = false)
    /\ (forall c init, t = (init ++ [c])%list -> is_whitespace c = false).

(** A number is an IEEE 754 double. A finite one is given by its value, a
    rational; NaN does not occur in a parsed request. *)
Inductive Double : Type :=
| Real (q : Q)
| Infinite (negative : bool).

(** [floor(log2(a / b))] for positive [a] and [b]. *)
Definition log2_floor (a b : Z) : Z :=
  let d := Z.log2 a - Z.log2 b in
  if (if 0 <=? d then b * 2 ^ d <=? a else b <=? a * 2 ^ (- d)) then d else d - 1.

(** The integer nearest to [num / den], the even one of two equally near. *)
Definition round_half_even (num den : Z) : Z :=
  let m := num / den in
  match 2 * (num mod den) ?= den with
  | Lt => m
  | Gt => m + 1
  | Eq => if Z.even m then m else m + 1
  end.

(** [m * 2^e] *)
Definition scale2 (m e : Z) : Q :=
  if 0 <=? e then inject_Z (m * 2 ^ e) else Qred (m # Z.to_pos (2 ^ (- e))).

(** The double nearest to the real [x] (round to nearest, ties to even): 53
    bits of significand, the last place no finer than [2^-1074], and an
    infinity from [2^1024] on. Every arithmetic operation of JavaScript is
    the exact operation followed by this rounding. *)
Definition to_double (x : Q) : Double :=
  let a := Z.abs (Qnum x) in
  let b := Z.pos (Qden x) in
  if a =? 0 then Real 0
  else
    let e := Z.max (log2_floor a b - 52) (-1074) in
    let m := if 0 <=? e then round_half_even a (b * 2 ^ e)
             else round_half_even (a * 2 ^ (- e)) b in
    if (0 <=? e) && (2 ^ 1024 <=? m * 2 ^ e) then Infinite (Qnum x <? 0)
    else Real (scale2 (Z.sgn (Qnum x) * m) e).

(** The value of a finite decimal literal of the sources. *)
Definition literal (q : Q) : Q :=
  match to_double q with
  | Real d => d
  | Infinite _ => q
  end.

(** [Math.round(value * precision) / precision] with
    [precision = Math.pow(10, limit)], which is exact up to [limit = 22].
    [Math.round] of a double is exact. *)
Definition round_to (limit : nat) (q : Q) : Double :=
  let precision := inject_Z (10 ^ Z.of_nat limit) in
  match to_double (q * precision) with
  | Real p => to_double (inject_Z (Qfloor (p + (1 # 2))) / precision)
  | Infinite negative => Infinite negative
  end.

Definition Qleb (a b : Q) : bool := (Qnum a * QDen b <=? Qnum b * QDen a)%Z.

Definition is_integer (q : Q) : bool := Qleb (inject_Z (Qceiling q)) q.

(** [value > 0], [value <= limit], [value >= limit] and
    [Math.trunc(value) - value === 0] on a double. *)
Definition is_positive (d : Double) : bool :=
  match d with
  | Real q => negb (Qleb q 0)
  | Infinite negative => negb negative
  end.

Definition at_most (d : Double) (limit : Q) : bool :=
  match d with
  | Real q => Qleb q limit
  | Infinite negative => negative
  end.

Definition at_least (d : Double) (limit : Q) : bool :=
  match d with
  | Real q => Qleb limit q
  | Infinite negative => negb negative
  end.

Definition is_whole (d : Double) : bool :=
  match d with
  | Real q => is_integer q
  | Infinite _ => false
  end.

(** A JSON value of a request as [JSON.parse] gives it ([1e999] is read as
    an infinity); [VUndefined] is an absent value. *)
#[warnings="-register-all"]
Inductive JVal : Type :=
| VUndefined
| VNull
| VBool (b : bool)
| VNumber (q : Q)
| VInfinity (negative : bool)
| VString (s : JsString)
| VArray (items : list JVal)
| VObject (o : gmap string JVal).

Definition number_value (d : Double) : JVal :=
  match d with
  | Real q => VNumber q
  | Infinite negative => VInfinity negative
  end.

(** *** The fragment of Joi that the schemas of the repository use

    Validation runs with [{ abortEarly: false, stripUnknown: true,
    convert: true }], the options [validate] passes. *)

Inductive StringRule : Type :=
| str_min (limit : nat)
| str_max (limit : nat).

Inductive NumberRule : Type :=
| num_positive
| num_precision (limit : nat)
| num_max (limit : Q)
| num_min (limit : Q)
| num_integer.

Inductive Presence : Type := required | optional.

Inductive TypeSchema : Type :=
| JoiString (trim : bool) (rules : list StringRule) (allow : list JsString)
| JoiNumber (rules : list NumberRule).

(** One key of [Joi.object({ ... })]: its type with rules, [.required()] or
    [.optional()], [.default(v)], and [.messages({ code: text })]. *)
Record KeySchema : Type := {
  key : string;
  type : TypeSchema;
  presence : Presence;
  default_value : option JVal;
  messages : list (string * string)
}.

Definition ObjectSchema : Type := list KeySchema.

(** How Joi reads a string where a number is expected: not as a number; as
    a number that the double it parses to does not spell back (the parsed
    double is kept, with the error [number.unsafe]); or as a number. *)
Inductive Reading : Type :=
| not_numeric
| unsafe_numeric (parsed : Double)
| numeric (q : Q).

(** What Joi brings besides the schema: its built-in message for an error
    code and a label, and its reading of a numeric string. *)
Record JoiLib : Type := {
  default_message : string -> string -> string;
  parse_number : JsString -> Reading
}.

(** Beyond [Number.MAX_SAFE_INTEGER] in either direction. *)
Definition unsafe (q : Q) : bool :=
  negb (Qleb q (inject_Z 9007199254740991)) || negb (Qleb (inject_Z (-9007199254740991)) q).

(** The schema has the rule [min(0)], which lets the empty string through. *)
Definition has_min_zero (rules : list StringRule) : bool :=
  existsb (fun r => match r with str_min O => true | _ => false end) rules.

(** The value is one of those given to [allow(...)]. *)
Definition allowed (s : JsString) (allow : list JsString) : bool :=
  existsb (fun a => bool_decide (a = s)) allow.

(** The conversion of a string: [trim()] trims it. *)
Definition converted_string (trim_rule : bool) (s : JsString) : JsString :=
  if trim_rule then trim s else s.

(** The conversion of a number: [precision(limit)] rounds it. *)
Definition apply_precision (rules : list NumberRule) (q : Q) : Double :=
  match List.find (fun r => match r with num_precision _ => true | _ => false end) rules with
  | Some (num_precision limit) => round_to limit q
  | _ => Real q
  end.

Section WithJoi.

Variable joi : JoiLib.

(** The text of an error: the schema's own message for the code, else Joi's. *)
Definition render (k : KeySchema) (code : string) : string :=
  match List.find (fun cm => String.eqb (fst cm) code) (messages k) with
  | Some cm => snd cm
  | None => default_message joi code (key k)
  end.

(** The rules of a string, each checked (no early abort); [min] and [max]
    compare [value.length]. *)
Definition string_rule_errors (k : KeySchema) (s : JsString) (rules : list StringRule)
  : list string :=
  flat_map (fun r =>
              match r with
              | str_min limit =>
                  if (limit <=? length s)%nat then [] else [render k "string.min"]
              | str_max limit =>
                  if (length s <=? limit)%nat then [] else [render k "string.max"]
              end) rules.

(** The rules of a number, each checked on the converted value; [precision]
    has been applied by the conversion and is skipped here, as Joi does
    under [convert: true]. *)
Definition number_rule_errors (k : KeySchema) (d : Double) (rules : list NumberRule)
  : list string :=
  flat_map (fun r =>
              match r with
              | num_positive =>
                  if is_positive d then [] else [render k "number.positive"]
              | num_precision _ => []
              | num_max limit =>
                  if at_most d limit then [] else [render k "number.max"]
              | num_min limit =>
                  if at_least d limit then [] else [render k "number.min"]
              | num_integer =>
                  if is_whole d then [] else [render k "number.integer"]
              end) rules.

(** A number under a number schema: rounded to the precision, refused when
    it is beyond the safe range, else checked against the rules. *)
Definition validate_number (k : KeySchema) (rules : list NumberRule) (q : Q)
  : list string * JVal :=
  let rounded := apply_precision rules q in
  if unsafe q then ([render k "number.unsafe"], number_value rounded)
  else (number_rule_errors k rounded rules, number_value rounded).

(** Validation of the value found under one key: the messages and the
    converted value. An error of the base type ends the validation of the
    key; the rules are all checked. *)
Definition validate_key (k : KeySchema) (input : JVal) : list string * JVal :=
  match input with
  | VUndefined =>
      match presence k with
      | required => ([render k "any.required"], VUndefined)
      | optional => ([], default VUndefined (default_value k))
      end
  | _ =>
      match type k, input with
      | JoiString trim_rule rules allow, VString s =>
          let s := converted_string trim_rule s in
          if allowed s allow then ([], VString s)
          else
            match s with
            | [] =>
                if has_min_zero rules then (string_rule_errors k s rules, VString s)
                else ([render k "string.empty"], VString s)
            | _ :: _ => (string_rule_errors k s rules, VString s)
            end
      | JoiString _ _ _, _ => ([render k "string.base"], input)
      | JoiNumber rules, VNumber q => validate_number k rules q
      | JoiNumber rules, VString s =>
          match parse_number joi s with
          | numeric q => validate_number k rules q
          | unsafe_numeric parsed => ([render k "number.unsafe"], number_value parsed)
          | not_numeric => ([render k "number.base"], input)
          end
      | JoiNumber _, VInfinity _ => ([render k "number.infinity"], input)
      | JoiNumber _, _ => ([render k "number.base"], input)
      end
  end.

(** [object[key]] *)
Definition property (o : gmap string JVal) (name : string) : JVal :=
  default VUndefined (o !! name).

(** The messages of every key, in the order of the schema. *)
Definition object_errors (schema : ObjectSchema) (o : gmap string JVal) : list string :=
  flat_map (fun k => fst (validate_key k (property o (key k)))) schema.

(** The converted object: the keys of the schema that have a value; unknown
    keys are stripped. *)
Definition object_value (schema : ObjectSchema) (o : gmap string JVal) : gmap string JVal :=
  fold_right (fun k acc =>
                match snd (validate_key k (property o (key k))) with
                | VUndefined => acc
                | v => <[key k := v]> acc
                end) ∅ schema.

(** [schema.validate(value, options)]: the [details] messages of [error]
    (none when [error] is undefined) and [value]. *)
Definition schema_validate (schema : ObjectSchema) (value : JVal) : list string * JVal :=
  match value with
  | VUndefined => ([], VUndefined)
  | VObject o => (object_errors schema o, VObject (object_value schema o))
  | _ => ([default_message joi "object.base" "value"], value)
  end.

(** *** What a violation is

    The rules in the words of Joi's documentation, one clause for each error
    code, to compare [validate_key] with. [number_of v] is the number a
    value is or spells; the rules of a number look at it after the
    conversion. *)

Definition number_of (v : JVal) : option Q :=
  match v with
  | VNumber q => Some q
  | VString s =>
      match parse_number joi s with
      | numeric q => Some q
      | _ => None
      end
  | _ => None
  end.

Definition positive_number (d : Double) : Prop :=
  match d with
  | Real q => (0 < q)%Q
  | Infinite negative => negative = false
  end.

Definition number_at_most (d : Double) (limit : Q) : Prop :=
  match d with
  | Real q => (q <= limit)%Q
  | Infinite negative => negative = true
  end.

Definition number_at_least (d : Double) (limit : Q) : Prop :=
  match d with
  | Real q => (limit <= q)%Q
  | Infinite negative => negative = false
  end.

Definition whole_number (d : Double) : Prop :=
  match d with
  | Real q => exists z : Z, (q == inject_Z z)%Q
  | Infinite _ => False
  end.

Inductive violates (k : KeySchema) : JVal -> string -> Prop :=
| missing_value :
    presence k = required ->
    violates k VUndefined "any.required"
| not_a_string trim_rule rules allow v :
    type k = JoiString trim_rule rules allow ->
    v <> VUndefined -> (forall s, v <> VString s) ->
    violates k v "string.base"
| empty_string trim_rule rules allow s :
    type k = JoiString trim_rule rules allow ->
    converted_string trim_rule s = [] ->
    ~ In [] allow -> ~ In (str_min 0) rules ->
    violates k (VString s) "string.empty"
| too_short trim_rule rules allow s limit :
    type k = JoiString trim_rule rules allow ->
    ~ In (converted_string trim_rule s) allow ->
    converted_string trim_rule s <> [] \/ In (str_min 0) rules ->
    In (str_min limit) rules ->
    (length (converted_string trim_rule s) < limit)%nat ->
    violates k (VString s) "string.min"
| too_long trim_rule rules allow s limit :
    type k = JoiString trim_rule rules allow ->
    ~ In (converted_string trim_rule s) allow ->
    converted_string trim_rule s <> [] \/ In (str_min 0) rules ->
    In (str_max limit) rules ->
    (limit < length (converted_string trim_rule s))%nat ->
    violates k (VString s) "string.max"
| not_a_number rules v :
    type k = JoiNumber rules ->
    v <> VUndefined -> (forall q, v <> VNumber q) -> (forall negative, v <> VInfinity negative) ->
    (forall s, v = VString s -> parse_number joi s = not_numeric) ->
    violates k v "number.base"
| infinite_number rules negative :
    type k = JoiNumber rules ->
    violates k (VInfinity negative) "number.infinity"
| misread_number rules s parsed :
    type k = JoiNumber rules ->
    parse_number joi s = unsafe_numeric parsed ->
    violates k (VString s) "number.unsafe"
| unsafe_number rules v q :
    type k = JoiNumber rules ->
    number_of v = Some q -> unsafe q = true ->
    violates k v "number.unsafe"
| not_positive rules v q :
    type k = JoiNumber rules ->
    number_of v = Some q -> unsafe q = false ->
    In num_positive rules ->
    ~ positive_number (apply_precision rules q) ->
    violates k v "number.positive"
| above_max rules v q limit :
    type k = JoiNumber rules ->
    number_of v = Some q -> unsafe q = false ->
    In (num_max limit) rules ->
    ~ number_at_most (apply_precision rules q) limit ->
    violates k v "number.max"
| below_min rules v q limit :
    type k = JoiNumber rules ->
    number_of v = Some q -> unsafe q = false ->
    In (num_min limit) rules ->
    ~ number_at_least (apply_precision rules q) limit ->
    violates k v "number.min"
| not_whole rules v q :
    type k = JoiNumber rules ->
    number_of v = Some q -> unsafe q = false ->
    In num_integer rules ->
    ~ whole_number (apply_precision rules q) ->
    violates k v "number.integer".

(** *** validation.middleware.ts *)

(** [interface ValidationOptions] *)
Record ValidationOptions : Type := {
  body : option ObjectSchema;
  params : option ObjectSchema;
  query : option ObjectSchema;
  headers : option ObjectSchema
}.

Record Request : Type := {
  req_body : JVal;
  req_params : JVal;
  req_query : JVal;
  req_headers : JVal;
  originalUrl : string;
  method : string
}.

(** The [error] member of the JSON body of a rejection. *)
Record ErrorEnvelope : Type := {
  e_message : string;
  e_code : string;
  e_statusCode : Z;
  e_details : list string;
  e_timestamp : string;
  e_path : string;
  e_method : string
}.

(** [res.status(code).json({ error })] *)
Record Response : Type := {
  status : Z;
  error : ErrorEnvelope
}.

(** The request as the middleware rewrites it, the responses written, and how
    often [next()] ran (each run hands the request to the handler). *)
Record Ctx : Type := {
  req : Request;
  sent : list Response;
  next_calls : nat
}.

(** [new Date().toISOString()] at the time of the rejection *)
Variable now : string.

Definition set_req (f : Request -> Request) : M Ctx unit :=
  modify (fun c => {| req := f (req c); sent := sent c; next_calls := next_calls c |}).

Definition res_status_json (code : Z) (e : ErrorEnvelope) : M Ctx unit :=
  modify (fun c => {| req := req c;
                      sent := sent c ++ [{| status := code; error := e |}];
                      next_calls := next_calls c |}).

(** [next()] *)
Definition next : M Ctx unit :=
  modify (fun c => {| req := req c; sent := sent c; next_calls := S (next_calls c) |}).

(** One of the four blocks of [validate]: with a schema for the surface,
    validate it; on an error push every message of [error.details] onto
    [errors], otherwise store the converted value back on the request. *)
Definition validate_surface (schema : option ObjectSchema)
    (read : Request -> JVal) (write : JVal -> Request -> Request)
    (errors : list string) : M Ctx (list string) :=
  match schema with
  | Some schema =>
      c ← get;
      let '(details, value) := schema_validate schema (read (req c)) in
      match details with
      | _ :: _ => mret (errors ++ details)%list
      | [] => set_req (write value);; mret errors
      end
  | None => mret errors
  end.

Definition write_body (v : JVal) (r : Request) : Request :=
  {| req_body := v; req_params := req_params r; req_query := req_query r;
     req_headers := req_headers r; originalUrl := originalUrl r; method := method r |}.

Definition write_params (v : JVal) (r : Request) : Request :=
  {| req_body := req_body r; req_params := v; req_query := req_query r;
     req_headers := req_headers r; originalUrl := originalUrl r; method := method r |}.

Definition write_query (v : JVal) (r : Request) : Request :=
  {| req_body := req_body r; req_params := req_params r; req_query := v;
     req_headers := req_headers r; originalUrl := originalUrl r; method := method r |}.

Definition write_headers (v : JVal) (r : Request) : Request :=
  {| req_body := req_body r; req_params := req_params r; req_query := req_query r;
     req_headers := v; originalUrl := originalUrl r; method := method r |}.

(** [export const validate = (options) => (req, res, next) => ...] *)
Definition validate (options : ValidationOptions) : M Ctx unit :=
  let errors : list string := [] in
  errors ← validate_surface (body options) req_body write_body errors;
  errors ← validate_surface (params options) req_params write_params errors;
  errors ← validate_surface (query options) req_query write_query errors;
  errors ← validate_surface (headers options) req_headers write_headers errors;
  if (0 <? length errors)%nat then
    c ← get;
    res_status_json 400 {| e_message := "Validation failed";
                           e_code := "VALIDATION_ERROR";
                           e_statusCode := 400;
                           e_details := errors;
                           e_timestamp := now;
                           e_path := originalUrl (req c);
                           e_method := method (req c) |}
  else next.

(** The messages one surface contributes: those of its schema on the value
    the request carries there, none without a schema. *)
Definition surface_errors (schema : option ObjectSchema) (value : JVal) : list string :=
  match schema with
  | Some schema => fst (schema_validate schema value)
  | None => []
  end.

(** The 400 response of [validate] for the collected [errors]. *)
Definition validation_failed (r : Request) (errors : list string) : Response :=
  {| status := 400;
     error := {| e_message := "Validation failed";
                 e_code := "VALIDATION_ERROR";
                 e_statusCode := 400;
                 e_details := errors;
                 e_timestamp := now;
                 e_path := originalUrl r;
                 e_method := method r |} |}.

(** [export const validateBody = (schema) => validate({ body: schema })] *)
Definition validateBody (schema : ObjectSchema) : M Ctx unit :=
  validate {| body := Some schema; params := None; query := None; headers := None |}.

End WithJoi.

(** *** validation.schemas.ts *)

(** [export const createProductSchema] *)
Definition createProductSchema : ObjectSchema :=
  [ {| key := "name";
       type := JoiString true [str_min 1; str_max 255] [];
       presence := required;
       default_value := None;
       messages := [ ("string.base", "Name must be a string");
                     ("string.empty", "Name cannot be empty");
                     ("string.min", "Name must be at least 1 character long");
                     ("string.max", "Name must not exceed 255 characters");
                     ("any.required", "Name is required") ] |};
    {| key := "description";
       type := JoiString true [str_max 1000] [[]];
       presence := optional;
       default_value := None;
       messages := [ ("string.base", "Description must be a string");
                     ("string.max", "Description must not exceed 1000 characters") ] |};
    {| key := "price";
       type := JoiNumber [num_positive; num_precision 2; num_max (literal (99999999 # 100))];
       presence := required;
       default_value := None;
       messages := [ ("number.base", "Price must be a number");
                     ("number.positive", "Price must be greater than 0");
                     ("number.precision", "Price can have at most 2 decimal places");
                     ("number.max", "Price must not exceed 999,999.99");
                     ("any.required", "Price is required") ] |};
    {| key := "category";
       type := JoiString true [str_min 1; str_max 100] [];
       presence := required;
       default_value := None;
       messages := [ ("string.base", "Category must be a string");
                     ("string.empty", "Category cannot be empty");
                     ("string.min", "Category must be at least 1 character long");
                     ("string.max", "Category must not exceed 100 characters");
                     ("any.required", "Category is required") ] |} ].

(** [export const productIdSchema] *)
Definition productIdSchema : ObjectSchema :=
  [ {| key := "id";
       type := JoiNumber [num_integer; num_positive];
       presence := required;
       default_value := None;
       messages := [ ("number.base", "Product ID must be a number");
                     ("number.integer", "Product ID must be an integer");
                     ("number.positive", "Product ID must be greater than 0");
                     ("any.required", "Product ID is required") ] |} ].

End Validation.

(** ** Concrete collaborators

    An in-memory database and fixed answers of the libraries, on which the
    functions above can be run. *)

Module Demo.
Import Js Comp.

(** *** Authentication *)

Definition john : AuthService.User :=
  {| AuthService.id := 1;
     AuthService.username := "johndoe";
     AuthService.email := "john@example.com";
     AuthService.passwordHash := Some "hash:SecurePass123!";
     AuthService.createdAt := 1693303200000;
     AuthService.updatedAt := 1693303200000 |}.

Definition john_claims : AuthService.JwtPayload :=
  {| AuthService.userId := 1;
     AuthService.jwt_username := "johndoe";
     AuthService.jwt_email := "john@example.com";
     AuthService.iat := Some 1693303200;
     AuthService.exp := Some 1693389600 |}.

(** The [Users] table as a list of rows. *)
Definition users_run (c : AuthService.DbCall) (users : list AuthService.User)
  : Completion (AuthService.DatabaseResult AuthService.User) * list AuthService.User :=
  match c with
  | AuthService.CreateUser u e h =>
      let row := {| AuthService.id := Z.of_nat (length users) + 1;
                    AuthService.username := u;
                    AuthService.email := e;
                    AuthService.passwordHash := Some h;
                    AuthService.createdAt := 0;
                    AuthService.updatedAt := 0 |} in
      (Return {| AuthService.recordset := Some [row] |}, (users ++ [row])%list)
  | AuthService.GetUserByUsername u =>
      (Return {| AuthService.recordset :=
                   Some (List.filter (fun x => String.eqb (AuthService.username x) u) users) |},
       users)
  | AuthService.SelectUserById i =>
      (Return {| AuthService.recordset :=
                   Some (List.filter (fun x => AuthService.id x =? i) users) |},
       users)
  end.

(** The token ["good"] verifies, ["old"] has expired, any other is malformed. *)
Definition auth_env : AuthService.Collaborators (list AuthService.User) :=
  {| AuthService.db_run := users_run;
     AuthService.jwt_verify := fun token secret =>
       if String.eqb token "good" then Return john_claims
       else if String.eqb token "old" then Throw (ErrorObj "TokenExpiredError" "jwt expired")
       else Throw (ErrorObj "JsonWebTokenError" "jwt malformed");
     AuthService.jwt_sign := fun payload secret expiresIn => Return "signed-token";
     AuthService.bcrypt_hash := fun password rounds => Return ("hash:" ++ password);
     AuthService.bcrypt_compare := fun password hash =>
       Return (String.eqb ("hash:" ++ password) hash);
     AuthService.authConfig :=
       {| AuthService.jwtSecret := "secret";
          AuthService.jwtExpiresIn := "24h";
          AuthService.saltRounds := 12 |} |}.

Definition auth_world (users : list AuthService.User) : AuthService.World (list AuthService.User) :=
  {| AuthService.db_state := users; AuthService.db_calls := [] |}.

(** A fresh request: no identity attached, nothing sent, [next()] not run. *)
Definition fresh (users : list AuthService.User) : AuthMiddleware.Ctx (list AuthService.User) :=
  {| AuthMiddleware.req_user := None;
     AuthMiddleware.sent := [];
     AuthMiddleware.next_calls := 0;
     AuthMiddleware.world := auth_world users |}.

(** *** Products *)

Definition laptop : ProductService.Product :=
  {| ProductService.id := 1;
     ProductService.name := "Laptop";
     ProductService.description := Some "A fast laptop";
     ProductService.price := 99999 # 100;
     ProductService.category := "Electronics";
     ProductService.createdAt := 1672531200000;
     ProductService.updatedAt := 1672531200000 |}.

Definition mouse : ProductService.Product :=
  {| ProductService.id := 2;
     ProductService.name := "Mouse";
     ProductService.description := None;
     ProductService.price := 1999 # 100;
     ProductService.category := "Electronics";
     ProductService.createdAt := 1672617600000;
     ProductService.updatedAt := 1672617600000 |}.

Definition as_row (total : option Z) (p : ProductService.Product) : ProductService.Row :=
  {| ProductService.product := p; ProductService.TotalCount := total |}.

Definition apply_update (u : ProductService.UpdateProductInput) (p : ProductService.Product)
  : ProductService.Product :=
  if ProductService.id p =? ProductService.Id u then
    {| ProductService.id := ProductService.id p;
       ProductService.name := ProductService.Name u;
       ProductService.description := ProductService.Description u;
       ProductService.price := ProductService.Price u;
       ProductService.category := ProductService.Category' u;
       ProductService.createdAt := ProductService.createdAt p;
       ProductService.updatedAt := ProductService.updatedAt p + 1 |}
  else p.

(** The [Products] table as a list; [GetProducts] pages through the rows of
    the category and attaches their number to every row. *)
Definition products_run (c : ProductService.SpCall) (table : list ProductService.Product)
  : Completion ProductService.DatabaseResult * list ProductService.Product :=
  match c with
  | ProductService.GetProducts input =>
      let matching :=
        List.filter (fun p => match ProductService.Category input with
                              | Some cat => String.eqb (ProductService.category p) cat
                              | None => true
                              end) table in
      let total := Z.of_nat (length matching) in
      let offset := Z.to_nat ((ProductService.PageNumber input - 1) * ProductService.PageSize input) in
      let page := firstn (Z.to_nat (ProductService.PageSize input)) (skipn offset matching) in
      (Return {| ProductService.recordset := Some (List.map (as_row (Some total)) page) |}, table)
  | ProductService.GetProductById i =>
      (Return {| ProductService.recordset :=
                   Some (List.map (as_row None)
                                  (List.filter (fun p => ProductService.id p =? i) table)) |},
       table)
  | ProductService.UpdateProduct u =>
      let table' := List.map (apply_update u) table in
      (Return {| ProductService.recordset :=
                   Some (List.map (as_row None)
                                  (List.filter (fun p => ProductService.id p =? ProductService.Id u)
                                               table')) |},
       table')
  | ProductService.DeleteProduct i =>
      (Return {| ProductService.recordset := Some [] |},
       List.filter (fun p => negb (ProductService.id p =? i)) table)
  end.

Definition product_env : ProductService.Collaborators (list ProductService.Product) :=
  {| ProductService.db_run := products_run;
     ProductService.toISOString := fun d => if d =? 1672531200000 then "2023-01-01T00:00:00.000Z"
                                            else "2023-01-02T00:00:00.000Z" |}.

Definition product_world (table : list ProductService.Product)
  : ProductService.World (list ProductService.Product) :=
  {| ProductService.db_state := table; ProductService.db_calls := [] |}.

(** [{ pageNumber, pageSize, minPrice, maxPrice }] *)
Definition page_query (page size : Z) (lo hi : option Q) : ProductService.ProductQuery :=
  {| ProductService.pageNumber := Some page;
     ProductService.pageSize := Some size;
     ProductService.q_category := None;
     ProductService.searchTerm := None;
     ProductService.sortBy := None;
     ProductService.sortOrder := None;
     ProductService.minPrice := lo;
     ProductService.maxPrice := hi |}.

(** [{ price: 149.99 }] *)
Definition price_update : ProductService.UpdateProductDto :=
  {| ProductService.dto_name := None;
     ProductService.dto_description := None;
     ProductService.dto_price := Some (14999 # 100);
     ProductService.dto_category := None |}.

(** [{ description: '' }] *)
Definition clear_description : ProductService.UpdateProductDto :=
  {| ProductService.dto_name := None;
     ProductService.dto_description := Some EmptyString;
     ProductService.dto_price := None;
     ProductService.dto_category := None |}.

(** *** Validation *)

(** The number a string of decimal digits spells. *)
Definition read_digits (s : Validation.JsString) : option Z :=
  match s with
  | [] => None
  | _ =>
      fold_left (fun acc c =>
                   match acc with
                   | Some n => if ((48 <=? c) && (c <=? 57))%N
                               then Some (10 * n + (Z.of_N c - 48))
                               else None
                   | None => None
                   end) s (Some 0)
  end.

(** A library that reads strings of decimal digits as numbers; beyond
    [Number.MAX_SAFE_INTEGER] the reading counts as unsafe. *)
Definition joi : Validation.JoiLib :=
  {| Validation.default_message := fun code label => label ++ " fails " ++ code;
     Validation.parse_number := fun s =>
       match read_digits s with
       | Some n => if n <=? 9007199254740991 then Validation.numeric (inject_Z n)
                   else Validation.unsafe_numeric (Validation.to_double (inject_Z n))
       | None => Validation.not_numeric
       end |}.

(** [{ name: '', price: -10, category: "Electronics" }] *)
Definition bad_product : Validation.JVal :=
  Validation.VObject
    (<["name" := Validation.VString []]>
    (<["price" := Validation.VNumber (-10 # 1)]>
    (<["category" := Validation.VString (Validation.lit "Electronics")]> ∅))).

(** [{ id: "abc" }] *)
Definition bad_id : Validation.JVal :=
  Validation.VObject (<["id" := Validation.VString (Validation.lit "abc")]> ∅).

Definition request_ctx (payload params : Validation.JVal) : Validation.Ctx :=
  {| Validation.req := {| Validation.req_body := payload;
                          Validation.req_params := params;
                          Validation.req_query := Validation.VObject ∅;
                          Validation.req_headers := Validation.VObject ∅;
                          Validation.originalUrl := "/api/products";
                          Validation.method := "POST" |};
     Validation.sent := [];
     Validation.next_calls := 0 |}.
End Demo.

(** ** backend/src/config/database.connection.ts *)

Module DatabaseConnection.
Import Js Comp.

(** [error instanceof Error ? error.message : 'Unknown error'] *)
Definition cause_text (error : Thrown) : string :=
  if instanceof_Error error then error_message error else "Unknown error".

Section WithDriver.

(** [Db] is the server together with the pool of the connection object;
    [Call] a procedure name with its inputs or a query text with its inputs;
    [Result] what the driver resolves to. *)
Context {Db Call Result : Type}.
(** [this.getPool()]: connects first when there is no connected pool, and
    rejects when that fails. *)
Variable getPool : M Db unit.
(** [request.execute(procedureName)] and [request.query(query)] of the
    driver, the inputs bound. *)
Variable request_execute : Call -> M Db Result.
Variable request_query : Call -> M Db Result.

(** [public async executeStoredProcedure(procedureName, inputs)] *)
Definition executeStoredProcedure (c : Call) : M Db Result :=
  try_catch
    (getPool;;
     request_execute c)
    (fun error =>
       throw (new_Error ("Stored procedure execution failed: " ++ cause_text error))).

(** [public async executeQuery(query, inputs)] *)
Definition executeQuery (c : Call) : M Db Result :=
  try_catch
    (getPool;;
     request_query c)
    (fun error =>
       throw (new_Error ("Query execution failed: " ++ cause_text error))).

(** [public async healthCheck()]; [select_one] is the query
    [SELECT 1 as HealthCheck]. *)
Definition healthCheck (select_one : Call) : M Db bool :=
  try_catch
    (executeQuery select_one;;
     mret true)
    (fun error => mret false).

End WithDriver.

(** The [dbConnection] the auth service talks to: [CreateUser] and
    [GetUserByUsername] are stored procedures, the lookup by id is a query. *)
Definition auth_db_run {Db : Type} (getPool : M Db unit)
    (driver : AuthService.DbCall -> M Db (AuthService.DatabaseResult AuthService.User))
    (c : AuthService.DbCall)
  : M Db (AuthService.DatabaseResult AuthService.User) :=
  match c with
  | AuthService.SelectUserById _ => executeQuery getPool driver c
  | _ => executeStoredProcedure getPool driver c
  end.

(** The [dbConnection] the product service talks to in its stored-procedure
    methods. *)
Definition product_db_run {Db : Type} (getPool : M Db unit)
    (driver : ProductService.SpCall -> M Db ProductService.DatabaseResult)
    (c : ProductService.SpCall)
  : M Db ProductService.DatabaseResult :=
  executeStoredProcedure getPool driver c.

End DatabaseConnection.

(** ** backend/src/services/auth.service.ts, continued *)

Module AuthServiceRefresh.
Import Js Comp AuthService.

Section WithCollaborators.

Context {DbState : Type}.
Variable env : Collaborators DbState.

(** [public async refreshToken(currentToken)] *)
Definition refreshToken (currentToken : string) : M (World DbState) AuthResponse :=
  try_catch
    (decoded ← lift (verifyToken env currentToken);
     user ← getUserById env (userId decoded);
     match user with
     | None => throw (new_Error "User not found")
     | Some user =>
         token ← lift (generateToken env (id user) (username user) (email user));
         mret {| AuthService.user := user_literal user;
                 token := token;
                 expiresIn := jwtExpiresIn (authConfig env) |}
     end)
    (fun error => throw (new_Error "Token refresh failed")).

End WithCollaborators.

End AuthServiceRefresh.

(** ** backend/src/middleware/auth.middleware.ts, continued *)

Module Authorize.
Import Js Comp AuthService AuthMiddleware.

Section WithCollaborators.

Context {DbState : Type}.

(** [export const authorize = (roles) => (req, res, next) => ...]; the role
    check is commented out in the source. *)
Definition authorize (roles : list string) : M (Ctx DbState) unit :=
  c ← get;
  match req_user c with
  | None =>
      res_status_json 401 "Authentication required"
                      "You must be authenticated to access this resource"
  | Some _ => next
  end.

End WithCollaborators.

End Authorize.

(** ** backend/src/services/product.service.ts, continued *)

Module ProductQueries.
Import Js Comp ProductService.

(** [interface CreateProductDto]; [description?: string]. *)
Record CreateProductDto : Type := {
  new_name : string;
  new_description : option string;
  new_price : Q;
  new_category : string
}.

(** [interface CreateProductInput] *)
Record CreateProductInput : Type := {
  in_Name : string;
  in_Description : option string;
  in_Price : Q;
  in_Category : string
}.

(** A row of [SELECT COUNT(..) as totalProducts, AVG(price) as averagePrice];
    [AVG] over no rows is null. *)
Record StatsRow : Type := {
  s_totalProducts : Z;
  s_averagePrice : option Q
}.

(** A row of the per-category aggregate. *)
Record CategoryRow : Type := {
  c_category : string;
  c_count : Z;
  c_averagePrice : Q;
  c_minPrice : Q;
  c_maxPrice : Q
}.

(** A row of the price histogram. *)
Record RangeRow : Type := {
  range : string;
  count : Z
}.

(** [interface PriceRangeStatistics] *)
Record PriceRangeStatistics : Type := {
  pr_range : string;
  pr_count : Z;
  percentage : Q
}.

(** [interface ProductStatistics] *)
Record ProductStatistics : Type := {
  totalProducts : Z;
  averagePrice : Q;
  categories : list CategoryRow;
  priceRanges : list PriceRangeStatistics
}.

(** The inputs of the search query. *)
Record SearchInputs : Type := {
  p_searchTerm : string;
  p_exactTerm : string;
  p_startTerm : string;
  p_limit : Z
}.

(** The calls of these methods on [dbConnection]: one stored procedure and
    the raw queries. *)
Inductive Call : Type :=
| CreateProduct (input : CreateProductInput)
| SelectCategories
| SelectTotals
| SelectCategoryStats
| SelectPriceRanges
| SelectSearch (inputs : SearchInputs).

(** What [dbConnection] answers to each call: the [recordset] of the result
    (possibly undefined), or a rejection. *)
Record Collaborators (DbState : Type) : Type := {
  run_create : CreateProductInput -> DbState -> Completion (option (list Product)) * DbState;
  run_categories : DbState -> Completion (option (list string)) * DbState;
  run_totals : DbState -> Completion (option (list StatsRow)) * DbState;
  run_category_stats : DbState -> Completion (option (list CategoryRow)) * DbState;
  run_price_ranges : DbState -> Completion (option (list RangeRow)) * DbState;
  run_search : SearchInputs -> DbState -> Completion (option (list Product)) * DbState
}.
Arguments run_create {DbState} _.
Arguments run_categories {DbState} _.
Arguments run_totals {DbState} _.
Arguments run_category_stats {DbState} _.
Arguments run_price_ranges {DbState} _.
Arguments run_search {DbState} _.

Record World (DbState : Type) : Type := {
  db_state : DbState;
  db_calls : list Call
}.
Arguments db_state {DbState} _.
Arguments db_calls {DbState} _.

(** Reading a property of [undefined] *)
Definition TypeError : Thrown :=
  ErrorObj "TypeError" "Cannot read properties of undefined".

Section WithCollaborators.

Context {DbState : Type}.
Variable env : Collaborators DbState.

(** A call on [dbConnection], recorded. *)
Definition issue {A} (c : Call) (run : DbState -> Completion A * DbState)
  : M (World DbState) A :=
  fun w =>
    let '(r, s') := run (ProductQueries.db_state w) in
    (r, {| db_state := s'; db_calls := ProductQueries.db_calls w ++ [c] |}).

(** [result.recordset.method(...)] and [result.recordset[0]] throw on an
    undefined recordset. *)
Definition defined_recordset {A} (recordset : option (list A)) : M (World DbState) (list A) :=
  match recordset with
  | Some rows => mret rows
  | None => throw TypeError
  end.

(** [public async createProduct(productData)]; a row of the recordset is an
    object, so the test [!newProduct] after the length test is never taken. *)
Definition createProduct (productData : CreateProductDto) : M (World DbState) Product :=
  try_catch
    (let input := {| in_Name := new_name productData;
                     in_Description := or_null (new_description productData);
                     in_Price := new_price productData;
                     in_Category := new_category productData |} in
     recordset ← issue (CreateProduct input) (run_create env input);
     match recordset with
     | None | Some [] =>
         throw (AppError "Failed to create product" 500 "PRODUCT_CREATE_ERROR")
     | Some (newProduct :: _) => mret newProduct
     end)
    (fun error =>
       if instanceof_AppError error then throw error
       else throw (AppError "Failed to create product" 500 "PRODUCT_CREATE_ERROR")).

(** [public async getCategories()] *)
Definition getCategories : M (World DbState) (list string) :=
  try_catch
    (recordset ← issue SelectCategories (run_categories env);
     defined_recordset recordset)
    (fun error => throw (AppError "Failed to retrieve categories" 500 "CATEGORIES_FETCH_ERROR")).

(** [totalProducts > 0 ? (range.count / totalProducts) * 100 : 0] *)
Definition percentage_of (totalProducts count : Z) : Q :=
  if 0 <? totalProducts
  then (inject_Z count / inject_Z totalProducts * 100)%Q
  else 0%Q.

(** [public async getStatistics()] *)
Definition getStatistics : M (World DbState) ProductStatistics :=
  try_catch
    (statsResult ← issue SelectTotals (run_totals env);
     categoryResult ← issue SelectCategoryStats (run_category_stats env);
     priceRangeResult ← issue SelectPriceRanges (run_price_ranges env);
     stats ← defined_recordset statsResult;
     let totalProducts := or_zero (s_totalProducts <$> head stats) in
     let averagePrice := default 0%Q (head stats ≫= s_averagePrice) in
     categoryRows ← defined_recordset categoryResult;
     rangeRows ← defined_recordset priceRangeResult;
     mret {| totalProducts := totalProducts;
             averagePrice := averagePrice;
             categories := categoryRows;
             priceRanges :=
               List.map (fun range =>
                           {| pr_range := ProductQueries.range range;
                              pr_count := count range;
                              percentage := percentage_of totalProducts (count range) |})
                        rangeRows |})
    (fun error => throw (AppError "Failed to retrieve statistics" 500 "STATISTICS_FETCH_ERROR")).

(** [public async searchProducts(searchTerm, limit = 10)]; the result is the
    recordset as the store gave it. *)
Definition searchProducts (searchTerm : string) (limit : option Z)
  : M (World DbState) (option (list Product)) :=
  try_catch
    (let inputs := {| p_searchTerm := "%" ++ searchTerm ++ "%";
                      p_exactTerm := searchTerm;
                      p_startTerm := searchTerm ++ "%";
                      p_limit := default 10 limit |} in
     issue (SelectSearch inputs) (run_search env inputs))
    (fun error => throw (AppError "Failed to search products" 500 "PRODUCT_SEARCH_ERROR")).

End WithCollaborators.

End ProductQueries.

(** ** backend/src/middleware/error.middleware.ts *)

Module ErrorMiddleware.
Import Js Comp.

(** [new AppError(message, statusCode = 500, code)]: [code || 'INTERNAL_ERROR'] *)
Definition new_AppError (message : string) (statusCode : option Z) (code : option string)
  : Thrown :=
  AppError message (default 500 statusCode)
           (if truthy_opt code then default EmptyString code else "INTERNAL_ERROR").

(** The error object an error-handling middleware is handed, as the
    properties the handlers read off it. Express hands over whatever was
    thrown or given to [next], also the errors of other middleware: the
    [SyntaxError] of [express.json()] carries [statusCode: 400]. [err_errors]
    is the [path] and [message] of each value of [error.errors]. *)
Record ApiError : Type := {
  err_name : option string;
  err_message : option string;
  err_statusCode : option Z;
  err_code : option string;
  err_stack : option string;
  err_errors : option (list (option string * option string))
}.

(** The object that a value thrown by the services and controllers is: an
    [AppError] carries its [statusCode] and [code], an [Error] only its name
    and message, a value that is not an [Error] none of the properties.
    [stack] is the stack the object got where it was created. *)
Definition thrown_object (stack : option string) (e : Thrown) : ApiError :=
  match e with
  | ErrorObj n m =>
      {| err_name := Some n; err_message := Some m; err_statusCode := None;
         err_code := None; err_stack := stack; err_errors := None |}
  | AppError m s c =>
      {| err_name := Some "Error"; err_message := Some m; err_statusCode := Some s;
         err_code := Some c; err_stack := stack; err_errors := None |}
  | NonError _ =>
      {| err_name := None; err_message := None; err_statusCode := None;
         err_code := None; err_stack := None; err_errors := None |}
  end.

(** The [error] member of an error response; [details] is present in the
    answer of [validationErrorHandler] only. *)
Record ErrorEnvelope : Type := {
  message : option string;
  code : option string;
  statusCode : Z;
  details : option (list (option string * option string));
  timestamp : string;
  path : string;
  method : string
}.

(** The data of the success responses of the controllers modelled below. *)
Inductive Data : Type :=
| AuthData (result : AuthService.AuthResponse)
| ProductData (product : ProductService.ProductResponse)
| DeletedData (id : Z) (deletedAt : string).

(** The JSON body: [{ success: true, message, data, timestamp }], or
    [{ error, stack? }]. *)
Inductive Body : Type :=
| SuccessBody (message : string) (data : Data) (timestamp : string)
| ErrorBody (error : ErrorEnvelope) (stack : option string).

(** [res.status(status).json(body)] *)
Record Response : Type := {
  status : Z;
  body : Body
}.

(** What the handlers of one request read besides the error: the request
    line, the clock and [process.env.NODE_ENV]; and the stacks of the error
    objects created while the request is handled, which are not part of a
    [Thrown]: that of the error its handler throws, and that of an error
    raised inside an error handler. *)
Record Env : Type := {
  originalUrl : string;
  req_method : string;
  now : string;
  NODE_ENV : option string;
  thrown_stack : option string;
  raised_stack : option string
}.

Section WithEnv.

Variable env : Env.

(** [export const errorHandler]: [statusCode = 500] is the default of the
    destructuring, used when the error has no [statusCode] of its own. *)
Definition errorHandler (error : ApiError) : Response :=
  let message := err_message error in
  let statusCode := default 500 (err_statusCode error) in
  let code := err_code error in
  let stack := err_stack error in
  {| status := statusCode;
     body := ErrorBody {| message := message;
                          code := code;
                          statusCode := statusCode;
                          details := None;
                          timestamp := now env;
                          path := originalUrl env;
                          method := req_method env |}
                       (if bool_decide (NODE_ENV env = Some "development")
                        then stack else None) |}.

(** [export const validationErrorHandler]; [next] is the error handler
    registered after it. A [ValidationError] without [errors] makes
    [Object.values] throw, and Express hands that [TypeError] on. *)
Definition validationErrorHandler (error : ApiError) (next : ApiError -> Response) : Response :=
  if bool_decide (err_name error = Some "ValidationError") then
    match err_errors error with
    | Some validationErrors =>
        {| status := 400;
           body := ErrorBody {| message := Some "Validation failed";
                                code := Some "VALIDATION_ERROR";
                                statusCode := 400;
                                details := Some validationErrors;
                                timestamp := now env;
                                path := originalUrl env;
                                method := req_method env |}
                             None |}
    | None =>
        next (thrown_object (raised_stack env)
                (ErrorObj "TypeError" "Cannot convert undefined or null to object"))
    end
  else next error.

(** [app.use(validationErrorHandler); ...; app.use(errorHandler)] of
    [initializeErrorHandling]: where [next(error)] leads. *)
Definition on_error (error : ApiError) : Response :=
  validationErrorHandler error errorHandler.

(** [export const notFoundHandler]: [next(error)] with the 404 error; of the
    error handlers only [errorHandler] is registered after it. *)
Definition notFoundHandler : Response :=
  errorHandler
    (thrown_object (thrown_stack env)
       (new_AppError ("Route " ++ originalUrl env ++ " not found")
                     (Some 404) (Some "ROUTE_NOT_FOUND"))).

(** [export const asyncHandler]: [Promise.resolve(fn(req, res, next)).catch(next)],
    for a handler [fn] that ends by writing its response. *)
Definition asyncHandler {W} (fn : M W Response) : M W Response :=
  try_catch fn (fun error => mret (on_error (thrown_object (thrown_stack env) error))).

End WithEnv.

End ErrorMiddleware.

(** ** backend/src/controllers/auth.controller.ts and product.controller.ts *)

Module Controllers.
Import Js Comp ErrorMiddleware.

(** Truthiness of a request value. *)
Definition js_truthy (v : Validation.JVal) : bool :=
  match v with
  | Validation.VUndefined | Validation.VNull => false
  | Validation.VBool b => b
  | Validation.VNumber q => negb (Qnum q =? 0)
  | Validation.VInfinity _ => true
  | Validation.VString s => match s with [] => false | _ :: _ => true end
  | Validation.VArray _ => true
  | Validation.VObject _ => true
  end.

Section AuthController.

Context {DbState : Type}.
Variable service : AuthService.Collaborators DbState.
Variable env : Env.

(** [AuthController.register], inside [asyncHandler] *)
Definition register (userData : AuthService.CreateUserDto)
  : M (AuthService.World DbState) Response :=
  asyncHandler env
    (result ← AuthService.register service userData;
     mret {| status := 201;
             body := SuccessBody "User registered successfully" (AuthData result) (now env) |}).

(** [AuthController.login], inside [asyncHandler] *)
Definition login (loginData : AuthService.LoginDto)
  : M (AuthService.World DbState) Response :=
  asyncHandler env
    (result ← AuthService.login service loginData;
     mret {| status := 200;
             body := SuccessBody "Login successful" (AuthData result) (now env) |}).

(** [AuthController.refreshToken], inside [asyncHandler]; the template of
    the debug line reads [user.userId]. *)
Definition refreshToken (authorization : option string)
    (req_user : option AuthService.JwtPayload)
  : M (AuthService.World DbState) Response :=
  asyncHandler env
    (let currentToken := authorization ≫= (fun h => split space h !! 1%nat) in
     if negb (truthy_opt currentToken) then
       throw (new_AppError "Token is required" (Some 400) (Some "TOKEN_REQUIRED"))
     else
       match req_user with
       | None => throw (ErrorObj "TypeError" "Cannot read properties of undefined")
       | Some user =>
           result ← AuthServiceRefresh.refreshToken service (default EmptyString currentToken);
           mret {| status := 200;
                   body := SuccessBody "Token refreshed successfully" (AuthData result)
                                       (now env) |}
       end).

End AuthController.

Section ProductController.

Context {DbState : Type}.
Variable service : ProductService.Collaborators DbState.
Variable env : Env.
(** [parseInt(id, 10)] on the value under [req.params.id] *)
Variable parseInt : Validation.JVal -> Z.

(** The [data] object the product handlers build from a product. *)
Definition product_data (p : ProductService.Product) : Data :=
  ProductData
    {| ProductService.r_id := ProductService.id p;
       ProductService.r_name := ProductService.name p;
       ProductService.r_description := ProductService.description p;
       ProductService.r_price := ProductService.price p;
       ProductService.r_category := ProductService.category p;
       ProductService.r_createdAt :=
         ProductService.toISOString service (ProductService.createdAt p);
       ProductService.r_updatedAt :=
         ProductService.toISOString service (ProductService.updatedAt p) |}.

(** [ProductController.getProductById], inside [asyncHandler] *)
Definition getProductById (id : Validation.JVal)
  : M (ProductService.World DbState) Response :=
  asyncHandler env
    (if negb (js_truthy id) then
       throw (new_AppError "Product ID is required" (Some 400) (Some "INVALID_PRODUCT_ID"))
     else
       let productId := parseInt id in
       product ← ProductService.getProductById service productId;
       match product with
       | None => throw (new_AppError "Product not found" (Some 404) (Some "PRODUCT_NOT_FOUND"))
       | Some product =>
           mret {| status := 200;
                   body := SuccessBody "Product retrieved successfully"
                                       (product_data product) (now env) |}
       end).

(** [ProductController.updateProduct], inside [asyncHandler] *)
Definition updateProduct (id : Validation.JVal) (productData : ProductService.UpdateProductDto)
  : M (ProductService.World DbState) Response :=
  asyncHandler env
    (if negb (js_truthy id) then
       throw (new_AppError "Product ID is required" (Some 400) (Some "INVALID_PRODUCT_ID"))
     else
       let productId := parseInt id in
       updatedProduct ← ProductService.updateProduct service productId productData;
       mret {| status := 200;
               body := SuccessBody "Product updated successfully"
                                   (product_data updatedProduct) (now env) |}).

(** [ProductController.deleteProduct], inside [asyncHandler] *)
Definition deleteProduct (id : Validation.JVal)
  : M (ProductService.World DbState) Response :=
  asyncHandler env
    (if negb (js_truthy id) then
       throw (new_AppError "Product ID is required" (Some 400) (Some "INVALID_PRODUCT_ID"))
     else
       let productId := parseInt id in
       ProductService.deleteProduct service productId;;
       mret {| status := 200;
               body := SuccessBody "Product deleted successfully"
                                   (DeletedData productId (now env)) (now env) |}).

End ProductController.

End Controllers.

(** ** backend/src/routes/index.ts and backend/src/app.ts: the health checks *)

Module Health.
Import Js Comp.

(** The parts of the two health bodies that depend on the check. *)
Record HealthBody : Type := {
  h_status : string;
  h_database : string;
  h_error : option string
}.

Record Response : Type := {
  status : Z;
  body : HealthBody
}.

Section WithDriver.

Context {Db Call Result : Type}.
Variable getPool : M Db unit.
Variable request_query : Call -> M Db Result.
Variable select_one : Call.

(** [router.get('/health', ...)] of routes/index.ts *)
Definition api_health : M Db Response :=
  try_catch
    (dbHealthy ← DatabaseConnection.healthCheck getPool request_query select_one;
     let healthStatus := {| h_status := "ok";
                            h_database := if dbHealthy : bool then "healthy" else "unhealthy";
                            h_error := None |} in
     let statusCode := if dbHealthy : bool then 200 else 503 in
     mret {| status := statusCode; body := healthStatus |})
    (fun error =>
       mret {| status := 503;
               body := {| h_status := "error";
                          h_database := "unhealthy";
                          h_error := Some "Health check failed" |} |}).

(** [this.app.get('/health', ...)] of app.ts *)
Definition app_health : M Db Response :=
  try_catch
    (dbHealthy ← DatabaseConnection.healthCheck getPool request_query select_one;
     mret {| status := if dbHealthy : bool then 200 else 503;
             body := {| h_status := if dbHealthy : bool then "ok" else "degraded";
                        h_database := if dbHealthy : bool then "healthy" else "unhealthy";
                        h_error := None |} |})
    (fun error =>
       mret {| status := 503;
               body := {| h_status := "error";
                          h_database := "unhealthy";
                          h_error := None |} |}).

End WithDriver.

End Health.

(** ** backend/src/middleware/validation.middleware.ts, continued *)

Module ValidationWrappers.
Import Js Comp Validation.

Section WithJoi.

Variable joi : JoiLib.
Variable now : string.

(** [export const validateParams = (schema) => validate({ params: schema })] *)
Definition validateParams (schema : ObjectSchema) : M Ctx unit :=
  validate joi now {| body := None; params := Some schema; query := None; headers := None |}.

(** [export const validateQuery = (schema) => validate({ query: schema })] *)
Definition validateQuery (schema : ObjectSchema) : M Ctx unit :=
  validate joi now {| body := None; params := None; query := Some schema; headers := None |}.

End WithJoi.

End ValidationWrappers.

(** ** Further sample collaborators *)

Module DemoMore.
Import Js Comp.

(** *** A store that cannot be reached *)

Definition connection_closed : Thrown := ErrorObj "ConnectionError" "Connection is closed".

Definition down_env : AuthService.Collaborators (list AuthService.User) :=
  {| AuthService.db_run := fun c users => (Throw connection_closed, users);
     AuthService.jwt_verify := AuthService.jwt_verify Demo.auth_env;
     AuthService.jwt_sign := AuthService.jwt_sign Demo.auth_env;
     AuthService.bcrypt_hash := AuthService.bcrypt_hash Demo.auth_env;
     AuthService.bcrypt_compare := AuthService.bcrypt_compare Demo.auth_env;
     AuthService.authConfig := AuthService.authConfig Demo.auth_env |}.

Definition down_product_env : ProductService.Collaborators (list ProductService.Product) :=
  {| ProductService.db_run := fun c table => (Throw connection_closed, table);
     ProductService.toISOString := ProductService.toISOString Demo.product_env |}.

(** *** The auth service on [dbConnection] *)

(** A pool that is connected. *)
Definition pool : M (list AuthService.User) unit := fun users => (Return tt, users).

(** [CreateUser] raises the error of database/schema.sql on a taken username
    or email. *)
Definition unique_driver (c : AuthService.DbCall) (users : list AuthService.User)
  : Completion (AuthService.DatabaseResult AuthService.User) * list AuthService.User :=
  match c with
  | AuthService.CreateUser u e _ =>
      if existsb (fun x => String.eqb (AuthService.username x) u
                           || String.eqb (AuthService.email x) e) users
      then (Throw (ErrorObj "RequestError" "Username or email already exists"), users)
      else Demo.users_run c users
  | _ => Demo.users_run c users
  end.

Definition wired_env : AuthService.Collaborators (list AuthService.User) :=
  {| AuthService.db_run := DatabaseConnection.auth_db_run pool unique_driver;
     AuthService.jwt_verify := AuthService.jwt_verify Demo.auth_env;
     AuthService.jwt_sign := AuthService.jwt_sign Demo.auth_env;
     AuthService.bcrypt_hash := AuthService.bcrypt_hash Demo.auth_env;
     AuthService.bcrypt_compare := AuthService.bcrypt_compare Demo.auth_env;
     AuthService.authConfig := AuthService.authConfig Demo.auth_env |}.

(** [{ username: "johndoe", email: "john@example.com", password: "SecurePass123!" }] *)
Definition john_signup : AuthService.CreateUserDto :=
  {| AuthService.dto_username := "johndoe";
     AuthService.dto_email := "john@example.com";
     AuthService.dto_password := "SecurePass123!" |}.

(** *** The raw queries over the table of products *)

Definition sum_prices (table : list ProductService.Product) : Q :=
  fold_right (fun p acc => (ProductService.price p + acc)%Q) 0%Q table.

Definition totals_row (table : list ProductService.Product) : ProductQueries.StatsRow :=
  {| ProductQueries.s_totalProducts := Z.of_nat (length table);
     ProductQueries.s_averagePrice :=
       match table with
       | [] => None
       | _ => Some (Qred (sum_prices table / inject_Z (Z.of_nat (length table))))
       end |}.

(** The [CASE] of the histogram query. *)
Definition price_range (price : Q) : string :=
  if ProductService.Qltb price 50 then "Under $50"
  else if ProductService.Qltb price 100 then "$50 - $99"
  else if ProductService.Qltb price 500 then "$100 - $499"
  else if ProductService.Qltb price 1000 then "$500 - $999"
  else "Over $1000".

Definition range_rows (table : list ProductService.Product) : list ProductQueries.RangeRow :=
  List.filter (fun r => 0 <? ProductQueries.count r)
    (List.map (fun label =>
                 {| ProductQueries.range := label;
                    ProductQueries.count :=
                      Z.of_nat (length (List.filter
                                          (fun p => String.eqb (price_range (ProductService.price p))
                                                               label) table)) |})
              ["Under $50"; "$50 - $99"; "$100 - $499"; "$500 - $999"; "Over $1000"]).

Definition queries_env : ProductQueries.Collaborators (list ProductService.Product) :=
  {| ProductQueries.run_create := fun input table =>
       let row := {| ProductService.id := Z.of_nat (length table) + 1;
                     ProductService.name := ProductQueries.in_Name input;
                     ProductService.description := ProductQueries.in_Description input;
                     ProductService.price := ProductQueries.in_Price input;
                     ProductService.category := ProductQueries.in_Category input;
                     ProductService.createdAt := 0;
                     ProductService.updatedAt := 0 |} in
       (Return (Some [row]), (table ++ [row])%list);
     ProductQueries.run_categories := fun table =>
       (Return (Some (List.map ProductService.category table)), table);
     ProductQueries.run_totals := fun table => (Return (Some [totals_row table]), table);
     ProductQueries.run_category_stats := fun table => (Return (Some []), table);
     ProductQueries.run_price_ranges := fun table => (Return (Some (range_rows table)), table);
     ProductQueries.run_search := fun inputs table =>
       (Return (Some (List.filter
                        (fun p => String.eqb (ProductService.name p)
                                             (ProductQueries.p_exactTerm inputs)) table)),
        table) |}.

Definition queries_world (table : list ProductService.Product)
  : ProductQueries.World (list ProductService.Product) :=
  {| ProductQueries.db_state := table; ProductQueries.db_calls := [] |}.

(** *** The requests of failed logins *)

Definition login_request : ErrorMiddleware.Env :=
  {| ErrorMiddleware.originalUrl := "/api/auth/login";
     ErrorMiddleware.req_method := "POST";
     ErrorMiddleware.now := "2023-08-29T10:00:00.000Z";
     ErrorMiddleware.NODE_ENV := Some "production";
     ErrorMiddleware.thrown_stack := Some "Error: Invalid credentials at AuthService.login:89";
     ErrorMiddleware.raised_stack := None |}.

(** The same request on a development server, failing at the other [throw]. *)
Definition login_request_dev : ErrorMiddleware.Env :=
  {| ErrorMiddleware.originalUrl := "/api/auth/login";
     ErrorMiddleware.req_method := "POST";
     ErrorMiddleware.now := "2023-08-29T10:00:00.000Z";
     ErrorMiddleware.NODE_ENV := Some "development";
     ErrorMiddleware.thrown_stack := Some "Error: Invalid credentials at AuthService.login:101";
     ErrorMiddleware.raised_stack := None |}.

(** The [SyntaxError] that [express.json()] hands on for a malformed body. *)
Definition malformed_json : ErrorMiddleware.ApiError :=
  {| ErrorMiddleware.err_name := Some "SyntaxError";
     ErrorMiddleware.err_message := Some "Unexpected token } in JSON at position 1";
     ErrorMiddleware.err_statusCode := Some 400;
     ErrorMiddleware.err_code := None;
     ErrorMiddleware.err_stack := Some "SyntaxError: Unexpected token } in JSON at position 1";
     ErrorMiddleware.err_errors := None |}.

(** *** Validation *)

(** The double of a decimal literal of a request. *)
Definition number (q : Q) : Validation.JVal :=
  Validation.number_value (Validation.to_double q).

(** [{ name: " Laptop ", price: 149.999, category: "Electronics", admin: true }] *)
Definition padded_product : gmap string Validation.JVal :=
  <["name" := Validation.VString (Validation.lit " Laptop ")]>
  (<["price" := number (149999 # 1000)]>
  (<["category" := Validation.VString (Validation.lit "Electronics")]>
  (<["admin" := Validation.VBool true]> ∅))).

(** 200 times the letter e with an acute accent, U+00E9: 200 code units. *)
Definition accented_name : Validation.JsString := repeat 233%N 200.

(** [{ name: <accented_name>, price: 1.005, category: "Books" }] *)
Definition accented_product : gmap string Validation.JVal :=
  <["name" := Validation.VString accented_name]>
  (<["price" := number (1005 # 1000)]>
  (<["category" := Validation.VString (Validation.lit "Books")]> ∅)).

(** [{ name: <no-break space>, price: 10, category: <300 letters> }] *)
Definition blank_product : gmap string Validation.JVal :=
  <["name" := Validation.VString [160%N]]>
  (<["price" := Validation.VNumber (10 # 1)]>
  (<["category" := Validation.VString (repeat 97%N 300)]> ∅)).

(** [{ id: 7 }] *)
Definition seven : gmap string Validation.JVal :=
  <["id" := Validation.VNumber (7 # 1)]> ∅.

End DemoMore.

(** * Properties *)

Ltac conjs := repeat match goal with |- _ /\ _ => split end.

(** ** Strings *)

Module JsFacts.
Import Js.

Lemma split_not_nil (sep : ascii) (s : string) : split sep s <> [].
Proof.
  destruct s as [|c s]; simpl; [discriminate|].
  destruct (Ascii.eqb c sep); [discriminate|].
  destruct (split sep s); discriminate.
Qed.

Lemma split_parts_free (sep : ascii) (s : string) :
  Forall (fun w => free_of sep w = true) (split sep s).
Proof.
  induction s as [|c s IH]; simpl.
  - repeat constructor.
  - destruct (Ascii.eqb c sep) eqn:Hc.
    + constructor; [reflexivity | exact IH].
    + destruct (split sep s) as [|w ws].
      * repeat constructor. simpl. now rewrite Hc.
      * inversion IH; subst. constructor; [|assumption].
        simpl. rewrite Hc. assumption.
Qed.

Lemma join_split (sep : ascii) (s : string) : join sep (split sep s) = s.
Proof.
  induction s as [|c s IH]; simpl; [reflexivity|].
  destruct (Ascii.eqb c sep) eqn:Hc.
  - apply Ascii.eqb_eq in Hc. subst c.
    pose proof (split_not_nil sep s) as Hne.
    destruct (split sep s) as [|w ws]; [congruence|].
    simpl in *. now rewrite IH.
  - pose proof (split_not_nil sep s) as Hne.
    destruct (split sep s) as [|w ws]; [congruence|].
    destruct ws as [|w' ws]; simpl in *; now rewrite <- IH.
Qed.

Lemma split_free (sep : ascii) (s : string) :
  free_of sep s = true -> split sep s = [s].
Proof.
  induction s as [|c s IH]; simpl; [reflexivity|].
  intros H. apply andb_prop in H as [Hc Hs].
  apply negb_true_iff in Hc. rewrite Hc, (IH Hs). reflexivity.
Qed.

Lemma split_app (sep : ascii) (a b : string) :
  free_of sep a = true -> split sep (a ++ String sep b) = a :: split sep b.
Proof.
  induction a as [|c a IH]; simpl.
  - intros _. now rewrite Ascii.eqb_refl.
  - intros H. apply andb_prop in H as [Hc Ha].
    apply negb_true_iff in Hc. rewrite Hc, (IH Ha). reflexivity.
Qed.

Lemma split_bearer (t : string) :
  split space ("Bearer " ++ t) = "Bearer" :: split space t.
Proof. exact (split_app space "Bearer" t eq_refl). Qed.

Lemma split_two (h a b : string) :
  split space h = [a; b] ->
  h = a ++ String space b /\ free_of space b = true.
Proof.
  intros H. split.
  - rewrite <- (join_split space h), H. reflexivity.
  - pose proof (split_parts_free space h) as F. rewrite H in F.
    inversion F as [|? ? _ F']; subst. now inversion F'.
Qed.

End JsFacts.

(** ** The authentication gate *)

Module AuthGate.
Import Js Comp AuthService AuthMiddleware JsFacts.

Ltac run :=
  unfold authenticate, optionalAuthenticate, try_catch, mbind, M_bind, bind, mret, M_ret,
         ret, lift, in_service, zoom, res_status_json, set_req_user, next, modify, throw.

Section Gate.

Context {DbState : Type}.
Variable env : Collaborators DbState.

(** [getUserById] never throws: its catch block returns [null]. *)
Lemma getUserById_returns (i : Z) (w : World DbState) :
  exists (u : option User) (w' : World DbState), getUserById env i w = (Return u, w').
Proof.
  unfold getUserById, try_catch, mbind, M_bind, bind, mret, M_ret, ret.
  destruct (execute env (SelectUserById i) w) as [[r|e] w'].
  - destruct (recordset r) as [[|u l]|]; eauto.
  - eauto.
Qed.

(** What the header test of both middlewares computes. *)
Lemma header_test (h : string) :
  (exists t, h = "Bearer " ++ t /\ free_of space t = true /\ split space h = ["Bearer"; t])
  \/ (Nat.eqb (length (split space h)) 2
      && bool_decide (split space h !! 0%nat = Some "Bearer") = false).
Proof.
  destruct (split space h) as [|a [|b [|x l]]] eqn:Hs; simpl; auto.
  destruct (bool_decide (Some a = Some "Bearer")) eqn:Ha; auto.
  apply bool_decide_eq_true in Ha. injection Ha as ->.
  apply split_two in Hs as [-> Hb]. left. exists b. auto.
Qed.

Lemma header_test_bearer (t : string) :
  free_of space t = true -> split space ("Bearer " ++ t) = ["Bearer"; t].
Proof. intros H. now rewrite split_bearer, (split_free _ _ H). Qed.

(** C1. In required mode the gate ends in exactly one of two ways: the
    request is authenticated and handed to the handler, or one 401 response
    is written and the handler is not invoked. A missing header, a header not
    of the shape [Bearer <token>], an empty token, a token that fails
    verification and a verified token whose user is gone are each answered
    with a 401, and the message for a missing header differs from the one for
    a malformed header. *)
Theorem authenticate_rejects_unauthenticated (hdr : option string) (c : Ctx DbState) :
  let c' := snd (authenticate env hdr c) in
  fst (authenticate env hdr c) = Return tt
  /\ (authenticated env hdr c c' \/ exists err msg, rejected_401 c c' err msg)
  /\ (hdr = None ->
      rejected_401 c c' "Authorization header missing" "Access token is required")
  /\ (forall h, hdr = Some h -> h <> EmptyString -> ~ bearer_shape h ->
      rejected_401 c c' "Invalid authorization format"
                   "Authorization header must be in format: Bearer <token>")
  /\ (hdr = Some "Bearer " ->
      rejected_401 c c' "Invalid token" "Token cannot be empty")
  /\ (forall t e, hdr = Some ("Bearer " ++ t) -> free_of space t = true -> t <> EmptyString ->
      verifyToken env t = Throw e ->
      rejected_401 c c' "Authentication failed" (failure_message e))
  /\ (forall t decoded, hdr = Some ("Bearer " ++ t) -> free_of space t = true -> t <> EmptyString ->
      verifyToken env t = Return decoded ->
      fst (getUserById env (userId decoded) (world c)) = Return None ->
      rejected_401 c c' "User not found"
                   "The user associated with this token no longer exists")
  /\ "Authorization header missing" <> "Invalid authorization format"
  /\ "Access token is required" <> "Authorization header must be in format: Bearer <token>".
Proof.
  assert (Hrej : forall err msg,
             rejected_401 c
               {| req_user := req_user c;
                  sent := sent c ++ [{| status := 401;
                                        body := {| error := err; message := msg |} |}];
                  next_calls := next_calls c;
                  world := world c |} err msg)
    by (intros; repeat split).
  destruct hdr as [h1|].
  2:{ (* no header *)
    run; simpl. conjs; try discriminate; eauto. }
  destruct h1 as [|a h'].
  { (* the empty header is falsy *)
    run; simpl. conjs; try discriminate; eauto.
    intros h E N. injection E as <-. congruence. }
  remember (String a h') as hd eqn:Hhd.
  assert (Ht : truthy_opt (Some hd) = true) by (subst hd; reflexivity).
  clear Hhd.
  destruct (header_test hd) as [(t & Eh & Ft & Hs)|Hbad].
  - (* Bearer <token> *)
    assert (Hsplit : forall t', Some hd = Some ("Bearer " ++ t') -> t' = t).
    { intros t' E. injection E as E. rewrite Eh in E.
      injection E as E. symmetry. exact E. }
    assert (Hshape : forall h0, Some hd = Some h0 -> ~ bearer_shape h0 -> False).
    { intros h0 E N. injection E as <-. apply N. exists t. auto. }
    destruct t as [|b t0].
    + (* empty token *)
      run. rewrite Ht. change (default EmptyString (Some hd)) with hd. rewrite Hs. simpl.
      conjs; try discriminate; eauto.
      * intros h0 E _ N. exfalso. eauto.
      * intros t' e E _ N. apply Hsplit in E. congruence.
      * intros t' d E _ N. apply Hsplit in E. congruence.
    + remember (String b t0) as t eqn:Htok.
      assert (Hne : Some hd <> Some "Bearer ").
      { intros E. apply (Hsplit EmptyString) in E. congruence. }
      assert (Htne : t <> EmptyString) by congruence.
      assert (Htt : truthy t = true) by (subst t; reflexivity).
      clear Htok.
      run. rewrite Ht. change (default EmptyString (Some hd)) with hd. rewrite Hs.
      change ([ "Bearer"; t ] !! 1%nat) with (Some t).
      change (truthy_opt (Some t)) with (truthy t). rewrite Htt.
      change (default EmptyString (Some t)) with t. simpl.
      destruct (verifyToken env t) as [decoded|e] eqn:Hv.
      * (* verified: is the user still there? *)
        destruct (getUserById_returns (userId decoded) (world c)) as (u & w' & Hg).
        rewrite Hg. destruct u as [u|]; simpl.
        -- conjs; try discriminate; try congruence.
           ++ left. exists t, decoded, u. rewrite Hg. rewrite Eh.
              repeat split; auto.
           ++ intros h0 E _ N. exfalso. eauto.
           ++ intros t' e E _ _ Hv'. apply Hsplit in E. subst t'. congruence.
           ++ intros t' d E _ _ Hv' Hg'. apply Hsplit in E. subst t'.
              assert (d = decoded) by congruence. subst d.
              rewrite Hg in Hg'. discriminate.
        -- conjs; try discriminate; try congruence.
           ++ right. do 2 eexists. repeat split.
           ++ intros h0 E _ N. exfalso. eauto.
           ++ intros t' e E _ _ Hv'. apply Hsplit in E. subst t'. congruence.
           ++ intros. repeat split.
      * (* verification failed: the catch block answers *)
        simpl. conjs; try discriminate; try congruence.
        -- right. do 2 eexists. repeat split.
        -- intros h0 E _ N. exfalso. eauto.
        -- intros t' e' E _ _ Hv'. apply Hsplit in E. subst t'.
           assert (e' = e) by congruence. subst e'. repeat split.
        -- intros t' d E _ _ Hv'. apply Hsplit in E. subst t'. congruence.
  - (* any other shape *)
    assert (Hcond : negb (Nat.eqb (length (split space hd)) 2)
                    || negb (bool_decide (split space hd !! 0%nat = Some "Bearer")) = true).
    { rewrite <- negb_andb, Hbad. reflexivity. }
    assert (Hno : forall t', Some hd = Some ("Bearer " ++ t') -> free_of space t' = true -> False).
    { intros t' E F. injection E as E. rewrite E, (header_test_bearer _ F) in Hbad.
      discriminate. }
    run. rewrite Ht. change (default EmptyString (Some hd)) with hd. rewrite Hcond. simpl.
    conjs; try discriminate; eauto.
    + intros E. exfalso. apply (Hno EmptyString E eq_refl).
    + intros t e E F. exfalso. eauto.
    + intros t d E F. exfalso. eauto.
Qed.

(** C7. In optional mode the gate never rejects: whatever the header, nothing
    is written on [res] and [next()] runs exactly once. Without a header the
    request is left as it was, and a token that fails verification (expired,
    invalid or otherwise) leaves it as it was too: the failure is swallowed
    and the request proceeds unauthenticated. An identity is attached only
    for a token that verifies. *)
Theorem optionalAuthenticate_never_rejects (hdr : option string) (c : Ctx DbState) :
  let c' := snd (optionalAuthenticate env hdr c) in
  fst (optionalAuthenticate env hdr c) = Return tt
  /\ sent c' = sent c
  /\ next_calls c' = S (next_calls c)
  /\ world c' = world c
  /\ (hdr = None -> req_user c' = req_user c)
  /\ (forall t e, hdr = Some ("Bearer " ++ t) -> verifyToken env t = Throw e ->
      req_user c' = req_user c)
  /\ (req_user c' = req_user c
      \/ exists t decoded, hdr = Some ("Bearer " ++ t)
                           /\ verifyToken env t = Return decoded
                           /\ req_user c' = Some decoded).
Proof.
  destruct hdr as [h1|].
  2:{ run; simpl. conjs; auto; discriminate. }
  destruct (truthy_opt (Some h1)) eqn:Ht.
  2:{ run. rewrite Ht. simpl. conjs; auto. }
  destruct (header_test h1) as [(t & Eh & Ft & Hs)|Hbad].
  - assert (Hsplit : forall t', Some h1 = Some ("Bearer " ++ t') -> t' = t).
    { intros t' E. injection E as E. rewrite Eh in E.
      injection E as E. symmetry. exact E. }
    run. rewrite Ht. change (default EmptyString (Some h1)) with h1. rewrite Hs.
    change ([ "Bearer"; t ] !! 1%nat) with (Some t).
    change (default EmptyString (Some t)) with t.
    destruct (truthy_opt (Some t)) eqn:Htt; simpl.
    + destruct (verifyToken env t) as [decoded|e] eqn:Hv; simpl.
      * conjs; auto; try discriminate.
        -- intros t' e E Hv'. apply Hsplit in E. subst t'. congruence.
        -- right. exists t, decoded. rewrite Eh. auto.
      * conjs; auto.
    + conjs; auto.
  - run. rewrite Ht. change (default EmptyString (Some h1)) with h1. rewrite Hbad. simpl.
    conjs; auto.
Qed.

(** C6. [verifyToken] keeps the two failure kinds of [jwt.verify] apart: a
    [TokenExpiredError] becomes the error 'Token expired' and not 'Invalid
    token'; a [JsonWebTokenError] becomes 'Invalid token'. The two messages
    differ, and so do the messages the gate shows to the user for them. *)
Theorem verifyToken_failure_kinds (token : string) (e : Thrown) :
  jwt_verify env token (jwtSecret (authConfig env)) = Throw e ->
  instanceof_Error e = true ->
  (error_name e = "TokenExpiredError" ->
   verifyToken env token = Throw (new_Error "Token expired")
   /\ verifyToken env token <> Throw (new_Error "Invalid token"))
  /\ (error_name e = "JsonWebTokenError" ->
      verifyToken env token = Throw (new_Error "Invalid token")
      /\ verifyToken env token <> Throw (new_Error "Token expired"))
  /\ new_Error "Token expired" <> new_Error "Invalid token"
  /\ failure_message (new_Error "Token expired") = "Token has expired"
  /\ failure_message (new_Error "Invalid token") = "Invalid token provided"
  /\ "Token has expired" <> "Invalid token provided".
Proof.
  intros Hj He. unfold verifyToken. rewrite Hj, He.
  conjs; try discriminate; try reflexivity.
  - intros ->. simpl. split; [reflexivity | discriminate].
  - intros ->. simpl. split; [reflexivity | discriminate].
Qed.

End Gate.
End AuthGate.

(** ** The credential service *)

Module AuthServiceFacts.
Import Js Comp AuthService.

Lemma user_literal_dom (u : User) :
  dom (user_literal u)
  = ({["id"; "username"; "email"; "createdAt"; "updatedAt"]} : gset string).
Proof. unfold user_literal. rewrite !dom_insert_L, dom_empty_L. set_solver. Qed.

Lemma user_literal_no_hash (u : User) : user_literal u !! "passwordHash" = None.
Proof. unfold user_literal. rewrite !lookup_insert_ne by discriminate. apply lookup_empty. Qed.

Section Service.

Context {DbState : Type}.
Variable env : Collaborators DbState.

(** A successful [register] answers with the literal built from a row. *)
Lemma register_returns (userData : CreateUserDto) (w w' : World DbState) (resp : AuthResponse) :
  register env userData w = (Return resp, w') ->
  exists u : User, user resp = user_literal u.
Proof.
  unfold register, try_catch, mbind, M_bind, bind, mret, M_ret, ret, lift, throw.
  destruct (bcrypt_hash env _ _) as [h|e]; simpl.
  - destruct (execute env _ w) as [[result|e] w1]; simpl.
    + destruct (recordset result) as [[|u l]|]; simpl; try discriminate.
      destruct (generateToken env _ _ _) as [tok|e]; simpl.
      * intros E. injection E as E _. subst resp. exists u. reflexivity.
      * destruct (instanceof_Error e); [destruct (includes _ _)|]; discriminate.
    + destruct (instanceof_Error e); [destruct (includes _ _)|]; discriminate.
  - destruct (instanceof_Error e); [destruct (includes _ _)|]; discriminate.
Qed.

(** A successful [login] answers with the literal built from a row. *)
Lemma login_returns (loginData : LoginDto) (w w' : World DbState) (resp : AuthResponse) :
  login env loginData w = (Return resp, w') ->
  exists u : User, user resp = user_literal u.
Proof.
  unfold login, try_catch, mbind, M_bind, bind, mret, M_ret, ret, lift, throw.
  destruct (execute env _ w) as [[result|e] w1]; simpl.
  - destruct (recordset result) as [[|u l]|]; simpl; try discriminate.
    destruct (truthy_opt (passwordHash u)); simpl; try discriminate.
    destruct (bcrypt_compare env _ _) as [[|]|e]; simpl; try discriminate.
    + destruct (generateToken env _ _ _) as [tok|e]; simpl.
      * intros E. injection E as E _. subst resp. exists u. reflexivity.
      * destruct (instanceof_Error e && _); discriminate.
    + destruct (instanceof_Error e && _); discriminate.
  - destruct (instanceof_Error e && _); discriminate.
Qed.

(** C9. The [user] object of the response of a successful [register], and of
    a successful [login], has the properties [id], [username], [email],
    [createdAt] and [updatedAt] and no other: it has no [passwordHash]. *)
Theorem auth_response_omits_password_hash (w w' : World DbState) (resp : AuthResponse) :
  (forall userData, register env userData w = (Return resp, w') ->
     user resp !! "passwordHash" = None
     /\ dom (user resp) = ({["id"; "username"; "email"; "createdAt"; "updatedAt"]} : gset string))
  /\ (forall loginData, login env loginData w = (Return resp, w') ->
     user resp !! "passwordHash" = None
     /\ dom (user resp) = ({["id"; "username"; "email"; "createdAt"; "updatedAt"]} : gset string)).
Proof.
  split.
  - intros d H. apply register_returns in H as [u ->].
    split; [apply user_literal_no_hash | apply user_literal_dom].
  - intros d H. apply login_returns in H as [u ->].
    split; [apply user_literal_no_hash | apply user_literal_dom].
Qed.

(** C10. A login for a username that has no row and a login for a username
    whose row fails the password comparison throw the same error, 'Invalid
    credentials': the outcome does not tell which of the two happened. *)
Theorem login_failures_indistinguishable
    (l1 l2 : LoginDto) (w1 w2 : World DbState)
    (r1 r2 : DatabaseResult User) (s1 s2 : DbState)
    (u : User) (rest : list User) (hash : string) :
  db_run env (GetUserByUsername (login_username l1)) (db_state w1) = (Return r1, s1) ->
  recordset r1 = None \/ recordset r1 = Some [] ->
  db_run env (GetUserByUsername (login_username l2)) (db_state w2) = (Return r2, s2) ->
  recordset r2 = Some (u :: rest) ->
  passwordHash u = Some hash ->
  hash <> EmptyString ->
  bcrypt_compare env (login_password l2) hash = Return false ->
  fst (login env l1 w1) = Throw (new_Error "Invalid credentials")
  /\ fst (login env l2 w2) = Throw (new_Error "Invalid credentials")
  /\ fst (login env l1 w1) = fst (login env l2 w2).
Proof.
  intros H1 E1 H2 E2 Hh Hne Hc.
  assert (A : fst (login env l1 w1) = Throw (new_Error "Invalid credentials")).
  { unfold login, try_catch, mbind, M_bind, bind, execute. rewrite H1.
    destruct E1 as [-> | ->]; reflexivity. }
  assert (B : fst (login env l2 w2) = Throw (new_Error "Invalid credentials")).
  { unfold login, try_catch, mbind, M_bind, bind, execute, lift. rewrite H2, E2, Hh.
    destruct hash; [congruence|]. simpl. rewrite Hc. reflexivity. }
  conjs; congruence.
Qed.

End Service.
End AuthServiceFacts.

(** ** The product query service *)

Module ProductFacts.
Import Js Comp ProductService.

Ltac run :=
  unfold getProducts, getProductById, updateProduct, deleteProduct, executeStoredProcedure,
         try_catch, mbind, M_bind, bind, mret, M_ret, ret, throw.

Lemma Qceiling_div (a b : Z) :
  0 < b -> Qceiling (inject_Z a / inject_Z b) = - (- a / b).
Proof.
  intros Hb. destruct b as [|p|p]; try lia.
  unfold Qceiling, Qfloor, Qdiv, Qmult, Qinv, Qopp, inject_Z. simpl.
  rewrite Z.mul_1_r. reflexivity.
Qed.

(** [Math.ceil(a / b)] is the least integer [n] with [a <= n * b]. *)
Lemma ceil_div_spec (a b : Z) :
  0 < b ->
  exists n, ceil_div a b = Finite n /\ (n - 1) * b < a <= n * b.
Proof.
  intros Hb. unfold ceil_div.
  destruct (Z.eqb_spec b 0) as [->|_]; [lia|].
  rewrite (Qceiling_div _ _ Hb). eexists. split; [reflexivity|].
  pose proof (Z.div_mod (- a) b ltac:(lia)) as E.
  pose proof (Z.mod_pos_bound (- a) b Hb) as B.
  nia.
Qed.

Lemma Qltb_false (a b : Q) : Qltb a b = false -> (b <= a)%Q.
Proof. unfold Qltb, Qle. intros H. apply Z.ltb_ge in H. exact H. Qed.

Lemma price_filter_bounds (lo hi : option Q) (row : Row) :
  price_filter lo hi row = true ->
  (forall l, lo = Some l -> (l <= price (product row))%Q)
  /\ (forall h, hi = Some h -> (price (product row) <= h)%Q).
Proof.
  unfold price_filter. intros H. split.
  - intros l ->. destruct (Qltb (price (product row)) l) eqn:E; [discriminate|].
    now apply Qltb_false.
  - intros h ->.
    destruct (match lo with Some l => Qltb (price (product row)) l | None => false end);
      [discriminate|].
    destruct (Qltb h (price (product row))) eqn:E; [discriminate|].
    now apply Qltb_false.
Qed.

Section Service.

Context {DbState : Type}.
Variable env : Collaborators DbState.

(** The existence read, spelled out. *)
Lemma getProductById_read (i : Z) (w : World DbState) :
  let '(r, s') := db_run env (GetProductById i) (db_state w) in
  let w' := {| db_state := s'; db_calls := db_calls w ++ [GetProductById i] |} in
  getProductById env i w =
    match r with
    | Return result =>
        match recordset result with
        | Some (first :: _) => (Return (Some (product first)), w')
        | _ => (Return None, w')
        end
    | Throw _ => (Throw (AppError "Failed to retrieve product" 500 "PRODUCT_FETCH_ERROR"), w')
    end.
Proof.
  run. destruct (db_run env (GetProductById i) (db_state w)) as [[result|e] s'].
  - destruct (recordset result) as [[|first l]|]; reflexivity.
  - reflexivity.
Qed.

Lemma getProductById_world (i : Z) (w : World DbState) :
  db_calls (snd (getProductById env i w)) = (db_calls w ++ [GetProductById i])%list
  /\ db_state (snd (getProductById env i w)) = snd (db_run env (GetProductById i) (db_state w)).
Proof.
  pose proof (getProductById_read i w) as H.
  destruct (db_run env (GetProductById i) (db_state w)) as [[result|e] s'].
  - rewrite H. destruct (recordset result) as [[|first l]|]; split; reflexivity.
  - rewrite H. split; reflexivity.
Qed.

(** C5. When the existence read finds no product, [updateProduct] and
    [deleteProduct] both fail with the 404 error [PRODUCT_NOT_FOUND], and the
    only call that reached the store is that read: no [UpdateProduct] and no
    [DeleteProduct] is issued, and the store is in the state the read left. *)
Theorem not_found_before_any_mutation
    (i : Z) (productData : UpdateProductDto) (w : World DbState) :
  fst (getProductById env i w) = Return None ->
  let w' := snd (getProductById env i w) in
  updateProduct env i productData w
    = (Throw (AppError "Product not found" 404 "PRODUCT_NOT_FOUND"), w')
  /\ deleteProduct env i w
    = (Throw (AppError "Product not found" 404 "PRODUCT_NOT_FOUND"), w')
  /\ db_calls w' = (db_calls w ++ [GetProductById i])%list
  /\ mutating (GetProductById i) = false
  /\ db_state w' = snd (db_run env (GetProductById i) (db_state w)).
Proof.
  intros H. destruct (getProductById_world i w) as [Hc Hs].
  destruct (getProductById env i w) as [r w1] eqn:E. simpl in *. subst r.
  conjs; auto.
  - unfold updateProduct, try_catch, mbind, M_bind, bind at 1. rewrite E. reflexivity.
  - unfold deleteProduct, try_catch, mbind, M_bind, bind at 1. rewrite E. reflexivity.
Qed.

(** C2. For an existing product, [updateProduct] issues the existence read
    and then one [UpdateProduct] call whose input is the merge: a field given
    in the partial body is sent as given, a field left out is sent with the
    value just read; a description left out keeps the value read, while an
    empty-string description is sent as null. The update runs on the store
    as the read left it. *)
Theorem updateProduct_merges
    (i : Z) (productData : UpdateProductDto) (w : World DbState) (existing : Product) :
  fst (getProductById env i w) = Return (Some existing) ->
  let w1 := snd (getProductById env i w) in
  let w2 := snd (updateProduct env i productData w) in
  exists input : UpdateProductInput,
    db_calls w2 = (db_calls w ++ [GetProductById i; UpdateProduct input])%list
    /\ db_state w2 = snd (db_run env (UpdateProduct input) (db_state w1))
    /\ Id input = i
    /\ (forall n, dto_name productData = Some n -> Name input = n)
    /\ (dto_name productData = None -> Name input = name existing)
    /\ (forall p, dto_price productData = Some p -> Price input = p)
    /\ (dto_price productData = None -> Price input = price existing)
    /\ (forall c, dto_category productData = Some c -> Category' input = c)
    /\ (dto_category productData = None -> Category' input = category existing)
    /\ (forall d, dto_description productData = Some d -> d <> EmptyString ->
        Description input = Some d)
    /\ (dto_description productData = Some EmptyString -> Description input = None)
    /\ (dto_description productData = None -> Description input = description existing).
Proof.
  intros H. destruct (getProductById_world i w) as [Hc Hs].
  exists (merge_update i productData existing).
  destruct (getProductById env i w) as [r w1] eqn:E. simpl in *. subst r.
  conjs.
  - unfold updateProduct, try_catch, mbind, M_bind, bind at 1. rewrite E.
    unfold bind, executeStoredProcedure.
    destruct (db_run env _ (db_state w1)) as [[result|e] s2]; simpl.
    + destruct (recordset result) as [[|u l]|]; simpl; rewrite Hc, <- app_assoc; reflexivity.
    + destruct (instanceof_AppError e); simpl; rewrite Hc, <- app_assoc; reflexivity.
  - unfold updateProduct, try_catch, mbind, M_bind, bind at 1. rewrite E.
    unfold bind, executeStoredProcedure.
    destruct (db_run env _ (db_state w1)) as [[result|e] s2]; simpl.
    + destruct (recordset result) as [[|u l]|]; reflexivity.
    + destruct (instanceof_AppError e); reflexivity.
  - reflexivity.
  - intros n Hn. simpl. now rewrite Hn.
  - intros Hn. simpl. now rewrite Hn.
  - intros p Hp. simpl. now rewrite Hp.
  - intros Hp. simpl. now rewrite Hp.
  - intros c Hc'. simpl. now rewrite Hc'.
  - intros Hc'. simpl. now rewrite Hc'.
  - intros d Hd Hne. simpl. rewrite Hd. destruct d; [congruence | reflexivity].
  - intros Hd. simpl. now rewrite Hd.
  - intros Hd. simpl. now rewrite Hd.
Qed.

(** [getProducts] once the store has answered. *)
Lemma getProducts_answered (q : ProductQuery) (w : World DbState)
    (result : DatabaseResult) (s' : DbState) :
  db_run env (GetProducts (products_input q)) (db_state w) = (Return result, s') ->
  exists resp : ProductListResponse,
    fst (getProducts env q w) = Return resp
    /\ currentPage (pagination resp) = default 1 (pageNumber q)
    /\ p_pageSize (pagination resp) = default 10 (pageSize q)
    /\ ((recordset result = None \/ recordset result = Some []) ->
        products resp = []
        /\ totalCount (pagination resp) = 0
        /\ totalPages (pagination resp) = Finite 0
        /\ hasNextPage (pagination resp) = false
        /\ hasPreviousPage (pagination resp) = false)
    /\ (forall first rest, recordset result = Some (first :: rest) ->
        products resp
          = List.map (format_product env)
              (if defined (minPrice q) || defined (maxPrice q)
               then List.filter (price_filter (minPrice q) (maxPrice q)) (first :: rest)
               else first :: rest)
        /\ totalCount (pagination resp) = or_zero (TotalCount first)
        /\ totalPages (pagination resp)
           = ceil_div (or_zero (TotalCount first)) (default 10 (pageSize q))
        /\ hasNextPage (pagination resp)
           = lt_number (default 1 (pageNumber q)) (totalPages (pagination resp))
        /\ hasPreviousPage (pagination resp) = (1 <? default 1 (pageNumber q))).
Proof.
  intros H. run. rewrite H. simpl.
  destruct (recordset result) as [[|first rest]|]; simpl;
    eexists; (split; [reflexivity|]); simpl; conjs; auto;
    try (intros [?|?]; discriminate); try (intros; discriminate).
  intros f r E. injection E as <- <-. conjs; reflexivity.
Qed.

(** C3, as the code has it. Whenever the store answers, [getProducts] returns
    and does not throw. For a non-empty result set the pagination object has
    [totalPages = ceil(totalCount / pageSize)] (the least [n] with
    [totalCount <= n * pageSize], for a positive page size),
    [hasNextPage = (currentPage < totalPages)] and
    [hasPreviousPage = (currentPage > 1)]. For an empty result set the
    products array is empty and [totalCount = 0], [totalPages = 0],
    [hasNextPage = false], [hasPreviousPage = false], whatever the page. *)
Theorem getProducts_pagination (q : ProductQuery) (w : World DbState)
    (result : DatabaseResult) (s' : DbState) :
  db_run env (GetProducts (products_input q)) (db_state w) = (Return result, s') ->
  exists resp : ProductListResponse,
    fst (getProducts env q w) = Return resp
    /\ currentPage (pagination resp) = default 1 (pageNumber q)
    /\ p_pageSize (pagination resp) = default 10 (pageSize q)
    /\ ((recordset result = None \/ recordset result = Some []) ->
        products resp = []
        /\ totalCount (pagination resp) = 0
        /\ totalPages (pagination resp) = Finite 0
        /\ hasNextPage (pagination resp) = false
        /\ hasPreviousPage (pagination resp) = false)
    /\ (forall first rest, recordset result = Some (first :: rest) ->
        totalCount (pagination resp) = or_zero (TotalCount first)
        /\ totalPages (pagination resp)
           = ceil_div (totalCount (pagination resp)) (p_pageSize (pagination resp))
        /\ (0 < p_pageSize (pagination resp) ->
            exists n, totalPages (pagination resp) = Finite n
                      /\ (n - 1) * p_pageSize (pagination resp)
                         < totalCount (pagination resp)
                         <= n * p_pageSize (pagination resp)
                      /\ hasNextPage (pagination resp) = (currentPage (pagination resp) <? n))
        /\ hasPreviousPage (pagination resp) = (1 <? currentPage (pagination resp))).
Proof.
  intros H. destruct (getProducts_answered q w result s' H)
    as (resp & Hr & Hp & Hsz & Hempty & Hrows).
  exists resp. conjs; auto.
  intros first rest E. destruct (Hrows first rest E) as (_ & Hc & Ht & Hn & Hv).
  conjs.
  - exact Hc.
  - now rewrite Ht, Hc, Hsz.
  - intros Hpos.
    destruct (ceil_div_spec (totalCount (pagination resp)) _ Hpos) as (n & En & Hb).
    exists n. conjs; try tauto.
    + now rewrite Ht, <- Hc, <- Hsz.
    + rewrite Hn, Ht, <- Hc, <- Hsz, En, Hp. reflexivity.
  - now rewrite Hv, Hp.
Qed.

(** C4. With a price bound in the query and a non-empty page from the store,
    the returned products are the rows of that page that pass the bounds, so
    every returned price is within them; [totalCount] and [totalPages] are
    those of the same query without bounds: they come from the total the
    store reports and do not follow the rows the filter removed. *)
Theorem getProducts_price_filter (q : ProductQuery) (w : World DbState)
    (result : DatabaseResult) (s' : DbState) (first : Row) (rest : list Row) :
  db_run env (GetProducts (products_input q)) (db_state w) = (Return result, s') ->
  recordset result = Some (first :: rest) ->
  minPrice q <> None \/ maxPrice q <> None ->
  exists resp : ProductListResponse,
    fst (getProducts env q w) = Return resp
    /\ products resp
       = List.map (format_product env)
           (List.filter (price_filter (minPrice q) (maxPrice q)) (first :: rest))
    /\ (forall p, In p (products resp) ->
        (forall lo, minPrice q = Some lo -> (lo <= r_price p)%Q)
        /\ (forall hi, maxPrice q = Some hi -> (r_price p <= hi)%Q))
    /\ totalCount (pagination resp) = or_zero (TotalCount first)
    /\ totalPages (pagination resp)
       = ceil_div (or_zero (TotalCount first)) (default 10 (pageSize q))
    /\ (forall lo hi resp0,
        fst (getProducts env
               {| pageNumber := pageNumber q; pageSize := pageSize q;
                  q_category := q_category q; searchTerm := searchTerm q;
                  sortBy := sortBy q; sortOrder := sortOrder q;
                  minPrice := lo; maxPrice := hi |} w) = Return resp0 ->
        pagination resp0 = pagination resp).
Proof.
  intros H E Hb. destruct (getProducts_answered q w result s' H)
    as (resp & Hr & Hp & Hsz & _ & Hrows).
  destruct (Hrows first rest E) as (Hprod & Hc & Ht & Hn & Hv).
  assert (Hdef : defined (minPrice q) || defined (maxPrice q) = true).
  { destruct (minPrice q), (maxPrice q); simpl; auto. destruct Hb; congruence. }
  rewrite Hdef in Hprod.
  exists resp. conjs; auto.
  - intros p Hin. rewrite Hprod in Hin. apply in_map_iff in Hin as (row & <- & Hrow).
    apply filter_In in Hrow as [_ Hpass]. simpl.
    now apply price_filter_bounds.
  - intros lo hi resp0 H0.
    set (q0 := {| pageNumber := pageNumber q; pageSize := pageSize q;
                  q_category := q_category q; searchTerm := searchTerm q;
                  sortBy := sortBy q; sortOrder := sortOrder q;
                  minPrice := lo; maxPrice := hi |}) in *.
    destruct (getProducts_answered q0 w result s' H)
      as (resp0' & Hr0 & Hp0 & Hsz0 & _ & Hrows0).
    assert (resp0' = resp0) by congruence. subst resp0'.
    destruct (Hrows0 first rest E) as (_ & Hc0 & Ht0 & Hn0 & Hv0).
    destruct (pagination resp0), (pagination resp). simpl in *. congruence.
Qed.

End Service.

(** C3, the claim as stated fails: on page 2 of a one-row table the store
    returns no rows, and the response has [hasPreviousPage = false] although
    [currentPage = 2 > 1]. *)
Lemma getProducts_empty_page_counterexample :
  exists resp w',
    getProducts Demo.product_env (Demo.page_query 2 10 None None)
                (Demo.product_world [Demo.laptop]) = (Return resp, w')
    /\ products resp = []
    /\ currentPage (pagination resp) = 2
    /\ hasPreviousPage (pagination resp) = false
    /\ hasPreviousPage (pagination resp) <> (1 <? currentPage (pagination resp)).
Proof. do 2 eexists. split; [reflexivity|]. simpl. repeat split. discriminate. Qed.

End ProductFacts.

(** ** The validation engine *)

Module ValidationFacts.
Import Js Comp Validation.

Lemma Qleb_true (a b : Q) : Qleb a b = true <-> (a <= b)%Q.
Proof. unfold Qleb, Qle. apply Z.leb_le. Qed.

Lemma Qleb_false (a b : Q) : Qleb a b = false <-> (b < a)%Q.
Proof. unfold Qleb, Qlt. apply Z.leb_gt. Qed.

Lemma is_integer_spec (q : Q) : is_integer q = true <-> exists z : Z, (q == inject_Z z)%Q.
Proof.
  unfold is_integer. rewrite Qleb_true. split.
  - intros H. exists (Qceiling q). apply Qle_antisym; [apply Qle_ceiling | exact H].
  - intros [z Hz]. rewrite Hz at 1. rewrite Qceiling_Z. rewrite Hz. apply Qle_refl.
Qed.

Lemma is_positive_spec (d : Double) : is_positive d = true <-> positive_number d.
Proof.
  destruct d as [q|[]]; cbn [is_positive positive_number].
  - rewrite negb_true_iff. apply Qleb_false.
  - split; discriminate.
  - split; reflexivity.
Qed.

Lemma at_most_spec (d : Double) (limit : Q) : at_most d limit = true <-> number_at_most d limit.
Proof. destruct d as [q|n]; cbn [at_most number_at_most]; [apply Qleb_true | reflexivity]. Qed.

Lemma at_least_spec (d : Double) (limit : Q) :
  at_least d limit = true <-> number_at_least d limit.
Proof.
  destruct d as [q|n]; cbn [at_least number_at_least]; [apply Qleb_true|].
  apply negb_true_iff.
Qed.

Lemma is_whole_spec (d : Double) : is_whole d = true <-> whole_number d.
Proof.
  destruct d as [q|n]; cbn [is_whole whole_number]; [apply is_integer_spec|].
  split; [discriminate | contradiction].
Qed.

Lemma has_min_zero_spec (rules : list StringRule) :
  has_min_zero rules = true <-> In (str_min 0) rules.
Proof.
  unfold has_min_zero. rewrite existsb_exists. split.
  - intros (r & Hr & Hz). destruct r as [[|n]|n]; try discriminate. exact Hr.
  - intros H. exists (str_min 0). auto.
Qed.

Lemma allowed_spec (s : JsString) (allow : list JsString) :
  allowed s allow = true <-> In s allow.
Proof.
  unfold allowed. rewrite existsb_exists. split.
  - intros (a & Ha & E). apply bool_decide_eq_true in E. now subst.
  - intros H. exists s. split; [exact H | now apply bool_decide_eq_true].
Qed.

Lemma trim_start_spec (s : JsString) :
  exists pre : JsString,
    s = (pre ++ trim_start s)%list
    /\ Forall (fun c => is_whitespace c = true) pre
    /\ (forall c rest, trim_start s = c :: rest -> is_whitespace c = false).
Proof.
  induction s as [|c s (pre & E & Hpre & Hhead)].
  - exists []. split; [reflexivity|]. split; [constructor | discriminate].
  - cbn [trim_start]. destruct (is_whitespace c) eqn:Hc.
    + exists (c :: pre). split; [cbn; congruence|]. split; [now constructor | exact Hhead].
    + exists []. split; [reflexivity|]. split; [constructor|]. now intros c' rest [= <- _].
Qed.

Lemma trim_end_spec (s : JsString) :
  exists post : JsString,
    s = (trim_end s ++ post)%list
    /\ Forall (fun c => is_whitespace c = true) post
    /\ (forall c init, trim_end s = (init ++ [c])%list -> is_whitespace c = false).
Proof.
  induction s as [|c s (post & E & Hpost & Hlast)].
  - exists []. split; [reflexivity|]. split; [constructor|].
    intros c init H. destruct init; discriminate H.
  - cbn [trim_end]. destruct (trim_end s) as [|d r] eqn:Et.
    + destruct (is_whitespace c) eqn:Hc.
      * exists (c :: post). split; [cbn; cbn in E; congruence|].
        split; [now constructor|]. intros c' init H. destruct init; discriminate H.
      * exists post. split; [cbn; cbn in E; congruence|]. split; [exact Hpost|].
        intros c' init H. destruct init as [|a [|b init]]; try discriminate H.
        now injection H as <-.
    + exists post. split; [cbn; cbn in E; congruence|]. split; [exact Hpost|].
      intros c' init H. destruct init as [|a init]; [discriminate H|].
      injection H as <- H. exact (Hlast _ _ H).
Qed.

Lemma trim_end_head (s : JsString) :
  (forall c rest, s = c :: rest -> is_whitespace c = false) ->
  forall c rest, trim_end s = c :: rest -> is_whitespace c = false.
Proof.
  destruct s as [|a s]; [discriminate|]. intros Ha c rest. cbn [trim_end].
  pose proof (Ha a s eq_refl) as Hw.
  destruct (trim_end s); [rewrite Hw|]; now intros [= <- _].
Qed.

(** [s.trim()] is [s] without the whitespace at its two ends. *)
Lemma trim_trimmed (s : JsString) : trimmed s (trim s).
Proof.
  unfold trim, trimmed.
  destruct (trim_start_spec s) as (pre & E1 & Hpre & Hhead).
  destruct (trim_end_spec (trim_start s)) as (post & E2 & Hpost & Hlast).
  exists pre, post. split; [congruence|]. split; [exact Hpre|]. split; [exact Hpost|].
  split; [now apply trim_end_head | exact Hlast].
Qed.

Section Engine.

Variable joi : JoiLib.
Variable now : string.

(** The messages of the rules of a string: one for each [min] above the
    length and each [max] below it. *)
Lemma string_rule_errors_spec (k : KeySchema) (s : JsString) (rules : list StringRule)
    (m : string) :
  In m (string_rule_errors joi k s rules)
  <-> (exists limit, In (str_min limit) rules /\ (length s < limit)%nat
                     /\ m = render joi k "string.min")
      \/ (exists limit, In (str_max limit) rules /\ (limit < length s)%nat
                        /\ m = render joi k "string.max").
Proof.
  unfold string_rule_errors. rewrite in_flat_map. split.
  - intros (r & Hr & Hm). destruct r as [limit|limit].
    + destruct (Nat.leb_spec limit (length s)); [destruct Hm|].
      destruct Hm as [<-|[]]. left. eauto.
    + destruct (Nat.leb_spec (length s) limit); [destruct Hm|].
      destruct Hm as [<-|[]]. right. eauto.
  - intros [(limit & Hr & Hl & ->)|(limit & Hr & Hl & ->)].
    + exists (str_min limit). split; [exact Hr|].
      destruct (Nat.leb_spec limit (length s)); [lia | now left].
    + exists (str_max limit). split; [exact Hr|].
      destruct (Nat.leb_spec (length s) limit); [lia | now left].
Qed.

(** The messages of the rules of a number, one for each rule it breaks. *)
Lemma number_rule_errors_spec (k : KeySchema) (d : Double) (rules : list NumberRule)
    (m : string) :
  In m (number_rule_errors joi k d rules)
  <-> (In num_positive rules /\ ~ positive_number d /\ m = render joi k "number.positive")
      \/ (exists limit, In (num_max limit) rules /\ ~ number_at_most d limit
                        /\ m = render joi k "number.max")
      \/ (exists limit, In (num_min limit) rules /\ ~ number_at_least d limit
                        /\ m = render joi k "number.min")
      \/ (In num_integer rules /\ ~ whole_number d /\ m = render joi k "number.integer").
Proof.
  unfold number_rule_errors. rewrite in_flat_map. split.
  - intros (r & Hr & Hm). destruct r as [|limit|limit|limit|].
    + destruct (is_positive d) eqn:E; [destruct Hm|]. destruct Hm as [<-|[]].
      left. split; [exact Hr|]. split; [|reflexivity].
      rewrite <- is_positive_spec, E. discriminate.
    + destruct Hm.
    + destruct (at_most d limit) eqn:E; [destruct Hm|]. destruct Hm as [<-|[]].
      right; left. exists limit. split; [exact Hr|]. split; [|reflexivity].
      rewrite <- at_most_spec, E. discriminate.
    + destruct (at_least d limit) eqn:E; [destruct Hm|]. destruct Hm as [<-|[]].
      right; right; left. exists limit. split; [exact Hr|]. split; [|reflexivity].
      rewrite <- at_least_spec, E. discriminate.
    + destruct (is_whole d) eqn:E; [destruct Hm|]. destruct Hm as [<-|[]].
      right; right; right. split; [exact Hr|]. split; [|reflexivity].
      rewrite <- is_whole_spec, E. discriminate.
  - intros [(Hr & Hn & ->)|[(limit & Hr & Hn & ->)|[(limit & Hr & Hn & ->)|(Hr & Hn & ->)]]].
    + exists num_positive. split; [exact Hr|].
      destruct (is_positive d) eqn:E; [|now left]. apply is_positive_spec in E. contradiction.
    + exists (num_max limit). split; [exact Hr|].
      destruct (at_most d limit) eqn:E; [|now left]. apply at_most_spec in E. contradiction.
    + exists (num_min limit). split; [exact Hr|].
      destruct (at_least d limit) eqn:E; [|now left]. apply at_least_spec in E. contradiction.
    + exists num_integer. split; [exact Hr|].
      destruct (is_whole d) eqn:E; [|now left]. apply is_whole_spec in E. contradiction.
Qed.

(** What [validate_key] reports for a number that a value is or spells. *)
Lemma validate_number_violations (k : KeySchema) (rules : list NumberRule) (v : JVal)
    (q : Q) (m : string) :
  type k = JoiNumber rules -> number_of joi v = Some q ->
  In m (fst (validate_number joi k rules q))
  <-> exists code, violates joi k v code /\ m = render joi k code.
Proof.
  intros T N. unfold validate_number. split.
  - destruct (unsafe q) eqn:U; cbn [fst].
    + intros [<-|[]]. exists "number.unsafe". split; [|reflexivity].
      eapply unsafe_number; eauto.
    + rewrite number_rule_errors_spec.
      intros [(Hr & Hn & ->)|[(limit & Hr & Hn & ->)|[(limit & Hr & Hn & ->)|(Hr & Hn & ->)]]].
      * exists "number.positive". split; [|reflexivity]. eapply not_positive; eauto.
      * exists "number.max". split; [|reflexivity]. eapply above_max; eauto.
      * exists "number.min". split; [|reflexivity]. eapply below_min; eauto.
      * exists "number.integer". split; [|reflexivity]. eapply not_whole; eauto.
  - intros (code & Hv & ->).
    destruct Hv as [ P | tr rs al v T' | tr rs al s T' | tr rs al s limit T'
                   | tr rs al s limit T' | rs v T' Hu Hq Hi Hs | rs n T' | rs s parsed T' Hp
                   | rs v q' T' N' U | rs v q' T' N' U Hr Hn | rs v q' limit T' N' U Hr Hn
                   | rs v q' limit T' N' U Hr Hn | rs v q' T' N' U Hr Hn ];
      try (rewrite T in T'; discriminate T');
      try discriminate N;
      try (rewrite T in T'; injection T' as <-; rewrite N in N'; injection N' as <-;
           rewrite U; cbn [fst]).
    + destruct v as [| |b|q1|n|s|l|o]; try congruence; try discriminate N.
      cbn [number_of] in N. rewrite (Hs s eq_refl) in N. discriminate N.
    + cbn [number_of] in N. rewrite Hp in N. discriminate N.
    + now left.
    + apply number_rule_errors_spec. left. auto.
    + apply number_rule_errors_spec. right; left. eauto.
    + apply number_rule_errors_spec. right; right; left. eauto.
    + apply number_rule_errors_spec. right; right; right. auto.
Qed.

(** [validate_key] reports exactly the violations: a message is among its
    messages if and only if it is the text of a violation of the key by the
    value. *)
Lemma validate_key_violations (k : KeySchema) (v : JVal) (m : string) :
  In m (fst (validate_key joi k v))
  <-> exists code, violates joi k v code /\ m = render joi k code.
Proof.
  destruct (type k) as [tr rules allow|rules] eqn:T.
  - (* a string schema *)
    split.
    + unfold validate_key. rewrite T.
      destruct v as [| |b|q|n|s|l|o]; cbn [fst];
        try (intros [<-|[]]; exists "string.base"; split; [|reflexivity];
             eapply not_a_string; [exact T | discriminate | discriminate]).
      * destruct (presence k) eqn:P; cbn [fst]; [|intros []].
        intros [<-|[]]. exists "any.required". split; [now constructor | reflexivity].
      * cbv zeta. destruct (allowed (converted_string tr s) allow) eqn:A; [intros []|].
        assert (Hna : ~ In (converted_string tr s) allow)
          by (rewrite <- allowed_spec, A; discriminate).
        destruct (converted_string tr s) as [|c t] eqn:E.
        -- destruct (has_min_zero rules) eqn:Z; cbn [fst].
           ++ apply has_min_zero_spec in Z. rewrite string_rule_errors_spec.
              intros [(limit & Hr & Hl & ->)|(limit & Hr & Hl & ->)].
              ** exists "string.min". split; [|reflexivity].
                 eapply too_short; rewrite ?E; eauto.
              ** exists "string.max". split; [|reflexivity].
                 eapply too_long; rewrite ?E; eauto.
           ++ intros [<-|[]]. exists "string.empty". split; [|reflexivity].
              eapply empty_string; eauto.
              rewrite <- has_min_zero_spec, Z. discriminate.
        -- cbn [fst]. rewrite string_rule_errors_spec.
           intros [(limit & Hr & Hl & ->)|(limit & Hr & Hl & ->)].
           ++ exists "string.min". split; [|reflexivity].
              eapply too_short; rewrite ?E; eauto; left; discriminate.
           ++ exists "string.max". split; [|reflexivity].
              eapply too_long; rewrite ?E; eauto; left; discriminate.
    + intros (code & Hv & ->). unfold validate_key. rewrite T.
      destruct Hv as [ P | tr' rs al v T' Hu Hs | tr' rs al s T' E Ha Hz
                     | tr' rs al s limit T' Ha Hne Hr Hl
                     | tr' rs al s limit T' Ha Hne Hr Hl | rs v T' Hu Hq Hi Hs | rs n T'
                     | rs s parsed T' Hp
                     | rs v q' T' N' U | rs v q' T' N' U Hr Hn | rs v q' limit T' N' U Hr Hn
                     | rs v q' limit T' N' U Hr Hn | rs v q' T' N' U Hr Hn ];
        try (rewrite T in T'; discriminate T');
        try (rewrite T in T'; injection T' as <- <- <-).
      * rewrite P. now left.
      * destruct v as [| |b|q|n|s|l|o]; try congruence; now left.
      * cbv zeta. rewrite E.
        destruct (allowed [] allow) eqn:A; [apply allowed_spec in A; contradiction|].
        destruct (has_min_zero rules) eqn:Z; [apply has_min_zero_spec in Z; contradiction|].
        now left.
      * cbv zeta.
        destruct (allowed (converted_string tr s) allow) eqn:A;
          [apply allowed_spec in A; contradiction|].
        assert (Hin : In (render joi k "string.min")
                         (string_rule_errors joi k (converted_string tr s) rules))
          by (apply string_rule_errors_spec; left; eauto).
        destruct (converted_string tr s) as [|c t] eqn:E; [|exact Hin].
        destruct Hne as [Hne|Hz]; [congruence|].
        apply has_min_zero_spec in Hz. rewrite Hz. exact Hin.
      * cbv zeta.
        destruct (allowed (converted_string tr s) allow) eqn:A;
          [apply allowed_spec in A; contradiction|].
        assert (Hin : In (render joi k "string.max")
                         (string_rule_errors joi k (converted_string tr s) rules))
          by (apply string_rule_errors_spec; right; eauto).
        destruct (converted_string tr s) as [|c t] eqn:E; [|exact Hin].
        destruct Hne as [Hne|Hz]; [congruence|].
        apply has_min_zero_spec in Hz. rewrite Hz. exact Hin.
  - (* a number schema *)
    destruct (number_of joi v) as [q|] eqn:N.
    + rewrite <- (validate_number_violations k rules v q m T N).
      unfold validate_key. rewrite T.
      destruct v as [| |b|q1|n|s|l|o]; try discriminate N.
      * injection N as ->. reflexivity.
      * cbn [number_of] in N. destruct (parse_number joi s); try discriminate N.
        injection N as ->. reflexivity.
    + split.
      * unfold validate_key. rewrite T.
        destruct v as [| |b|q|n|s|l|o]; try discriminate N; cbn [fst];
          try (intros [<-|[]]; exists "number.base"; split; [|reflexivity];
               eapply not_a_number; [exact T | discriminate | discriminate | discriminate
                                    | discriminate]).
        -- destruct (presence k) eqn:P; cbn [fst]; [|intros []].
           intros [<-|[]]. exists "any.required". split; [now constructor | reflexivity].
        -- intros [<-|[]]. exists "number.infinity". split; [|reflexivity].
           eapply infinite_number; eauto.
        -- cbn [number_of] in N. destruct (parse_number joi s) as [|parsed|q] eqn:Ps;
             try discriminate N; cbn [fst]; intros [<-|[]].
           ++ exists "number.base". split; [|reflexivity].
              eapply not_a_number; [exact T | discriminate | discriminate | discriminate|].
              intros s' [= <-]. exact Ps.
           ++ exists "number.unsafe". split; [|reflexivity].
              eapply misread_number; eauto.
      * intros (code & Hv & ->). unfold validate_key. rewrite T.
        destruct Hv as [ P | tr' rs al v T' Hu Hs | tr' rs al s T' E Ha Hz
                       | tr' rs al s limit T' Ha Hne Hr Hl
                       | tr' rs al s limit T' Ha Hne Hr Hl | rs v T' Hu Hq Hi Hs | rs n T'
                       | rs s parsed T' Hp
                       | rs v q' T' N' U | rs v q' T' N' U Hr Hn | rs v q' limit T' N' U Hr Hn
                       | rs v q' limit T' N' U Hr Hn | rs v q' T' N' U Hr Hn ];
          try (rewrite T in T'; discriminate T');
          try (rewrite N in N'; discriminate N').
        -- rewrite P. now left.
        -- destruct v as [| |b|q|n|s|l|o]; try congruence; try (now left).
           rewrite (Hs s eq_refl). now left.
        -- now left.
        -- rewrite Hp. now left.
Qed.

(** The messages of an object: those of the violations of its keys. *)
Lemma object_errors_violations (schema : ObjectSchema) (o : gmap string JVal) (m : string) :
  In m (object_errors joi schema o)
  <-> exists k code, In k schema /\ violates joi k (property o (key k)) code
                     /\ m = render joi k code.
Proof.
  unfold object_errors. rewrite in_flat_map. split.
  - intros (k & Hk & Hm). apply validate_key_violations in Hm as (code & Hv & ->). eauto.
  - intros (k & code & Hk & Hv & ->). exists k. split; [exact Hk|].
    apply validate_key_violations. eauto.
Qed.

(** One block of [validate]: the request keeps every surface but the one
    validated, which is replaced only when it is valid. *)
Lemma validate_surface_run (schema : option ObjectSchema)
    (read : Request -> JVal) (write : JVal -> Request -> Request)
    (errors : list string) (c : Ctx) :
  exists r' : Request,
    validate_surface joi schema read write errors c
    = (Return (errors ++ surface_errors joi schema (read (req c)))%list,
       {| req := r'; sent := sent c; next_calls := next_calls c |})
    /\ (r' = req c \/ exists v, r' = write v (req c)).
Proof.
  unfold validate_surface, surface_errors.
  destruct schema as [schema|].
  - unfold mbind, M_bind, bind, get, set_req, modify, mret, M_ret, ret.
    destruct (schema_validate joi schema (read (req c))) as [details value] eqn:E.
    destruct details as [|d ds]; simpl.
    + rewrite app_nil_r. eexists. split; [reflexivity|]. right. eauto.
    + exists (req c). split; [destruct c; reflexivity | auto].
  - exists (req c). unfold mret, M_ret, ret. rewrite app_nil_r.
    split; [destruct c; reflexivity | auto].
Qed.

Lemma validate_run (options : ValidationOptions) (c : Ctx) :
  let errors := (surface_errors joi (body options) (req_body (req c))
                 ++ surface_errors joi (params options) (req_params (req c))
                 ++ surface_errors joi (query options) (req_query (req c))
                 ++ surface_errors joi (headers options) (req_headers (req c)))%list in
  exists r' : Request,
    originalUrl r' = originalUrl (req c) /\ method r' = method (req c)
    /\ validate joi now options c
       = if (0 <? length errors)%nat
         then (Return tt,
               {| req := r';
                  sent := sent c ++ [validation_failed now (req c) errors];
                  next_calls := next_calls c |})
         else (Return tt,
               {| req := r'; sent := sent c; next_calls := S (next_calls c) |}).
Proof.
  intros errors. unfold validate.
  unfold mbind, M_bind. unfold bind at 1.
  destruct (validate_surface_run (body options) req_body write_body [] c)
    as (r1 & E1 & H1).
  cbn [req sent next_calls] in E1. rewrite E1. clear E1.
  unfold bind at 1.
  destruct (validate_surface_run (params options) req_params write_params
              ([] ++ surface_errors joi (body options) (req_body (req c)))
              {| req := r1; sent := sent c; next_calls := next_calls c |})
    as (r2 & E2 & H2).
  cbn [req sent next_calls] in E2. rewrite E2. clear E2.
  unfold bind at 1.
  destruct (validate_surface_run (query options) req_query write_query
              (([] ++ surface_errors joi (body options) (req_body (req c)))
               ++ surface_errors joi (params options) (req_params r1))
              {| req := r2; sent := sent c; next_calls := next_calls c |})
    as (r3 & E3 & H3).
  cbn [req sent next_calls] in E3. rewrite E3. clear E3.
  unfold bind at 1.
  destruct (validate_surface_run (headers options) req_headers write_headers
              ((([] ++ surface_errors joi (body options) (req_body (req c)))
                ++ surface_errors joi (params options) (req_params r1))
               ++ surface_errors joi (query options) (req_query r2))
              {| req := r3; sent := sent c; next_calls := next_calls c |})
    as (r4 & E4 & H4).
  cbn [req sent next_calls] in E4. rewrite E4. clear E4.
  cbn [req sent next_calls] in *.
  assert (Ep : req_params r1 = req_params (req c))
    by (destruct H1 as [->|[v ->]]; reflexivity).
  assert (Eq : req_query r2 = req_query (req c))
    by (destruct H1 as [->|[v ->]], H2 as [->|[v2 ->]]; reflexivity).
  assert (Eh : req_headers r3 = req_headers (req c))
    by (destruct H1 as [->|[v ->]], H2 as [->|[v2 ->]], H3 as [->|[v3 ->]]; reflexivity).
  assert (Eu : originalUrl r4 = originalUrl (req c) /\ method r4 = method (req c))
    by (destruct H1 as [->|[v ->]], H2 as [->|[v2 ->]], H3 as [->|[v3 ->]],
                 H4 as [->|[v4 ->]]; split; reflexivity).
  rewrite Ep, Eq, Eh. rewrite app_nil_l, <- !app_assoc. fold errors.
  exists r4. destruct Eu as [Eu Em]. conjs; auto.
  unfold bind, get, res_status_json, next, modify, validation_failed.
  destruct (0 <? length errors)%nat; cbn [req sent next_calls]; [rewrite Eu, Em|]; reflexivity.
Qed.

(** C8. [validate] gathers the messages of all four surfaces before it
    answers: with at least one message it writes a single 400 response whose
    [details] are the messages of body, params, query and headers, in that
    order, and does not run [next()]; with none it runs [next()] and writes
    nothing. Nothing is left out: whatever key of whatever surface breaks
    whatever rule (a missing required value, a value of the wrong type, an
    empty string, a string shorter than a [min] or longer than a [max], a
    number that is unsafe, not positive, above a [max], below a [min] or
    not an integer), the text of that violation is among the [details] of
    the one response; and the messages of a surface are the texts of its
    violations and nothing else. The rules of a string look at it after
    the conversion, which under [trim()] removes the whitespace at its two
    ends and is otherwise none. For the body
    [{ name: '', price: -10, category: "Electronics" }] the create-product
    schema gives the message for the empty name and the one for the
    non-positive price, and the request is rejected with one 400 response
    before the handler. *)
Theorem validate_collects_all_violations (options : ValidationOptions) (c : Ctx) :
  let surfaces := [ (body options, req_body (req c)); (params options, req_params (req c));
                    (query options, req_query (req c));
                    (headers options, req_headers (req c)) ] in
  let errors := (surface_errors joi (body options) (req_body (req c))
                 ++ surface_errors joi (params options) (req_params (req c))
                 ++ surface_errors joi (query options) (req_query (req c))
                 ++ surface_errors joi (headers options) (req_headers (req c)))%list in
  let c' := snd (validate joi now options c) in
  fst (validate joi now options c) = Return tt
  /\ (errors <> [] ->
      sent c' = (sent c ++ [validation_failed now (req c) errors])%list
      /\ next_calls c' = next_calls c)
  /\ (errors = [] -> sent c' = sent c /\ next_calls c' = S (next_calls c))
  /\ (forall surface schema o k code,
        In surface surfaces ->
        fst surface = Some schema -> snd surface = VObject o ->
        In k schema -> violates joi k (property o (key k)) code ->
        exists response : Response,
          sent c' = (sent c ++ [response])%list
          /\ status response = 400
          /\ In (render joi k code) (e_details (error response))
          /\ next_calls c' = next_calls c)
  /\ (forall schema o m,
        In m (surface_errors joi (Some schema) (VObject o))
        <-> exists k code, In k schema /\ violates joi k (property o (key k)) code
                           /\ m = render joi k code)
  /\ (forall s, trimmed s (converted_string true s) /\ converted_string false s = s)
  /\ fst (schema_validate joi createProductSchema Demo.bad_product)
     = ["Name cannot be empty"; "Price must be greater than 0"]
  /\ (let rejected := snd (validateBody joi now createProductSchema
                             (Demo.request_ctx Demo.bad_product (VObject ∅))) in
      sent rejected
      = [validation_failed now (req (Demo.request_ctx Demo.bad_product (VObject ∅)))
           ["Name cannot be empty"; "Price must be greater than 0"]]
      /\ next_calls rejected = 0%nat).
Proof.
  intros surfaces errors c'.
  destruct (validate_run options c) as (r' & _ & _ & E). fold errors in E.
  assert (Hrejected : errors <> [] ->
            sent c' = (sent c ++ [validation_failed now (req c) errors])%list
            /\ next_calls c' = next_calls c).
  { intros Hne. subst c'. rewrite E. destruct errors; [congruence|]. simpl. auto. }
  assert (Hsurface : forall schema o m,
            In m (surface_errors joi (Some schema) (VObject o))
            <-> exists k code, In k schema /\ violates joi k (property o (key k)) code
                               /\ m = render joi k code).
  { intros schema o m. cbn [surface_errors schema_validate fst].
    apply object_errors_violations. }
  conjs.
  - rewrite E. destruct (0 <? length errors)%nat; reflexivity.
  - exact Hrejected.
  - intros Hnil. subst c'. rewrite E, Hnil. simpl. auto.
  - intros surface schema o k code Hin Hs Ho Hk Hv.
    assert (Hm : In (render joi k code) (surface_errors joi (fst surface) (snd surface))).
    { rewrite Hs, Ho. apply Hsurface. eauto. }
    assert (He : In (render joi k code) errors).
    { unfold errors. rewrite !in_app_iff.
      destruct Hin as [<-|[<-|[<-|[<-|[]]]]]; cbn [fst snd] in Hm; auto. }
    assert (Hne : errors <> []) by (intros Hnil; rewrite Hnil in He; destruct He).
    destruct (Hrejected Hne) as [Hsent Hnext].
    exists (validation_failed now (req c) errors). conjs; auto.
  - exact Hsurface.
  - intros s. split; [apply trim_trimmed | reflexivity].
  - vm_compute. reflexivity.
  - vm_compute. auto.
Qed.

End Engine.
End ValidationFacts.

(** ** The theorems at concrete inputs *)

Module Instances.
Import Js Comp.

(** No header, and the header [Basic good], on a fresh request. *)
Lemma authenticate_rejects_unauthenticated_witness :
  AuthMiddleware.rejected_401
    (Demo.fresh [Demo.john])
    (snd (AuthMiddleware.authenticate Demo.auth_env None (Demo.fresh [Demo.john])))
    "Authorization header missing" "Access token is required"
  /\ AuthMiddleware.rejected_401
       (Demo.fresh [Demo.john])
       (snd (AuthMiddleware.authenticate Demo.auth_env (Some "Basic good")
                                         (Demo.fresh [Demo.john])))
       "Invalid authorization format"
       "Authorization header must be in format: Bearer <token>".
Proof.
  split.
  - destruct (AuthGate.authenticate_rejects_unauthenticated
                Demo.auth_env None (Demo.fresh [Demo.john]))
      as (_ & _ & H & _).
    exact (H eq_refl).
  - destruct (AuthGate.authenticate_rejects_unauthenticated
                Demo.auth_env (Some "Basic good") (Demo.fresh [Demo.john]))
      as (_ & _ & _ & H & _).
    apply (H "Basic good" eq_refl); [discriminate|].
    intros (t & E & _). discriminate E.
Defined.

(** The expired token ["old"]. *)
Lemma verifyToken_failure_kinds_witness :
  AuthService.verifyToken Demo.auth_env "old" = Throw (new_Error "Token expired").
Proof.
  destruct (AuthGate.verifyToken_failure_kinds
              Demo.auth_env "old" (ErrorObj "TokenExpiredError" "jwt expired")
              eq_refl eq_refl)
    as (H & _).
  exact (proj1 (H eq_refl)).
Defined.

(** The expired token ["old"] in optional mode. *)
Lemma optionalAuthenticate_never_rejects_witness :
  let c' := snd (AuthMiddleware.optionalAuthenticate Demo.auth_env (Some "Bearer old")
                                                     (Demo.fresh [Demo.john])) in
  AuthService.verifyToken Demo.auth_env "old" = Throw (new_Error "Token expired")
  /\ AuthMiddleware.sent c' = []
  /\ AuthMiddleware.next_calls c' = 1%nat
  /\ AuthMiddleware.req_user c' = None.
Proof.
  destruct (AuthGate.optionalAuthenticate_never_rejects
              Demo.auth_env (Some "Bearer old") (Demo.fresh [Demo.john]))
    as (_ & Hs & Hn & _ & _ & Hu & _).
  intros c'. split; [reflexivity|]. split; [exact Hs|]. split; [exact Hn|].
  exact (Hu "old" (new_Error "Token expired") eq_refl eq_refl).
Defined.

(** Registering a first user. *)
Lemma auth_response_omits_password_hash_witness :
  exists resp w',
    AuthService.register Demo.auth_env
      {| AuthService.dto_username := "johndoe";
         AuthService.dto_email := "john@example.com";
         AuthService.dto_password := "SecurePass123!" |}
      (Demo.auth_world []) = (Return resp, w')
    /\ AuthService.user resp !! "passwordHash" = None.
Proof.
  eexists. eexists. split; [reflexivity|].
  refine (proj1 (proj1 (AuthServiceFacts.auth_response_omits_password_hash
                          Demo.auth_env (Demo.auth_world []) _ _) _ eq_refl)).
Defined.

(** The unknown user ["nobody"], and ["johndoe"] with a wrong password. *)
Lemma login_failures_indistinguishable_witness :
  fst (AuthService.login Demo.auth_env
         {| AuthService.login_username := "nobody"; AuthService.login_password := "x" |}
         (Demo.auth_world [Demo.john]))
  = fst (AuthService.login Demo.auth_env
           {| AuthService.login_username := "johndoe"; AuthService.login_password := "x" |}
           (Demo.auth_world [Demo.john])).
Proof.
  refine (proj2 (proj2 (AuthServiceFacts.login_failures_indistinguishable
                          Demo.auth_env
                          {| AuthService.login_username := "nobody";
                             AuthService.login_password := "x" |}
                          {| AuthService.login_username := "johndoe";
                             AuthService.login_password := "x" |}
                          (Demo.auth_world [Demo.john]) (Demo.auth_world [Demo.john])
                          {| AuthService.recordset := Some [] |}
                          {| AuthService.recordset := Some [Demo.john] |}
                          [Demo.john] [Demo.john]
                          Demo.john [] "hash:SecurePass123!"
                          eq_refl (or_intror eq_refl) eq_refl eq_refl eq_refl _ eq_refl))).
  discriminate.
Defined.

(** [{ price: 149.99 }] on the laptop. *)
Lemma updateProduct_merges_witness :
  exists input : ProductService.UpdateProductInput,
    ProductService.db_calls
      (snd (ProductService.updateProduct Demo.product_env 1 Demo.price_update
              (Demo.product_world [Demo.mouse; Demo.laptop])))
    = [ProductService.GetProductById 1; ProductService.UpdateProduct input]
    /\ ProductService.Price input = 14999 # 100
    /\ ProductService.Name input = "Laptop"
    /\ ProductService.Description input = Some "A fast laptop"
    /\ ProductService.Category' input = "Electronics".
Proof.
  destruct (ProductFacts.updateProduct_merges
              Demo.product_env 1 Demo.price_update
              (Demo.product_world [Demo.mouse; Demo.laptop]) Demo.laptop eq_refl)
    as (input & Hc & _ & _ & _ & Hn & Hp & _ & _ & Hcat & _ & _ & Hd).
  exists input. split; [exact Hc|].
  split; [exact (Hp _ eq_refl)|].
  split; [exact (Hn eq_refl)|].
  split; [exact (Hd eq_refl) | exact (Hcat eq_refl)].
Defined.

(** Page 1 of size 1 over two products. *)
Lemma getProducts_pagination_witness :
  exists resp : ProductService.ProductListResponse,
    fst (ProductService.getProducts Demo.product_env (Demo.page_query 1 1 None None)
           (Demo.product_world [Demo.mouse; Demo.laptop])) = Return resp
    /\ ProductService.totalCount (ProductService.pagination resp) = 2
    /\ ProductService.totalPages (ProductService.pagination resp) = ProductService.Finite 2
    /\ ProductService.hasPreviousPage (ProductService.pagination resp) = false.
Proof.
  destruct (ProductFacts.getProducts_pagination
              Demo.product_env (Demo.page_query 1 1 None None)
              (Demo.product_world [Demo.mouse; Demo.laptop])
              {| ProductService.recordset := Some [Demo.as_row (Some 2) Demo.mouse] |}
              [Demo.mouse; Demo.laptop] eq_refl)
    as (resp & Hr & Hp & Hs & _ & Hrows).
  destruct (Hrows _ _ eq_refl) as (Hc & Ht & _ & Hv).
  exists resp. split; [exact Hr|]. split; [exact Hc|].
  split; [rewrite Ht, Hc, Hs; reflexivity | rewrite Hv, Hp; reflexivity].
Defined.

(** A lower bound of 50 over the mouse (19.99) and the laptop (999.99). *)
Lemma getProducts_price_filter_witness :
  exists resp : ProductService.ProductListResponse,
    fst (ProductService.getProducts Demo.product_env
           (Demo.page_query 1 10 (Some (50 # 1)) None)
           (Demo.product_world [Demo.mouse; Demo.laptop])) = Return resp
    /\ List.map ProductService.r_name (ProductService.products resp) = ["Laptop"]
    /\ ProductService.totalCount (ProductService.pagination resp) = 2.
Proof.
  assert (Hrun : ProductService.db_run Demo.product_env
                   (ProductService.GetProducts
                      (ProductService.products_input
                         (Demo.page_query 1 10 (Some (50 # 1)) None)))
                   (ProductService.db_state (Demo.product_world [Demo.mouse; Demo.laptop]))
                 = (Return {| ProductService.recordset :=
                                Some [Demo.as_row (Some 2) Demo.mouse;
                                      Demo.as_row (Some 2) Demo.laptop] |},
                    [Demo.mouse; Demo.laptop]))
    by (vm_compute; reflexivity).
  assert (Hb : ProductService.minPrice (Demo.page_query 1 10 (Some (50 # 1)) None) <> None
               \/ ProductService.maxPrice (Demo.page_query 1 10 (Some (50 # 1)) None) <> None)
    by (left; discriminate).
  pose proof (ProductFacts.getProducts_price_filter
                Demo.product_env (Demo.page_query 1 10 (Some (50 # 1)) None)
                (Demo.product_world [Demo.mouse; Demo.laptop])
                _ _ _ _ Hrun eq_refl Hb) as H.
  destruct H as (resp & Hr & Hp & _ & Hc & _).
  exists resp. split; [exact Hr|]. split; [rewrite Hp; reflexivity | exact Hc].
Defined.

(** Updating and deleting the id 999, which the table does not have. *)
Lemma not_found_before_any_mutation_witness :
  fst (ProductService.updateProduct Demo.product_env 999 Demo.price_update
         (Demo.product_world [Demo.laptop]))
  = Throw (AppError "Product not found" 404 "PRODUCT_NOT_FOUND")
  /\ fst (ProductService.deleteProduct Demo.product_env 999
            (Demo.product_world [Demo.laptop]))
     = Throw (AppError "Product not found" 404 "PRODUCT_NOT_FOUND").
Proof.
  destruct (ProductFacts.not_found_before_any_mutation
              Demo.product_env 999 Demo.price_update
              (Demo.product_world [Demo.laptop]) eq_refl)
    as (Hu & Hd & _).
  split; [rewrite Hu | rewrite Hd]; reflexivity.
Defined.

(** An invalid body together with an invalid path parameter. *)
Lemma validate_collects_all_violations_witness :
  Validation.sent
    (snd (Validation.validate Demo.joi "2023-08-29T10:00:00.000Z"
            {| Validation.body := Some Validation.createProductSchema;
               Validation.params := Some Validation.productIdSchema;
               Validation.query := None;
               Validation.headers := None |}
            (Demo.request_ctx Demo.bad_product Demo.bad_id)))
  = [Validation.validation_failed "2023-08-29T10:00:00.000Z"
       (Validation.req (Demo.request_ctx Demo.bad_product Demo.bad_id))
       ["Name cannot be empty"; "Price must be greater than 0";
        "Product ID must be a number"]].
Proof.
  destruct (ValidationFacts.validate_collects_all_violations
              Demo.joi "2023-08-29T10:00:00.000Z"
              {| Validation.body := Some Validation.createProductSchema;
                 Validation.params := Some Validation.productIdSchema;
                 Validation.query := None;
                 Validation.headers := None |}
              (Demo.request_ctx Demo.bad_product Demo.bad_id))
    as (_ & H & _).
  refine (proj1 (H _)). vm_compute. discriminate.
Defined.

End Instances.

(** * Further properties *)

(** ** The credential service, continued *)

Module AuthServiceMore.
Import Js Comp AuthService AuthServiceRefresh.

Ltac login_catch e0 :=
  destruct (instanceof_Error e0) eqn:?; simpl;
  [destruct (String.eqb_spec (error_message e0) "Invalid credentials"); simpl|];
  (split; [intros ? ? [= <- _]; auto | reflexivity]).

Section Service.

Context {DbState : Type}.
Variable env : Collaborators DbState.

(** The result of [getUserById], read off the answer of the store. *)
Lemma getUserById_answer (i : Z) (w : World DbState) :
  getUserById env i w
  = (Return match fst (db_run env (SelectUserById i) (db_state w)) with
            | Return result =>
                match recordset result with
                | Some (u :: _) => Some u
                | _ => None
                end
            | Throw _ => None
            end,
     {| db_state := snd (db_run env (SelectUserById i) (db_state w));
        db_calls := db_calls w ++ [SelectUserById i] |}).
Proof.
  unfold getUserById, try_catch, mbind, M_bind, bind, mret, M_ret, ret, execute.
  destruct (db_run env (SelectUserById i) (db_state w)) as [[result|e] s']; simpl.
  - destruct (recordset result) as [[|u l]|]; reflexivity.
  - reflexivity.
Qed.

(** [refreshToken] throws nothing but its own error. *)
Lemma refreshToken_thrown (currentToken : string) (w w' : World DbState) (e : Thrown) :
  refreshToken env currentToken w = (Throw e, w') -> e = new_Error "Token refresh failed".
Proof.
  unfold refreshToken, try_catch, throw.
  match goal with |- (match ?x with _ => _ end = _) -> _ => destruct x as [[resp|e0] w0] end;
    intros H; [discriminate | now injection H as <- _].
Qed.

(** X1. Whatever goes wrong in [refreshToken] (the token does not verify,
    its user is gone, signing fails), the caller sees the one error 'Token
    refresh failed'; and a token that does not verify costs no store call. *)
Theorem refreshToken_fails_uniformly (currentToken : string) (w : World DbState) :
  (forall e w', refreshToken env currentToken w = (Throw e, w') ->
                e = new_Error "Token refresh failed")
  /\ (forall e, verifyToken env currentToken = Throw e ->
                refreshToken env currentToken w = (Throw (new_Error "Token refresh failed"), w)).
Proof.
  split.
  - intros e w'. apply refreshToken_thrown.
  - intros e H. unfold refreshToken, try_catch, mbind, M_bind, bind, lift, throw.
    now rewrite H.
Qed.

(** X2. A successful [refreshToken] answers from the store's current row
    for the token's user id, not from the claims of the old token: the
    [user] object is built from that row (so it has no [passwordHash]) and
    the new token is signed for the row's id, username and email. *)
Theorem refreshToken_uses_current_row
    (currentToken : string) (w w' : World DbState) (resp : AuthResponse) :
  refreshToken env currentToken w = (Return resp, w') ->
  exists (decoded : JwtPayload) (u : User),
    verifyToken env currentToken = Return decoded
    /\ fst (getUserById env (userId decoded) w) = Return (Some u)
    /\ user resp = user_literal u
    /\ user resp !! "passwordHash" = None
    /\ generateToken env (id u) (username u) (email u) = Return (token resp)
    /\ db_calls w' = (db_calls w ++ [SelectUserById (userId decoded)])%list.
Proof.
  unfold refreshToken, try_catch, mbind, M_bind, bind, lift, throw, mret, M_ret, ret.
  destruct (verifyToken env currentToken) as [decoded|e] eqn:Hv; [|discriminate].
  rewrite getUserById_answer. cbn [fst snd].
  set (found := match fst (db_run env _ _) with Return _ => _ | Throw _ => None end).
  destruct found as [u|] eqn:Hu; [|discriminate].
  destruct (generateToken env (id u) (username u) (email u)) as [tok|e] eqn:Hg; [|discriminate].
  intros H. injection H as <- <-. exists decoded, u. cbn.
  conjs.
  - reflexivity.
  - rewrite getUserById_answer. cbn [fst]. f_equal. exact Hu.
  - reflexivity.
  - unfold user_literal. rewrite !lookup_insert_ne by discriminate. apply lookup_empty.
  - exact Hg.
  - reflexivity.
Qed.

(** X3. A failing [login] throws an [Error] whose message is 'Invalid
    credentials' or 'Login failed', whatever the cause (a store failure, a
    row without hash, a failing comparison or signing): no other text
    reaches the caller. Every login issues exactly one store call, the
    lookup by username. *)
Theorem login_error_surface (loginData : LoginDto) (w : World DbState) :
  (forall e w', login env loginData w = (Throw e, w') ->
                instanceof_Error e = true
                /\ (error_message e = "Invalid credentials" \/ e = new_Error "Login failed"))
  /\ db_calls (snd (login env loginData w))
     = (db_calls w ++ [GetUserByUsername (login_username loginData)])%list.
Proof.
  unfold login, try_catch, mbind, M_bind, bind, lift, mret, M_ret, ret, execute, throw.
  destruct (db_run env _ (db_state w)) as [[result|e0] s1]; cbn [fst snd].
  2:{ login_catch e0. }
  destruct (recordset result) as [[|u l]|]; simpl.
  1,3: split; [intros e w' H; injection H as <- _; auto | reflexivity].
  destruct (truthy_opt (passwordHash u)); simpl.
  2:{ split; [intros e w' H; injection H as <- _; auto | reflexivity]. }
  destruct (bcrypt_compare env _ _) as [[|]|e0]; simpl.
  - destruct (generateToken env _ _ _) as [tok|e0]; simpl.
    + split; [discriminate | reflexivity].
    + login_catch e0.
  - split; [intros e w' H; injection H as <- _; auto | reflexivity].
  - login_catch e0.
Qed.

(** X4. [register] hands the store the output of [bcrypt.hash], in a single
    [CreateUser] call with the username and email as given; when hashing
    fails nothing is sent to the store. *)
Theorem register_stores_the_hash (userData : CreateUserDto) (w : World DbState) :
  (forall h, bcrypt_hash env (dto_password userData) (saltRounds (authConfig env)) = Return h ->
     db_calls (snd (register env userData w))
     = (db_calls w ++ [CreateUser (dto_username userData) (dto_email userData) h])%list)
  /\ (forall e, bcrypt_hash env (dto_password userData) (saltRounds (authConfig env)) = Throw e ->
     snd (register env userData w) = w
     /\ exists e', fst (register env userData w) = Throw e').
Proof.
  assert (Hcatch : forall (e0 : Thrown) (w0 : World DbState),
             exists e', (if instanceof_Error e0
                         then if includes "already exists" (error_message e0)
                              then throw (new_Error "Username or email already exists")
                              else throw e0
                         else throw (new_Error "Registration failed")) w0
                        = (Throw e' : Completion AuthResponse, w0)).
  { intros e0 w0. unfold throw.
    destruct (instanceof_Error e0); [destruct (includes _ _)|]; eauto. }
  split.
  - intros h Hh. unfold register, try_catch, mbind, M_bind, bind, lift, mret, M_ret, ret, execute.
    rewrite Hh. destruct (db_run env _ (db_state w)) as [[result|e0] s1]; cbn [fst snd].
    + destruct (recordset result) as [[|u l]|]; simpl.
      * destruct (Hcatch (new_Error "Failed to create user")
                    {| db_state := s1;
                       db_calls := db_calls w ++ [CreateUser (dto_username userData)
                                                             (dto_email userData) h] |})
          as [e' He].
        simpl in He. unfold throw in *. simpl. reflexivity.
      * destruct (generateToken env _ _ _) as [tok|e0]; simpl; [reflexivity|].
        destruct (Hcatch e0 {| db_state := s1;
                               db_calls := db_calls w ++ [CreateUser (dto_username userData)
                                                                     (dto_email userData) h] |})
          as [e' He].
        now rewrite He.
      * reflexivity.
    + destruct (Hcatch e0 {| db_state := s1;
                             db_calls := db_calls w ++ [CreateUser (dto_username userData)
                                                                   (dto_email userData) h] |})
        as [e' He].
      now rewrite He.
  - intros e Hh. unfold register, try_catch, mbind, M_bind, bind, lift.
    rewrite Hh. destruct (Hcatch e w) as [e' He]. rewrite He. eauto.
Qed.

End Service.
End AuthServiceMore.

(** ** The credential service behind [dbConnection] *)

Module AuthServiceWired.
Import Js Comp AuthService.

(** [str.includes(sub)] survives a prefix put before [str]. *)
Lemma includes_after_prefix (sub str prefix : string) :
  includes sub str = true -> includes sub (prefix ++ str) = true.
Proof.
  unfold includes. intros H. induction prefix as [|c p IH]; [exact H|].
  change (String c p ++ str) with (String c (p ++ str)). cbn [String.index].
  destruct (String.prefix sub (String c (p ++ str))); [reflexivity|].
  destruct (String.index 0 sub (p ++ str)); [reflexivity | discriminate].
Qed.

Section Wired.

Context {Db : Type}.
Variable env : Collaborators Db.
Variable getPool : M Db unit.
Variable driver : DbCall -> M Db (DatabaseResult User).
Hypothesis wired : db_run env = DatabaseConnection.auth_db_run getPool driver.

(** X5. When the [CreateUser] procedure fails, [register] reports 'Username
    or email already exists' if the driver's message mentions 'already
    exists' (the text survives the wrapping by [executeStoredProcedure]);
    any other driver message is thrown on to the caller inside the text
    'Stored procedure execution failed: ...'. *)
Theorem register_reports_duplicates
    (userData : CreateUserDto) (w : World Db) (h : string) (cause : Thrown) (s0 s1 : Db) :
  bcrypt_hash env (dto_password userData) (saltRounds (authConfig env)) = Return h ->
  getPool (db_state w) = (Return tt, s0) ->
  driver (CreateUser (dto_username userData) (dto_email userData) h) s0 = (Throw cause, s1) ->
  instanceof_Error cause = true ->
  (includes "already exists" (error_message cause) = true ->
   fst (register env userData w) = Throw (new_Error "Username or email already exists"))
  /\ (includes "already exists"
               ("Stored procedure execution failed: " ++ error_message cause) = false ->
      fst (register env userData w)
      = Throw (new_Error ("Stored procedure execution failed: " ++ error_message cause))).
Proof.
  intros Hh Hp Hd Hi.
  assert (E : db_run env (CreateUser (dto_username userData) (dto_email userData) h) (db_state w)
              = (Throw (new_Error ("Stored procedure execution failed: " ++ error_message cause)),
                 s1)).
  { rewrite wired. unfold DatabaseConnection.auth_db_run, DatabaseConnection.executeStoredProcedure,
      try_catch, mbind, M_bind, bind, throw, DatabaseConnection.cause_text.
    now rewrite Hp, Hd, Hi. }
  split; intros Hinc;
    unfold register, try_catch, mbind, M_bind, bind, lift, execute, throw;
    rewrite Hh, E; cbn [fst snd instanceof_Error new_Error error_message].
  - now rewrite (includes_after_prefix _ _ "Stored procedure execution failed: " Hinc).
  - now rewrite Hinc.
Qed.

End Wired.
End AuthServiceWired.

(** ** The authentication gate, continued *)

Module AuthGateMore.
Import Js Comp AuthService AuthMiddleware Authorize JsFacts AuthGate AuthServiceMore.

Ltac run :=
  unfold authenticate, optionalAuthenticate, authorize, try_catch, mbind, M_bind, bind,
         mret, M_ret, ret, lift, in_service, zoom, res_status_json, set_req_user, next,
         modify, get, throw.

Section Gate.

Context {DbState : Type}.
Variable env : Collaborators DbState.

(** [authenticate] on a header [Bearer <token>] whose token verifies. *)
Lemma authenticate_verified (t : string) (decoded : JwtPayload) (c : Ctx DbState) :
  free_of space t = true -> t <> EmptyString ->
  verifyToken env t = Return decoded ->
  authenticate env (Some ("Bearer " ++ t)) c
  = let w' := snd (getUserById env (userId decoded) (world c)) in
    match fst (getUserById env (userId decoded) (world c)) with
    | Return (Some _) =>
        (Return tt, {| req_user := Some decoded; sent := sent c;
                       next_calls := S (next_calls c); world := w' |})
    | _ =>
        (Return tt,
         {| req_user := req_user c;
            sent := sent c ++ [{| status := 401;
                                  body := {| error := "User not found";
                                             message := "The user associated with this token no longer exists" |} |}];
            next_calls := next_calls c; world := w' |})
    end.
Proof.
  intros Hf Hne Hv. destruct t as [|a t']; [congruence|].
  remember (String a t') as t eqn:Ht.
  assert (Htt : truthy t = true) by (subst t; reflexivity).
  run. change (truthy_opt (Some ("Bearer " ++ t))) with true.
  change (default EmptyString (Some ("Bearer " ++ t))) with ("Bearer " ++ t).
  rewrite (header_test_bearer t Hf).
  change ([ "Bearer"; t ] !! 1%nat) with (Some t).
  change (truthy_opt (Some t)) with (truthy t). rewrite Htt.
  change (default EmptyString (Some t)) with t. simpl. rewrite Hv.
  rewrite getUserById_answer. cbn [fst snd].
  destruct (match fst (db_run env _ _) with Return _ => _ | Throw _ => None end);
    reflexivity.
Qed.

(** X6. When the store fails during the user lookup of [authenticate], the
    request is answered with the 401 'User not found' (the failure is taken
    for a missing user) and the handler is not invoked. *)
Theorem authenticate_store_failure_is_401
    (t : string) (decoded : JwtPayload) (c : Ctx DbState) (e : Thrown) (s' : DbState) :
  free_of space t = true -> t <> EmptyString ->
  verifyToken env t = Return decoded ->
  db_run env (SelectUserById (userId decoded)) (db_state (world c)) = (Throw e, s') ->
  rejected_401 c (snd (authenticate env (Some ("Bearer " ++ t)) c))
               "User not found" "The user associated with this token no longer exists".
Proof.
  intros Hf Hne Hv Hdb. rewrite (authenticate_verified t decoded c Hf Hne Hv).
  rewrite getUserById_answer. cbn [fst snd]. rewrite Hdb. cbn. repeat split.
Qed.

(** X7. [authenticate] consults the store at most once, and only for a
    token that has verified: either the world of the auth service is
    untouched, or the single call is the lookup of the verified token's
    user id. *)
Theorem authenticate_store_access (hdr : option string) (c : Ctx DbState) :
  let c' := snd (authenticate env hdr c) in
  world c' = world c
  \/ exists t decoded,
       hdr = Some ("Bearer " ++ t)
       /\ verifyToken env t = Return decoded
       /\ db_calls (world c')
          = (db_calls (world c) ++ [SelectUserById (userId decoded)])%list.
Proof.
  destruct hdr as [h|]; [|left; reflexivity].
  destruct (truthy_opt (Some h)) eqn:Ht.
  2:{ left. run. rewrite Ht. reflexivity. }
  destruct (header_test h) as [(t & Eh & Ft & Hs)|Hbad].
  - subst h. destruct t as [|a t'].
    + left. run. rewrite Ht. change (default EmptyString (Some ("Bearer " ++ EmptyString)))
        with ("Bearer " ++ EmptyString). rewrite Hs. reflexivity.
    + destruct (verifyToken env (String a t')) as [decoded|e] eqn:Hv.
      * right. exists (String a t'), decoded. split; [reflexivity|]. split; [exact Hv|].
        rewrite (authenticate_verified _ decoded c Ft ltac:(discriminate) Hv).
        rewrite getUserById_answer. cbn [fst snd].
        destruct (match fst (db_run env _ _) with Return _ => _ | Throw _ => None end);
          reflexivity.
      * left. run. rewrite Ht.
        change (default EmptyString (Some ("Bearer " ++ String a t')))
          with ("Bearer " ++ String a t').
        rewrite Hs. simpl. rewrite Hv. reflexivity.
  - left. run. rewrite Ht. change (default EmptyString (Some h)) with h.
    assert (Hcond : negb (Nat.eqb (length (split space h)) 2)
                    || negb (bool_decide (split space h !! 0%nat = Some "Bearer")) = true).
    { rewrite <- negb_andb, Hbad. reflexivity. }
    rewrite Hcond. reflexivity.
Qed.

(** X8. Optional mode does not check that the token's user still exists:
    for a token that verifies it attaches the identity without any store
    call, also when required mode answers the same request with the 401
    'User not found'. *)
Theorem optionalAuthenticate_skips_user_check
    (t : string) (decoded : JwtPayload) (c : Ctx DbState) :
  free_of space t = true -> t <> EmptyString ->
  verifyToken env t = Return decoded ->
  let hdr := Some ("Bearer " ++ t) in
  let optional := snd (optionalAuthenticate env hdr c) in
  req_user optional = Some decoded
  /\ world optional = world c
  /\ next_calls optional = S (next_calls c)
  /\ (fst (getUserById env (userId decoded) (world c)) = Return None ->
      rejected_401 c (snd (authenticate env hdr c))
                   "User not found" "The user associated with this token no longer exists").
Proof.
  intros Hf Hne Hv hdr optional. subst optional hdr.
  destruct t as [|a t']; [congruence|].
  remember (String a t') as t eqn:Ht.
  assert (Htt : truthy t = true) by (subst t; reflexivity).
  split; [|split; [|split]].
  4:{ intros Hg. rewrite (authenticate_verified t decoded c Hf Hne Hv), Hg. repeat split. }
  all: run; change (truthy_opt (Some ("Bearer " ++ t))) with true;
    change (default EmptyString (Some ("Bearer " ++ t))) with ("Bearer " ++ t);
    rewrite (header_test_bearer t Hf);
    change ([ "Bearer"; t ] !! 1%nat) with (Some t);
    change (truthy_opt (Some t)) with (truthy t); rewrite Htt;
    change (default EmptyString (Some t)) with t; simpl; rewrite Hv; reflexivity.
Qed.

(** X9. [authorize(roles)] looks only at whether an identity is attached:
    without one it answers 401 'Authentication required' and does not call
    [next()]; with one it calls [next()] and writes nothing. The roles make
    no difference. *)
Theorem authorize_checks_presence_only (roles roles' : list string) (c : Ctx DbState) :
  authorize roles c = authorize roles' c
  /\ fst (authorize roles c) = Return tt
  /\ (req_user c = None ->
      rejected_401 c (snd (authorize roles c)) "Authentication required"
                   "You must be authenticated to access this resource")
  /\ (forall identity, req_user c = Some identity ->
      snd (authorize roles c)
      = {| req_user := Some identity; sent := sent c;
           next_calls := S (next_calls c); world := world c |}).
Proof.
  run. destruct (req_user c) as [u|] eqn:Hu; conjs.
  - reflexivity.
  - reflexivity.
  - discriminate.
  - intros identity [= <-]. cbn. now rewrite Hu.
  - reflexivity.
  - reflexivity.
  - intros _. repeat split.
  - discriminate.
Qed.

End Gate.
End AuthGateMore.

(** ** The product service, continued *)

Module ProductMore.
Import Js Comp ProductService ProductFacts.

Ltac run :=
  unfold getProducts, getProductById, updateProduct, deleteProduct, executeStoredProcedure,
         try_catch, mbind, M_bind, bind, mret, M_ret, ret, throw.

Section Service.

Context {DbState : Type}.
Variable env : Collaborators DbState.

(** [getProductById] throws nothing but its own error. *)
Lemma getProductById_thrown (i : Z) (w w' : World DbState) (e : Thrown) :
  getProductById env i w = (Throw e, w') ->
  e = AppError "Failed to retrieve product" 500 "PRODUCT_FETCH_ERROR".
Proof.
  unfold getProductById, try_catch, throw.
  match goal with |- (match ?x with _ => _ end = _) -> _ => destruct x as [[r|e0] w0] end;
    intros H; [discriminate | now injection H as <- _].
Qed.

(** X10. Whatever a stored-procedure method of the product service throws is
    an [AppError]: [getProducts] and [getProductById] throw only their own
    500 errors [PRODUCTS_FETCH_ERROR] and [PRODUCT_FETCH_ERROR], whatever
    the store threw, and [updateProduct] and [deleteProduct] throw nothing
    but [AppError]s. *)
Theorem product_service_throws_app_errors (w : World DbState) :
  (forall q e w', getProducts env q w = (Throw e, w') ->
     e = AppError "Failed to retrieve products" 500 "PRODUCTS_FETCH_ERROR")
  /\ (forall i e w', getProductById env i w = (Throw e, w') ->
     e = AppError "Failed to retrieve product" 500 "PRODUCT_FETCH_ERROR")
  /\ (forall i d e w', updateProduct env i d w = (Throw e, w') -> instanceof_AppError e = true)
  /\ (forall i e w', deleteProduct env i w = (Throw e, w') -> instanceof_AppError e = true).
Proof.
  conjs.
  - intros q e w'. unfold getProducts, try_catch, throw.
    match goal with |- (match ?x with _ => _ end = _) -> _ => destruct x as [[r|e0] w0] end;
      intros H; [discriminate | now injection H as <- _].
  - intros i e w'. apply getProductById_thrown.
  - intros i d e w'. unfold updateProduct, try_catch, throw.
    match goal with |- (match ?x with _ => _ end = _) -> _ => destruct x as [[r|e0] w0] end;
      [discriminate|].
    destruct (instanceof_AppError e0) eqn:Hi; intros H; injection H as <- _; auto.
  - intros i e w'. unfold deleteProduct, try_catch, throw.
    match goal with |- (match ?x with _ => _ end = _) -> _ => destruct x as [[r|e0] w0] end;
      [discriminate|].
    destruct (instanceof_AppError e0) eqn:Hi; intros H; injection H as <- _; auto.
Qed.

(** X11. When the existence read itself fails, [updateProduct] and
    [deleteProduct] fail with the read's 500 error [PRODUCT_FETCH_ERROR],
    not with an update or delete error, and no mutating call is issued. *)
Theorem failed_read_stops_mutation
    (i : Z) (productData : UpdateProductDto) (w : World DbState) (e : Thrown) (s' : DbState) :
  db_run env (GetProductById i) (db_state w) = (Throw e, s') ->
  let w' := {| db_state := s'; db_calls := db_calls w ++ [GetProductById i] |} in
  updateProduct env i productData w
    = (Throw (AppError "Failed to retrieve product" 500 "PRODUCT_FETCH_ERROR"), w')
  /\ deleteProduct env i w
    = (Throw (AppError "Failed to retrieve product" 500 "PRODUCT_FETCH_ERROR"), w').
Proof.
  intros H. pose proof (getProductById_read env i w) as R. rewrite H in R.
  split.
  - unfold updateProduct, try_catch, mbind, M_bind, bind at 1. rewrite R. reflexivity.
  - unfold deleteProduct, try_catch, mbind, M_bind, bind at 1. rewrite R. reflexivity.
Qed.

(** X12. After a successful existence read, what [updateProduct] returns is
    the first row the [UpdateProduct] procedure answers with; an answer
    without rows is the 500 error [PRODUCT_UPDATE_ERROR], and so is a
    failure of the call that is not an [AppError]. *)
Theorem updateProduct_outcome
    (i : Z) (productData : UpdateProductDto) (w : World DbState) (existing : Product) :
  fst (getProductById env i w) = Return (Some existing) ->
  let w1 := snd (getProductById env i w) in
  let answer := fst (db_run env (UpdateProduct (merge_update i productData existing))
                            (db_state w1)) in
  (forall result updated rest,
     answer = Return result -> recordset result = Some (updated :: rest) ->
     fst (updateProduct env i productData w) = Return (product updated))
  /\ (forall result,
     answer = Return result -> recordset result = None \/ recordset result = Some [] ->
     fst (updateProduct env i productData w)
     = Throw (AppError "Failed to update product" 500 "PRODUCT_UPDATE_ERROR"))
  /\ (forall e,
     answer = Throw e -> instanceof_AppError e = false ->
     fst (updateProduct env i productData w)
     = Throw (AppError "Failed to update product" 500 "PRODUCT_UPDATE_ERROR")).
Proof.
  intros H w1 answer. subst w1 answer.
  destruct (getProductById env i w) as [r w1] eqn:E. cbn [fst snd] in *. subst r.
  assert (U : forall X, updateProduct env i productData w = X <->
              try_catch
                (result ← executeStoredProcedure env
                            (UpdateProduct (merge_update i productData existing));
                 match recordset result with
                 | None | Some [] =>
                     throw (AppError "Failed to update product" 500 "PRODUCT_UPDATE_ERROR")
                 | Some (updatedProduct :: _) => mret (product updatedProduct)
                 end)
                (fun error =>
                   if instanceof_AppError error then throw error
                   else throw (AppError "Failed to update product" 500 "PRODUCT_UPDATE_ERROR"))
                w1 = X).
  { intros X. unfold updateProduct, try_catch, mbind, M_bind, bind at 1. rewrite E.
    reflexivity. }
  conjs.
  - intros result updated rest Ha Hr.
    erewrite (proj2 (U _) eq_refl). run.
    destruct (db_run env _ (db_state w1)) as [a s2]. cbn [fst] in Ha. subst a.
    cbn. rewrite Hr. reflexivity.
  - intros result Ha Hr.
    erewrite (proj2 (U _) eq_refl). run.
    destruct (db_run env _ (db_state w1)) as [a s2]. cbn [fst] in Ha. subst a.
    cbn. destruct Hr as [-> | ->]; reflexivity.
  - intros e Ha Hi.
    erewrite (proj2 (U _) eq_refl). run.
    destruct (db_run env _ (db_state w1)) as [a s2]. cbn [fst] in Ha. subst a.
    cbn. rewrite Hi. reflexivity.
Qed.

(** X13. After a successful existence read, [deleteProduct] issues the
    [DeleteProduct] call for the same id; it succeeds whatever that call
    answers with, and a failure of the call that is not an [AppError] is the
    500 error [PRODUCT_DELETE_ERROR]. *)
Theorem deleteProduct_outcome (i : Z) (w : World DbState) (existing : Product) :
  fst (getProductById env i w) = Return (Some existing) ->
  let w1 := snd (getProductById env i w) in
  let answer := fst (db_run env (DeleteProduct i) (db_state w1)) in
  db_calls (snd (deleteProduct env i w))
  = (db_calls w ++ [GetProductById i; DeleteProduct i])%list
  /\ (forall result, answer = Return result -> fst (deleteProduct env i w) = Return tt)
  /\ (forall e, answer = Throw e -> instanceof_AppError e = false ->
      fst (deleteProduct env i w)
      = Throw (AppError "Failed to delete product" 500 "PRODUCT_DELETE_ERROR")).
Proof.
  intros H w1 answer. subst w1 answer.
  destruct (getProductById_world env i w) as [Hc _].
  destruct (getProductById env i w) as [r w1] eqn:E. cbn [fst snd] in *. subst r.
  assert (D : deleteProduct env i w
              = try_catch
                  (executeStoredProcedure env (DeleteProduct i);;
                   mret tt)
                  (fun error =>
                     if instanceof_AppError error then throw error
                     else throw (AppError "Failed to delete product" 500
                                          "PRODUCT_DELETE_ERROR"))
                  w1).
  { unfold deleteProduct, try_catch, mbind, M_bind, bind at 1. rewrite E. reflexivity. }
  rewrite D. clear D. run.
  destruct (db_run env (DeleteProduct i) (db_state w1)) as [[result|e] s2]; cbn [fst snd].
  - conjs; [rewrite Hc, <- app_assoc; reflexivity | reflexivity | discriminate].
  - conjs.
    + destruct (instanceof_AppError e); cbn; rewrite Hc, <- app_assoc; reflexivity.
    + discriminate.
    + intros e' [= <-] Hi. now rewrite Hi.
Qed.

(** X14. [getProducts] does not look at [sortBy] and [sortOrder]: two
    queries that differ only there get the same store call and the same
    answer. *)
Theorem getProducts_ignores_sort (q : ProductQuery) (sb so : option string) (w : World DbState) :
  getProducts env
    {| pageNumber := pageNumber q; pageSize := pageSize q; q_category := q_category q;
       searchTerm := searchTerm q; sortBy := sb; sortOrder := so;
       minPrice := minPrice q; maxPrice := maxPrice q |} w
  = getProducts env q w.
Proof. reflexivity. Qed.

(** X15. On a non-empty result set the [filters] member of the response is
    present exactly when a criterion was supplied (a non-empty category or
    search term, or a price bound); on an empty result set it is absent. The
    products never outnumber the rows the store returned, and without a
    price bound there is one product per row. *)
Theorem getProducts_filters_and_size (q : ProductQuery) (w : World DbState)
    (result : DatabaseResult) (s' : DbState) (resp : ProductListResponse) (w' : World DbState) :
  db_run env (GetProducts (products_input q)) (db_state w) = (Return result, s') ->
  getProducts env q w = (Return resp, w') ->
  (forall rows, recordset result = Some rows -> rows <> [] ->
     (filters resp = None <->
      truthy_opt (q_category q) = false /\ truthy_opt (searchTerm q) = false
      /\ minPrice q = None /\ maxPrice q = None)
     /\ (length (products resp) <= length rows)%nat
     /\ (minPrice q = None -> maxPrice q = None ->
         length (products resp) = length rows))
  /\ (recordset result = None \/ recordset result = Some [] -> filters resp = None).
Proof.
  intros H. run. rewrite H. cbn [fst snd].
  destruct (recordset result) as [[|first rest]|]; cbn; intros E; injection E as <- _.
  - split; [intros rows [= <-] N; congruence | auto].
  - split; [|intros [?|?]; discriminate].
    intros rows [= <-] _. cbn [filters products].
    split; [|split].
    + destruct (truthy_opt (q_category q)), (truthy_opt (searchTerm q)),
        (minPrice q), (maxPrice q); cbn; split; try discriminate; try tauto;
        intros (? & ? & ? & ?); discriminate.
    + rewrite length_map.
      destruct (defined (minPrice q) || defined (maxPrice q)); [|reflexivity].
      exact (filter_length_le (price_filter (minPrice q) (maxPrice q)) (first :: rest)).
    + intros -> ->. cbn. now rewrite length_map.
  - split; [intros rows [=] | auto].
Qed.

End Service.
End ProductMore.

(** ** The product service: creation and the raw queries *)

Module ProductQueriesFacts.
Import Js Comp ProductService ProductQueries.

Ltac run :=
  unfold createProduct, getCategories, getStatistics, searchProducts, issue,
         defined_recordset, try_catch, mbind, M_bind, bind, mret, M_ret, ret, throw.

Lemma percentage_zero_total (total count : Z) :
  total <= 0 -> percentage_of total count = 0%Q.
Proof.
  intros H. unfold percentage_of. destruct (Z.ltb_spec 0 total); [lia | reflexivity].
Qed.

Lemma percentage_bounds (total count : Z) :
  0 < total -> 0 <= count <= total ->
  (0 <= percentage_of total count)%Q /\ (percentage_of total count <= 100)%Q.
Proof.
  intros Ht Hc. unfold percentage_of. destruct (Z.ltb_spec 0 total); [|lia].
  destruct total as [|p|p]; try lia.
  unfold Qle, Qdiv, Qmult, Qinv, inject_Z. cbn [Qnum Qden].
  rewrite !Z.mul_1_r, ?Z.mul_1_l. cbn [Qnum Qden]. split; [lia|].
  rewrite Pos2Z.inj_mul. change (Z.pos 1) with 1. nia.
Qed.

Section Service.

Context {DbState : Type}.
Variable env : Collaborators DbState.

(** X16. [createProduct] sends one [CreateProduct] call with the name, price
    and category as given and the description as null when it is absent or
    empty; it returns the first row of the answer, and an answer without
    rows, like a failure of the call that is not an [AppError], is the 500
    error [PRODUCT_CREATE_ERROR]. *)
Theorem createProduct_outcome (productData : CreateProductDto) (w : World DbState) :
  let input := {| in_Name := new_name productData;
                  in_Description := match new_description productData with
                                    | Some (String a d) => Some (String a d)
                                    | _ => None
                                    end;
                  in_Price := new_price productData;
                  in_Category := new_category productData |} in
  let answer := fst (run_create env input (ProductQueries.db_state w)) in
  ProductQueries.db_calls (snd (createProduct env productData w))
  = (ProductQueries.db_calls w ++ [CreateProduct input])%list
  /\ (forall created rest, answer = Return (Some (created :: rest)) ->
      fst (createProduct env productData w) = Return created)
  /\ (answer = Return None \/ answer = Return (Some []) ->
      fst (createProduct env productData w)
      = Throw (AppError "Failed to create product" 500 "PRODUCT_CREATE_ERROR"))
  /\ (forall e, answer = Throw e -> instanceof_AppError e = false ->
      fst (createProduct env productData w)
      = Throw (AppError "Failed to create product" 500 "PRODUCT_CREATE_ERROR")).
Proof.
  intros input answer.
  assert (Hin : {| in_Name := new_name productData;
                   in_Description := or_null (new_description productData);
                   in_Price := new_price productData;
                   in_Category := new_category productData |} = input).
  { subst input. f_equal. destruct (new_description productData) as [[|a d]|]; reflexivity. }
  subst answer. run. rewrite Hin.
  destruct (run_create env input (ProductQueries.db_state w)) as [[rs|e] s1]; cbn [fst snd].
  - destruct rs as [[|c0 r0]|]; cbn; conjs; try reflexivity.
    all: try (intros ? ? [=]; subst; reflexivity).
    all: try (intros [[=]|[=]]).
    all: try (intros ? [=]).
  - conjs.
    + destruct (instanceof_AppError e); reflexivity.
    + discriminate.
    + intros [[=]|[=]].
    + intros e' [= <-] Hi. now rewrite Hi.
Qed.

(** X17. [getStatistics] never divides by zero: when the totals query
    reports no products (a zero count, or no row at all) and the three
    queries succeed, the statistics are returned with [totalProducts = 0]
    and every price range at 0 percent, whatever counts the histogram rows
    carry. *)
Theorem getStatistics_empty_store (w : World DbState)
    (totals : list StatsRow) (cats : list CategoryRow) (ranges : list RangeRow)
    (s1 s2 s3 : DbState) :
  run_totals env (ProductQueries.db_state w) = (Return (Some totals), s1) ->
  run_category_stats env s1 = (Return (Some cats), s2) ->
  run_price_ranges env s2 = (Return (Some ranges), s3) ->
  or_zero (s_totalProducts <$> head totals) = 0 ->
  exists stats,
    fst (getStatistics env w) = Return stats
    /\ totalProducts stats = 0
    /\ List.map pr_range (priceRanges stats) = List.map range ranges
    /\ Forall (fun r => percentage r = 0%Q) (priceRanges stats).
Proof.
  intros H1 H2 H3 Hz. run. rewrite H1. cbn [ProductQueries.db_state ProductQueries.db_calls].
  rewrite H2. cbn [ProductQueries.db_state ProductQueries.db_calls].
  rewrite H3. cbn [ProductQueries.db_state ProductQueries.db_calls]. eexists. split; [reflexivity|]. cbn.
  split; [exact Hz|]. rewrite Hz. split.
  - now rewrite map_map.
  - apply Forall_map. apply Forall_forall. intros r _. reflexivity.
Qed.

(** X18. With a positive total, every price range whose count lies between
    0 and the total gets a percentage between 0 and 100, and the ranges come
    back in the order of the store's rows with their counts. *)
Theorem getStatistics_percentages (w : World DbState)
    (totals : list StatsRow) (cats : list CategoryRow) (ranges : list RangeRow)
    (s1 s2 s3 : DbState) (total : Z) :
  run_totals env (ProductQueries.db_state w) = (Return (Some totals), s1) ->
  run_category_stats env s1 = (Return (Some cats), s2) ->
  run_price_ranges env s2 = (Return (Some ranges), s3) ->
  s_totalProducts <$> head totals = Some total ->
  0 < total ->
  Forall (fun r => 0 <= count r <= total) ranges ->
  exists stats,
    fst (getStatistics env w) = Return stats
    /\ totalProducts stats = total
    /\ categories stats = cats
    /\ List.map (fun r => (pr_range r, pr_count r)) (priceRanges stats)
       = List.map (fun r => (range r, count r)) ranges
    /\ Forall (fun r => (0 <= percentage r)%Q /\ (percentage r <= 100)%Q) (priceRanges stats).
Proof.
  intros H1 H2 H3 Ht Hpos Hc. run. rewrite H1. cbn [ProductQueries.db_state ProductQueries.db_calls].
  rewrite H2. cbn [ProductQueries.db_state ProductQueries.db_calls].
  rewrite H3. cbn [ProductQueries.db_state ProductQueries.db_calls]. eexists. split; [reflexivity|]. cbn.
  assert (Hz : or_zero (s_totalProducts <$> head totals) = total).
  { rewrite Ht. unfold or_zero. destruct (Z.eqb_spec total 0); [lia | reflexivity]. }
  rewrite Hz. conjs; try reflexivity.
  - now rewrite map_map.
  - apply Forall_map. eapply Forall_impl; [exact Hc|].
    intros r Hr. cbn. now apply percentage_bounds.
Qed.

(** X19. [getStatistics] issues its three queries in a fixed order and
    stops at the first that fails; whatever fails, the caller sees the one
    500 error [STATISTICS_FETCH_ERROR]. [getCategories] likewise throws only
    [CATEGORIES_FETCH_ERROR] and [searchProducts] only
    [PRODUCT_SEARCH_ERROR]. *)
Theorem query_failures_are_typed (w : World DbState) :
  (forall e w', getStatistics env w = (Throw e, w') ->
     e = AppError "Failed to retrieve statistics" 500 "STATISTICS_FETCH_ERROR")
  /\ (forall e s1, run_totals env (ProductQueries.db_state w) = (Throw e, s1) ->
     ProductQueries.db_calls (snd (getStatistics env w))
     = (ProductQueries.db_calls w ++ [SelectTotals])%list)
  /\ (forall r e s1 s2, run_totals env (ProductQueries.db_state w) = (Return r, s1) ->
     run_category_stats env s1 = (Throw e, s2) ->
     ProductQueries.db_calls (snd (getStatistics env w))
     = (ProductQueries.db_calls w ++ [SelectTotals; SelectCategoryStats])%list)
  /\ (forall e w', getCategories env w = (Throw e, w') ->
     e = AppError "Failed to retrieve categories" 500 "CATEGORIES_FETCH_ERROR")
  /\ (forall term limit e w', searchProducts env term limit w = (Throw e, w') ->
     e = AppError "Failed to search products" 500 "PRODUCT_SEARCH_ERROR").
Proof.
  conjs.
  - intros e w'. unfold getStatistics, try_catch, throw.
    match goal with |- (match ?x with _ => _ end = _) -> _ => destruct x as [[r|e0] w0] end;
      intros H; [discriminate | now injection H as <- _].
  - intros e s1 H. run. rewrite H. reflexivity.
  - intros r e s1 s2 H1 H2. run. rewrite H1.
    cbn [ProductQueries.db_state ProductQueries.db_calls]. rewrite H2. cbn.
    now rewrite <- app_assoc.
  - intros e w'. unfold getCategories, try_catch, throw.
    match goal with |- (match ?x with _ => _ end = _) -> _ => destruct x as [[r|e0] w0] end;
      intros H; [discriminate | now injection H as <- _].
  - intros term limit e w'. unfold searchProducts, try_catch, throw.
    match goal with |- (match ?x with _ => _ end = _) -> _ => destruct x as [[r|e0] w0] end;
      intros H; [discriminate | now injection H as <- _].
Qed.

End Service.
End ProductQueriesFacts.

(** ** Error normalization and the controllers *)

Module PipelineFacts.
Import Js Comp ErrorMiddleware.

Section Handlers.

Variable env : Env.

(** X20. [errorHandler] answers every error with one envelope whose
    [statusCode] is the status of the response: the error's own
    [statusCode], or 500 when it has none, with the error's own [code] and
    [message]. So an [AppError] keeps its status, code and message, and an
    [Error] that carries only a name and a message, as the services throw
    it, is a 500 without a code. The stack is attached only when [NODE_ENV]
    is exactly 'development'. *)
Theorem errorHandler_envelope (e : ApiError) :
  exists envelope stack,
    body (errorHandler env e) = ErrorBody envelope stack
    /\ statusCode envelope = status (errorHandler env e)
    /\ status (errorHandler env e) = default 500 (err_statusCode e)
    /\ code envelope = err_code e
    /\ message envelope = err_message e
    /\ details envelope = None
    /\ (NODE_ENV env <> Some "development" -> stack = None)
    /\ (NODE_ENV env = Some "development" -> stack = err_stack e)
    /\ (forall st m s c, e = thrown_object st (AppError m s c) ->
        status (errorHandler env e) = s /\ code envelope = Some c /\ message envelope = Some m)
    /\ (forall st n m, e = thrown_object st (ErrorObj n m) ->
        status (errorHandler env e) = 500 /\ code envelope = None).
Proof.
  unfold errorHandler. cbn [body status]. do 2 eexists. split; [reflexivity|].
  cbn [statusCode details code message]. conjs; try reflexivity.
  - intros H. rewrite bool_decide_eq_false_2; auto.
  - intros H. rewrite bool_decide_eq_true_2; auto.
  - intros st m s c ->. auto.
  - intros st n m ->. auto.
Qed.

End Handlers.

Section ProductController.

Context {DbState : Type}.
Variable service : ProductService.Collaborators DbState.
Variable env : Env.
Variable parseInt : Validation.JVal -> Z.

(** X21. [ProductController.getProductById]: a falsy id is a 400
    [INVALID_PRODUCT_ID] without any store call; an id for which the store
    returns no row is a 404 [PRODUCT_NOT_FOUND]; a store failure is a 500
    [PRODUCT_FETCH_ERROR]; a row found is a 200. In every case exactly one
    response comes back and nothing is thrown. *)
Theorem getProductById_statuses (id : Validation.JVal) (w : ProductService.World DbState) :
  let r := fst (Controllers.getProductById service env parseInt id w) in
  let w' := snd (Controllers.getProductById service env parseInt id w) in
  let read := ProductService.getProductById service (parseInt id) w in
  (exists response, r = Return response)
  /\ (Controllers.js_truthy id = false ->
      w' = w
      /\ r = Return (errorHandler env
                       (thrown_object (thrown_stack env)
                          (AppError "Product ID is required" 400 "INVALID_PRODUCT_ID"))))
  /\ (Controllers.js_truthy id = true -> fst read = Return None ->
      r = Return (errorHandler env
                    (thrown_object (thrown_stack env)
                       (AppError "Product not found" 404 "PRODUCT_NOT_FOUND"))))
  /\ (forall e, Controllers.js_truthy id = true -> fst read = Throw e ->
      r = Return (errorHandler env
                    (thrown_object (thrown_stack env)
                       (AppError "Failed to retrieve product" 500 "PRODUCT_FETCH_ERROR"))))
  /\ (forall p, Controllers.js_truthy id = true -> fst read = Return (Some p) ->
      exists data, r = Return {| status := 200;
                                 body := SuccessBody "Product retrieved successfully"
                                                     data (now env) |}).
Proof.
  intros r w' read. subst r w' read.
  unfold Controllers.getProductById, asyncHandler, try_catch, mbind, M_bind, bind, mret,
    M_ret, ret, throw.
  destruct (Controllers.js_truthy id); cbn [negb].
  - destruct (ProductService.getProductById service (parseInt id) w) as [[[p|]|e] w1] eqn:E;
      cbn [fst snd].
    + conjs; eauto; try discriminate.
    + conjs; eauto; try discriminate.
    + pose proof (ProductMore.getProductById_thrown service _ _ _ _ E) as ->.
      conjs; eauto; try discriminate.
  - cbn. conjs; eauto; try discriminate.
Qed.

End ProductController.

Section AuthController.

Context {DbState : Type}.
Variable service : AuthService.Collaborators DbState.
Variable env : Env.

(** X22. A failed login is answered through [errorHandler] with status 500:
    for an unknown username as for a wrong password, [login] throws a plain
    [Error], which carries no status code, so each response is the 500
    envelope with the message 'Invalid credentials' and no code. The two
    errors are different objects: outside development no stack is sent, and
    in development each body carries the stack of its own error. *)
Theorem failed_login_is_answered_500
    (env1 env2 : Env)
    (l1 l2 : AuthService.LoginDto) (w1 w2 : AuthService.World DbState)
    (r1 r2 : AuthService.DatabaseResult AuthService.User) (s1 s2 : DbState)
    (u : AuthService.User) (rest : list AuthService.User) (hash : string) :
  AuthService.db_run service (AuthService.GetUserByUsername (AuthService.login_username l1))
                     (AuthService.db_state w1) = (Return r1, s1) ->
  AuthService.recordset r1 = None \/ AuthService.recordset r1 = Some [] ->
  AuthService.db_run service (AuthService.GetUserByUsername (AuthService.login_username l2))
                     (AuthService.db_state w2) = (Return r2, s2) ->
  AuthService.recordset r2 = Some (u :: rest) ->
  AuthService.passwordHash u = Some hash ->
  hash <> EmptyString ->
  AuthService.bcrypt_compare service (AuthService.login_password l2) hash = Return false ->
  let answer (env' : Env) :=
    errorHandler env' (thrown_object (thrown_stack env') (new_Error "Invalid credentials")) in
  fst (Controllers.login service env1 l1 w1) = Return (answer env1)
  /\ fst (Controllers.login service env2 l2 w2) = Return (answer env2)
  /\ (forall env' : Env,
        status (answer env') = 500
        /\ exists stack,
             body (answer env')
             = ErrorBody {| message := Some "Invalid credentials";
                            code := None;
                            statusCode := 500;
                            details := None;
                            timestamp := now env';
                            path := originalUrl env';
                            method := req_method env' |} stack
             /\ (NODE_ENV env' <> Some "development" -> stack = None)
             /\ (NODE_ENV env' = Some "development" -> stack = thrown_stack env')).
Proof.
  intros H1 E1 H2 E2 Hh Hne Hc answer. subst answer. cbv beta.
  conjs.
  - unfold Controllers.login, asyncHandler, AuthService.login, try_catch, mbind, M_bind, bind,
      AuthService.execute, lift, throw, mret, M_ret, ret.
    rewrite H1. destruct E1 as [-> | ->]; reflexivity.
  - unfold Controllers.login, asyncHandler, AuthService.login, try_catch, mbind, M_bind, bind,
      AuthService.execute, lift, throw, mret, M_ret, ret.
    rewrite H2, E2, Hh. destruct hash; [congruence|]. cbn. rewrite Hc. reflexivity.
  - intros env'. split; [reflexivity|].
    unfold errorHandler. cbn [body thrown_object new_Error err_message err_statusCode
                              err_code err_stack default].
    eexists. split; [reflexivity|]. split.
    + intros H. rewrite bool_decide_eq_false_2; auto.
    + intros H. rewrite bool_decide_eq_true_2; auto.
Qed.

(** What it takes for [authenticate] to call [next()]. *)
Lemma authenticate_next_inv (hdr : option string) (c : AuthMiddleware.Ctx DbState) :
  AuthMiddleware.next_calls (snd (AuthMiddleware.authenticate service hdr c))
  = S (AuthMiddleware.next_calls c) ->
  exists t decoded,
    hdr = Some ("Bearer " ++ t)
    /\ free_of space t = true /\ t <> EmptyString
    /\ AuthService.verifyToken service t = Return decoded
    /\ AuthMiddleware.req_user (snd (AuthMiddleware.authenticate service hdr c)) = Some decoded.
Proof.
  destruct hdr as [h|]; [|AuthGateMore.run; cbn; intros Hx; destruct (n_Sn _ Hx)].
  destruct (truthy_opt (Some h)) eqn:Ht.
  2:{ AuthGateMore.run. rewrite Ht. cbn. intros Hx. destruct (n_Sn _ Hx). }
  destruct (AuthGate.header_test h) as [(t & Eh & Ft & Hs)|Hbad].
  - subst h. destruct t as [|a t'].
    + AuthGateMore.run. rewrite Ht.
      change (default EmptyString (Some ("Bearer " ++ EmptyString)))
        with ("Bearer " ++ EmptyString).
      rewrite Hs. cbn. intros Hx. destruct (n_Sn _ Hx).
    + destruct (AuthService.verifyToken service (String a t')) as [decoded|e] eqn:Hv.
      * rewrite (AuthGateMore.authenticate_verified service _ decoded c Ft
                   ltac:(discriminate) Hv).
        cbn zeta.
        destruct (fst (AuthService.getUserById service _ _)) as [[x|]|e]; cbn; try (intros Hx; destruct (n_Sn _ Hx)).
        intros _. exists (String a t'), decoded. repeat split; auto.
      * AuthGateMore.run. rewrite Ht.
        change (default EmptyString (Some ("Bearer " ++ String a t')))
          with ("Bearer " ++ String a t').
        rewrite Hs. simpl. rewrite Hv. cbn. intros Hx. destruct (n_Sn _ Hx).
  - AuthGateMore.run. rewrite Ht. change (default EmptyString (Some h)) with h.
    assert (Hcond : negb (Nat.eqb (length (split space h)) 2)
                    || negb (bool_decide (split space h !! 0%nat = Some "Bearer")) = true).
    { rewrite <- negb_andb, Hbad. reflexivity. }
    rewrite Hcond. cbn. intros Hx. destruct (n_Sn _ Hx).
Qed.

(** X23. On the route [POST /refresh], where [authenticate] runs first, the
    handler never answers 400 [TOKEN_REQUIRED]: once the gate has let the
    request through, the handler finds the token in the header and answers
    either 200 or, when the refresh fails, the 500 envelope with 'Token
    refresh failed'. *)
Theorem refresh_route_never_lacks_token (hdr : option string) (c : AuthMiddleware.Ctx DbState) :
  let c1 := snd (AuthMiddleware.authenticate service hdr c) in
  AuthMiddleware.next_calls c1 = S (AuthMiddleware.next_calls c) ->
  let r := fst (Controllers.refreshToken service env hdr (AuthMiddleware.req_user c1)
                                          (AuthMiddleware.world c1)) in
  (exists result, r = Return {| status := 200;
                                body := SuccessBody "Token refreshed successfully"
                                                    (AuthData result) (now env) |})
  \/ r = Return (errorHandler env
                    (thrown_object (thrown_stack env) (new_Error "Token refresh failed"))).
Proof.
  intros c1 Hn r. subst r.
  destruct (authenticate_next_inv hdr c Hn) as (t & decoded & -> & Ft & Hne & Hv & Hu).
  fold c1 in Hu. rewrite Hu.
  destruct t as [|a t']; [congruence|].
  unfold Controllers.refreshToken, asyncHandler, try_catch.
  change (Some ("Bearer " ++ String a t') ≫= (fun h => split space h !! 1%nat))
    with (split space ("Bearer " ++ String a t') !! 1%nat).
  rewrite (AuthGate.header_test_bearer _ Ft).
  change ([ "Bearer"; String a t' ] !! 1%nat) with (Some (String a t')).
  cbn [truthy_opt truthy negb].
  change (default EmptyString (Some (String a t'))) with (String a t').
  unfold mbind, M_bind, bind, mret, M_ret, ret.
  destruct (AuthServiceRefresh.refreshToken service (String a t') (AuthMiddleware.world c1))
    as [[result|e] w'] eqn:E; cbn [fst snd].
  - left. eexists. reflexivity.
  - right.
    pose proof (AuthServiceMore.refreshToken_thrown service _ _ _ _ E) as ->. reflexivity.
Qed.

End AuthController.

Section HealthChecks.

Context {Db Call Result : Type}.
Variable getPool : M Db unit.
Variable request_query : Call -> M Db Result.
Variable select_one : Call.

(** X24. [healthCheck] never throws: it is [true] exactly when the pool is
    there and the probe query succeeds. So both health routes answer 200
    with a healthy database or 503 with an unhealthy one, and their
    catch blocks (the body with status 'error') are never the answer. *)
Theorem health_routes (db : Db) :
  let healthy := match getPool db with
                 | (Return _, db1) =>
                     match request_query select_one db1 with
                     | (Return _, _) => true
                     | (Throw _, _) => false
                     end
                 | (Throw _, _) => false
                 end in
  fst (DatabaseConnection.healthCheck getPool request_query select_one db) = Return healthy
  /\ fst (Health.api_health getPool request_query select_one db)
     = Return {| Health.status := if healthy then 200 else 503;
                 Health.body := {| Health.h_status := "ok";
                                   Health.h_database := if healthy then "healthy"
                                                        else "unhealthy";
                                   Health.h_error := None |} |}
  /\ fst (Health.app_health getPool request_query select_one db)
     = Return {| Health.status := if healthy then 200 else 503;
                 Health.body := {| Health.h_status := if healthy then "ok" else "degraded";
                                   Health.h_database := if healthy then "healthy"
                                                        else "unhealthy";
                                   Health.h_error := None |} |}.
Proof.
  cbv zeta.
  unfold Health.api_health, Health.app_health, DatabaseConnection.healthCheck,
    DatabaseConnection.executeQuery, try_catch, mbind, M_bind, bind, mret, M_ret, ret, throw.
  destruct (getPool db) as [[[]|e] db1]; cbn [fst snd].
  - destruct (request_query select_one db1) as [[r|e] db2]; cbn; auto.
  - cbn. auto.
Qed.

End HealthChecks.

End PipelineFacts.

(** ** The validation engine, continued *)

Module ValidationMore.
Import Js Comp Validation ValidationWrappers.

Section Engine.

Variable joi : JoiLib.
Variable now : string.

(** [validateBody] in one step. *)
Lemma validateBody_run (schema : ObjectSchema) (c : Ctx) :
  validateBody joi now schema c
  = match fst (schema_validate joi schema (req_body (req c))) with
    | [] =>
        (Return tt,
         {| req := write_body (snd (schema_validate joi schema (req_body (req c)))) (req c);
            sent := sent c; next_calls := S (next_calls c) |})
    | errors =>
        (Return tt,
         {| req := req c;
            sent := sent c ++ [validation_failed now (req c) errors];
            next_calls := next_calls c |})
    end.
Proof.
  unfold validateBody, validate, validate_surface, mbind, M_bind, bind, get, set_req, modify,
    mret, M_ret, ret, res_status_json, next, validation_failed.
  cbn [body params query headers req sent next_calls].
  destruct (schema_validate joi schema (req_body (req c))) as [details value].
  cbn [fst snd]. destruct details as [|d ds]; cbn; [reflexivity|].
  destruct c; reflexivity.
Qed.

(** The converted object has a value only under keys of the schema, and
    never an undefined one. *)
Lemma object_value_keys (schema : ObjectSchema) (o : gmap string JVal)
    (name : string) (v : JVal) :
  object_value joi schema o !! name = Some v ->
  In name (List.map key schema) /\ v <> VUndefined.
Proof.
  unfold object_value. induction schema as [|k ks IH]; cbn [fold_right List.map].
  - rewrite lookup_empty. discriminate.
  - destruct (snd (validate_key joi k (property o (key k)))) eqn:E;
      try (intros H; destruct (decide (key k = name)) as [<-|Hne];
           [rewrite lookup_insert_eq in H; injection H as <-; split; [now left | discriminate]
           |rewrite lookup_insert_ne in H by exact Hne;
            destruct (IH H); split; [now right | assumption]]).
    intros H. destruct (IH H). split; [now right | assumption].
Qed.

(** X25. Unknown keys are stripped: when [validateBody(schema)] lets an
    object body through, the body the handler sees has a value only under
    keys of the schema, and never an undefined one. *)
Theorem validateBody_strips_unknown (schema : ObjectSchema) (c : Ctx)
    (o : gmap string JVal) :
  req_body (req c) = VObject o ->
  let c' := snd (validateBody joi now schema c) in
  next_calls c' = S (next_calls c) ->
  exists o' : gmap string JVal,
    req_body (req c') = VObject o'
    /\ forall name v, o' !! name = Some v ->
                      In name (List.map key schema) /\ v <> VUndefined.
Proof.
  intros Hb c'. subst c'. rewrite validateBody_run, Hb.
  cbn [schema_validate fst snd].
  destruct (object_errors joi schema o) as [|e es].
  2:{ cbn [snd next_calls]. intros Hx. destruct (n_Sn _ Hx). }
  intros _. cbn [snd req write_body req_body].
  eexists. split; [reflexivity|]. intros name v. apply object_value_keys.
Qed.

(** A required, trimmed string key with [min(lo)] and [max(hi)], [lo >= 1]. *)
Lemma bounded_string_key (name : string) (lo hi : nat) (msgs : list (string * string))
    (input : JVal) :
  (1 <= lo)%nat ->
  let k := {| key := name; type := JoiString true [str_min lo; str_max hi] [];
              presence := required; default_value := None; messages := msgs |} in
  fst (validate_key joi k input) = [] ->
  exists s t, input = VString s /\ trimmed s t
              /\ snd (validate_key joi k input) = VString t
              /\ (lo <= length t <= hi)%nat.
Proof.
  intros Hlo k. unfold validate_key. subst k. cbn [type presence].
  destruct input as [| |b|q|n|s|l|o]; cbn [fst snd]; try discriminate.
  cbv zeta. cbn [converted_string allowed existsb].
  pose proof (ValidationFacts.trim_trimmed s) as Ht.
  destruct (trim s) as [|a t] eqn:Et.
  - destruct lo as [|lo']; [lia|]. cbn [has_min_zero existsb orb]. discriminate.
  - unfold string_rule_errors. cbn [flat_map fst snd].
    destruct (Nat.leb_spec lo (length (a :: t))); [|discriminate].
    destruct (Nat.leb_spec (length (a :: t)) hi); [|discriminate].
    intros _. exists s, (a :: t). split; [reflexivity|]. split; [exact Ht|].
    split; [reflexivity | lia].
Qed.

(** A required number key with [positive()], [precision(2)] and [max(hi)]. *)
Lemma bounded_price_key (name : string) (hi : Q) (msgs : list (string * string))
    (input : JVal) :
  let k := {| key := name; type := JoiNumber [num_positive; num_precision 2; num_max hi];
              presence := required; default_value := None; messages := msgs |} in
  fst (validate_key joi k input) = [] ->
  exists q p, number_of joi input = Some q /\ unsafe q = false
              /\ round_to 2 q = Real p
              /\ snd (validate_key joi k input) = VNumber p
              /\ (0 < p)%Q /\ (p <= hi)%Q
              /\ exists cents : Z, to_double (inject_Z cents / inject_Z 100) = Real p.
Proof.
  intros k.
  assert (Hnum : forall q,
             fst (validate_number joi k [num_positive; num_precision 2; num_max hi] q) = [] ->
             exists p, unsafe q = false /\ round_to 2 q = Real p
                       /\ snd (validate_number joi k
                                  [num_positive; num_precision 2; num_max hi] q)
                          = VNumber p
                       /\ (0 < p)%Q /\ (p <= hi)%Q
                       /\ exists cents : Z, to_double (inject_Z cents / inject_Z 100) = Real p).
  { intros q. unfold validate_number. cbv zeta.
    change (apply_precision _ q) with (round_to 2 q).
    destruct (unsafe q); [discriminate|]. unfold number_rule_errors. cbn [flat_map fst snd].
    destruct (round_to 2 q) as [p|negative] eqn:R.
    - cbn [is_positive at_most number_value].
      destruct (Qleb p 0) eqn:H0; [discriminate|].
      destruct (Qleb p hi) eqn:H1; [|discriminate].
      intros _. exists p. split; [reflexivity|]. split; [reflexivity|].
      split; [reflexivity|].
      split; [now apply ValidationFacts.Qleb_false|].
      split; [now apply ValidationFacts.Qleb_true|].
      unfold round_to in R.
      destruct (to_double (q * inject_Z (10 ^ Z.of_nat 2))) as [x|s]; [|discriminate R].
      exists (Qfloor (x + (1 # 2))). exact R.
    - cbn [is_positive at_most]. destruct negative; discriminate. }
  unfold validate_key. subst k. cbn [type presence].
  cbn [type presence] in Hnum.
  destruct input as [| |b|q|n|s|l|o]; cbn [fst snd]; try discriminate.
  - intros H. destruct (Hnum q H) as (p & Hp). exists q, p. split; [reflexivity | exact Hp].
  - cbn [number_of]. destruct (parse_number joi s) as [|parsed|q]; cbn [fst snd];
      try discriminate.
    intros H. destruct (Hnum q H) as (p & Hp). exists q, p. split; [reflexivity | exact Hp].
Qed.

(** An optional, trimmed string key with [max(hi)] that allows ''. *)
Lemma optional_text_key (name : string) (hi : nat) (msgs : list (string * string))
    (input : JVal) :
  let k := {| key := name; type := JoiString true [str_max hi] [[]];
              presence := optional; default_value := None; messages := msgs |} in
  fst (validate_key joi k input) = [] ->
  (input = VUndefined /\ snd (validate_key joi k input) = VUndefined)
  \/ exists s t, input = VString s /\ trimmed s t
                 /\ snd (validate_key joi k input) = VString t /\ (length t <= hi)%nat.
Proof.
  intros k. unfold validate_key. subst k. cbn [type presence default_value].
  destruct input as [| |b|q|n|s|l|o]; cbn [fst snd]; try discriminate.
  - intros _. left. split; reflexivity.
  - cbv zeta. cbn [converted_string].
    pose proof (ValidationFacts.trim_trimmed s) as Ht.
    destruct (trim s) as [|a t] eqn:Et.
    + intros _. right. exists s, []. split; [reflexivity|]. split; [exact Ht|].
      split; [reflexivity | cbn; lia].
    + change (allowed (a :: t) [[]]) with false. cbv iota.
      unfold string_rule_errors. cbn [flat_map fst snd].
      destruct (Nat.leb_spec (length (a :: t)) hi); [|discriminate].
      intros _. right. exists s, (a :: t). auto.
Qed.

(** X26. Once [validateBody(createProductSchema)] lets an object body
    through it has written nothing on [res], and the body the handler sees
    is the converted one. [name] and [category] are the submitted strings
    without the whitespace at their two ends, of 1 to 255 and 1 to 100
    code units. [price] is the submitted number (a number, or a string Joi
    reads as one) rounded to two decimals as
    [Math.round(value * 100) / 100] rounds in doubles: a finite number
    greater than 0 and at most 999999.99, the double nearest to some number
    of hundredths. [description] is absent as submitted, or the submitted
    string without the whitespace at its ends, of at most 1000 code units.
    No other key is left. *)
Theorem createProductSchema_sound (c : Ctx) (o : gmap string JVal) :
  req_body (req c) = VObject o ->
  let c' := snd (validateBody joi now createProductSchema c) in
  next_calls c' = S (next_calls c) ->
  exists (o' : gmap string JVal) (name category : JsString) (price : Q),
    req_body (req c') = VObject o'
    /\ sent c' = sent c
    /\ o' !! "name" = Some (VString name)
    /\ (1 <= length name <= 255)%nat
    /\ (exists s, property o "name" = VString s /\ trimmed s name)
    /\ o' !! "category" = Some (VString category)
    /\ (1 <= length category <= 100)%nat
    /\ (exists s, property o "category" = VString s /\ trimmed s category)
    /\ o' !! "price" = Some (VNumber price)
    /\ (0 < price)%Q /\ (price <= literal (99999999 # 100))%Q
    /\ (exists q, number_of joi (property o "price") = Some q /\ unsafe q = false
                  /\ round_to 2 q = Real price)
    /\ (exists cents : Z, to_double (inject_Z cents / inject_Z 100) = Real price)
    /\ ((property o "description" = VUndefined /\ o' !! "description" = None)
        \/ exists s d, property o "description" = VString s /\ trimmed s d
                       /\ o' !! "description" = Some (VString d)
                       /\ (length d <= 1000)%nat)
    /\ (forall k, is_Some (o' !! k) -> In k ["name"; "description"; "price"; "category"]).
Proof.
  intros Hb c'. subst c'. rewrite validateBody_run, Hb.
  cbn [schema_validate fst snd].
  destruct (object_errors joi createProductSchema o) as [|e es] eqn:He.
  2:{ cbn [snd next_calls]. intros Hx. destruct (n_Sn _ Hx). }
  intros _. cbn [snd req sent write_body req_body].
  unfold object_errors, createProductSchema in He. cbn [flat_map] in He.
  apply app_eq_nil in He as [H1 He]. apply app_eq_nil in He as [H2 He].
  apply app_eq_nil in He as [H3 He]. apply app_eq_nil in He as [H4 _].
  destruct (bounded_string_key _ 1 255 _ _ (le_n 1) H1) as (sn & n & Isn & Tn & Vn & Ln).
  destruct (bounded_price_key _ _ _ _ H3) as (q & p & Nq & Uq & Rq & Vp & Pp & Ph & Pc).
  destruct (bounded_string_key _ 1 100 _ _ (le_n 1) H4) as (sc & cat & Ic & Tc & Vc & Lc).
  pose proof (optional_text_key _ _ _ _ H2) as Vd.
  cbn [key] in Isn, Nq, Ic, Vn, Vp, Vc, Vd.
  exists (object_value joi createProductSchema o), n, cat, p.
  assert (Hkeys : forall k, is_Some (object_value joi createProductSchema o !! k) ->
                            In k ["name"; "description"; "price"; "category"]).
  { intros k [v Hv]. apply object_value_keys in Hv as [Hin _]. exact Hin. }
  destruct Ln as [Ln1 Ln2]. destruct Lc as [Lc1 Lc2].
  repeat match goal with |- _ /\ _ => split end;
    try assumption; try reflexivity; eauto.
  all: unfold object_value, createProductSchema; cbn [fold_right key];
    rewrite Vn, Vp, Vc.
  - apply lookup_insert_eq.
  - rewrite lookup_insert_ne by discriminate.
    destruct Vd as [(_ & ->) | (s & d & _ & _ & -> & _)];
      [|rewrite lookup_insert_ne by discriminate];
      rewrite lookup_insert_ne by discriminate; apply lookup_insert_eq.
  - rewrite lookup_insert_ne by discriminate.
    destruct Vd as [(_ & ->) | (s & d & _ & _ & -> & _)];
      [|rewrite lookup_insert_ne by discriminate]; apply lookup_insert_eq.
  - rewrite lookup_insert_ne by discriminate.
    destruct Vd as [(Iu & ->) | (s & d & Is & Ts & -> & Ld)].
    + left. split; [exact Iu|]. rewrite !lookup_insert_ne by discriminate. apply lookup_empty.
    + right. exists s, d. split; [exact Is|]. split; [exact Ts|].
      split; [apply lookup_insert_eq | exact Ld].
Qed.

(** X27. [productIdSchema] lets a number through exactly when it is an
    integer greater than 0 within the safe range; for such an id the
    converted params carry the same number. *)
Theorem productIdSchema_accepts (o : gmap string JVal) (q : Q) :
  o !! "id" = Some (VNumber q) ->
  (fst (schema_validate joi productIdSchema (VObject o)) = []
   <-> is_integer q = true /\ (0 < q)%Q /\ unsafe q = false)
  /\ (fst (schema_validate joi productIdSchema (VObject o)) = [] ->
      snd (schema_validate joi productIdSchema (VObject o))
      = VObject (<["id" := VNumber q]> ∅)).
Proof.
  intros Ho. cbn [schema_validate fst snd].
  unfold object_errors, object_value, productIdSchema. cbn [flat_map fold_right key].
  unfold property. rewrite Ho. cbn [default]. unfold id, validate_key.
  cbn [type presence]. unfold validate_number.
  change (apply_precision [num_integer; num_positive] q) with (Real q). cbv zeta.
  destruct (unsafe q) eqn:Hu; cbn [fst snd number_value].
  - split; [split; [discriminate | intros (_ & _ & [=])] | discriminate].
  - unfold number_rule_errors. cbn [flat_map is_whole is_positive].
    destruct (is_integer q) eqn:Hi; destruct (Qleb q 0) eqn:Hp; cbn [app negb].
    + split; [split; [discriminate|] | discriminate].
      intros (_ & Hq & _). apply ValidationFacts.Qleb_true in Hp.
      apply Qlt_not_le in Hq. tauto.
    + split; [split; [|reflexivity] | reflexivity].
      intros _. apply ValidationFacts.Qleb_false in Hp. auto.
    + split; [split; [discriminate | intros ([=] & _)] | discriminate].
    + split; [split; [discriminate | intros ([=] & _)] | discriminate].
Qed.

End Engine.
End ValidationMore.

(** ** Further instances *)

Module InstancesMore.
Import Js Comp.

(** Refreshing the token ["good"] while John is in the table. *)
Lemma refreshToken_uses_current_row_witness :
  exists resp w',
    AuthServiceRefresh.refreshToken Demo.auth_env "good" (Demo.auth_world [Demo.john])
    = (Return resp, w')
    /\ AuthService.user resp = AuthService.user_literal Demo.john
    /\ AuthService.db_calls w' = [AuthService.SelectUserById 1].
Proof.
  eexists. eexists. split; [reflexivity|].
  destruct (AuthServiceMore.refreshToken_uses_current_row
              Demo.auth_env "good" (Demo.auth_world [Demo.john]) _ _ eq_refl)
    as (decoded & u & Hv & Hu & Hr & _ & _ & Hc).
  injection Hv as <-. injection Hu as <-.
  split; [exact Hr | exact Hc].
Defined.

(** Registering John a second time on the wired store. *)
Lemma register_reports_duplicates_witness :
  fst (AuthService.register DemoMore.wired_env DemoMore.john_signup
         (Demo.auth_world [Demo.john]))
  = Throw (new_Error "Username or email already exists").
Proof.
  refine (proj1 (AuthServiceWired.register_reports_duplicates
                   DemoMore.wired_env DemoMore.pool DemoMore.unique_driver eq_refl
                   DemoMore.john_signup (Demo.auth_world [Demo.john])
                   "hash:SecurePass123!"
                   (ErrorObj "RequestError" "Username or email already exists")
                   [Demo.john] [Demo.john]
                   eq_refl eq_refl eq_refl eq_refl) eq_refl).
Defined.

(** The token ["good"] while the store is down. *)
Lemma authenticate_store_failure_is_401_witness :
  AuthMiddleware.rejected_401
    (Demo.fresh [Demo.john])
    (snd (AuthMiddleware.authenticate DemoMore.down_env (Some "Bearer good")
                                      (Demo.fresh [Demo.john])))
    "User not found" "The user associated with this token no longer exists".
Proof.
  refine (AuthGateMore.authenticate_store_failure_is_401
            DemoMore.down_env "good" Demo.john_claims (Demo.fresh [Demo.john])
            DemoMore.connection_closed [Demo.john] eq_refl _ eq_refl eq_refl).
  discriminate.
Defined.

(** The token ["good"] after John's row is gone. *)
Lemma optionalAuthenticate_skips_user_check_witness :
  AuthMiddleware.req_user
    (snd (AuthMiddleware.optionalAuthenticate Demo.auth_env (Some "Bearer good")
                                              (Demo.fresh [])))
  = Some Demo.john_claims
  /\ AuthMiddleware.rejected_401
       (Demo.fresh [])
       (snd (AuthMiddleware.authenticate Demo.auth_env (Some "Bearer good") (Demo.fresh [])))
       "User not found" "The user associated with this token no longer exists".
Proof.
  assert (Ht : "good" <> EmptyString) by discriminate.
  destruct (AuthGateMore.optionalAuthenticate_skips_user_check
              Demo.auth_env "good" Demo.john_claims (Demo.fresh []) eq_refl Ht eq_refl)
    as (Hu & _ & _ & Hr).
  split; [exact Hu | exact (Hr eq_refl)].
Defined.

(** Updating and deleting the laptop while the store is down. *)
Lemma failed_read_stops_mutation_witness :
  fst (ProductService.updateProduct DemoMore.down_product_env 1 Demo.price_update
         (Demo.product_world [Demo.laptop]))
  = Throw (AppError "Failed to retrieve product" 500 "PRODUCT_FETCH_ERROR")
  /\ ProductService.db_calls
       (snd (ProductService.deleteProduct DemoMore.down_product_env 1
               (Demo.product_world [Demo.laptop])))
     = [ProductService.GetProductById 1].
Proof.
  destruct (ProductMore.failed_read_stops_mutation
              DemoMore.down_product_env 1 Demo.price_update
              (Demo.product_world [Demo.laptop]) DemoMore.connection_closed [Demo.laptop]
              eq_refl)
    as (Hu & Hd).
  split; [rewrite Hu | rewrite Hd]; reflexivity.
Defined.

(** [{ price: 149.99 }] on the laptop. *)
Lemma updateProduct_outcome_witness :
  exists updated : ProductService.Product,
    fst (ProductService.updateProduct Demo.product_env 1 Demo.price_update
           (Demo.product_world [Demo.mouse; Demo.laptop])) = Return updated
    /\ ProductService.price updated = 14999 # 100.
Proof.
  destruct (ProductMore.updateProduct_outcome
              Demo.product_env 1 Demo.price_update
              (Demo.product_world [Demo.mouse; Demo.laptop]) Demo.laptop eq_refl)
    as (H & _).
  eexists. split; [exact (H _ _ _ eq_refl eq_refl) | reflexivity].
Defined.

(** Deleting the laptop. *)
Lemma deleteProduct_outcome_witness :
  ProductService.db_calls
    (snd (ProductService.deleteProduct Demo.product_env 1
            (Demo.product_world [Demo.mouse; Demo.laptop])))
  = [ProductService.GetProductById 1; ProductService.DeleteProduct 1]
  /\ fst (ProductService.deleteProduct Demo.product_env 1
            (Demo.product_world [Demo.mouse; Demo.laptop])) = Return tt.
Proof.
  destruct (ProductMore.deleteProduct_outcome
              Demo.product_env 1 (Demo.product_world [Demo.mouse; Demo.laptop])
              Demo.laptop eq_refl)
    as (Hc & Hr & _).
  split; [exact Hc | exact (Hr _ eq_refl)].
Defined.

(** An upper bound of 50 over the mouse (19.99) and the laptop (999.99). *)
Lemma getProducts_filters_and_size_witness :
  exists resp : ProductService.ProductListResponse,
    fst (ProductService.getProducts Demo.product_env
           (Demo.page_query 1 10 None (Some (50 # 1)))
           (Demo.product_world [Demo.mouse; Demo.laptop])) = Return resp
    /\ ProductService.filters resp <> None
    /\ (length (ProductService.products resp) <= 2)%nat.
Proof.
  assert (Hrun : ProductService.db_run Demo.product_env
                   (ProductService.GetProducts
                      (ProductService.products_input
                         (Demo.page_query 1 10 None (Some (50 # 1)))))
                   (ProductService.db_state (Demo.product_world [Demo.mouse; Demo.laptop]))
                 = (Return {| ProductService.recordset :=
                                Some [Demo.as_row (Some 2) Demo.mouse;
                                      Demo.as_row (Some 2) Demo.laptop] |},
                    [Demo.mouse; Demo.laptop]))
    by (vm_compute; reflexivity).
  eexists. split; [reflexivity|].
  destruct (ProductMore.getProducts_filters_and_size
              Demo.product_env (Demo.page_query 1 10 None (Some (50 # 1)))
              (Demo.product_world [Demo.mouse; Demo.laptop]) _ _ _ _ Hrun eq_refl)
    as (H & _).
  assert (Hne : [Demo.as_row (Some 2) Demo.mouse; Demo.as_row (Some 2) Demo.laptop] <> [])
    by discriminate.
  destruct (H _ eq_refl Hne) as (Hf & Hl & _).
  split; [|exact Hl].
  intros Hn. apply Hf in Hn. destruct Hn as (_ & _ & _ & Hm). discriminate Hm.
Defined.

(** The statistics of an empty table. *)
Lemma getStatistics_empty_store_witness :
  exists stats : ProductQueries.ProductStatistics,
    fst (ProductQueries.getStatistics DemoMore.queries_env (DemoMore.queries_world []))
    = Return stats
    /\ ProductQueries.totalProducts stats = 0.
Proof.
  destruct (ProductQueriesFacts.getStatistics_empty_store
              DemoMore.queries_env (DemoMore.queries_world [])
              [DemoMore.totals_row []] [] [] [] [] []
              eq_refl eq_refl eq_refl eq_refl)
    as (stats & Hs & Ht & _).
  exists stats. split; [exact Hs | exact Ht].
Defined.

(** The statistics of the mouse and the laptop. *)
Lemma getStatistics_percentages_witness :
  exists stats : ProductQueries.ProductStatistics,
    fst (ProductQueries.getStatistics DemoMore.queries_env
           (DemoMore.queries_world [Demo.mouse; Demo.laptop])) = Return stats
    /\ ProductQueries.totalProducts stats = 2
    /\ Forall (fun r => (0 <= ProductQueries.percentage r)%Q
                        /\ (ProductQueries.percentage r <= 100)%Q)
              (ProductQueries.priceRanges stats).
Proof.
  assert (Hranges : DemoMore.range_rows [Demo.mouse; Demo.laptop]
                    = [{| ProductQueries.range := "Under $50"; ProductQueries.count := 1 |};
                       {| ProductQueries.range := "$500 - $999"; ProductQueries.count := 1 |}])
    by (vm_compute; reflexivity).
  assert (Hbounds : Forall (fun r => 0 <= ProductQueries.count r <= 2)
                           (DemoMore.range_rows [Demo.mouse; Demo.laptop])).
  { rewrite Hranges. repeat constructor; cbn; lia. }
  assert (Hpos : 0 < 2) by lia.
  destruct (ProductQueriesFacts.getStatistics_percentages
              DemoMore.queries_env (DemoMore.queries_world [Demo.mouse; Demo.laptop])
              [DemoMore.totals_row [Demo.mouse; Demo.laptop]] []
              (DemoMore.range_rows [Demo.mouse; Demo.laptop])
              [Demo.mouse; Demo.laptop] [Demo.mouse; Demo.laptop] [Demo.mouse; Demo.laptop]
              2 eq_refl eq_refl eq_refl eq_refl Hpos Hbounds)
    as (stats & Hs & Ht & _ & _ & Hp).
  exists stats. split; [exact Hs|]. split; [exact Ht | exact Hp].
Defined.

(** The unknown user ["nobody"] in production, and ["johndoe"] with a wrong
    password on a development server. *)
Lemma failed_login_is_answered_500_witness :
  ErrorMiddleware.status
    (ErrorMiddleware.errorHandler DemoMore.login_request_dev
       (ErrorMiddleware.thrown_object
          (ErrorMiddleware.thrown_stack DemoMore.login_request_dev)
          (new_Error "Invalid credentials")))
  = 500
  /\ fst (Controllers.login Demo.auth_env DemoMore.login_request_dev
            {| AuthService.login_username := "johndoe"; AuthService.login_password := "x" |}
            (Demo.auth_world [Demo.john]))
     = Return (ErrorMiddleware.errorHandler DemoMore.login_request_dev
                 (ErrorMiddleware.thrown_object
                    (ErrorMiddleware.thrown_stack DemoMore.login_request_dev)
                    (new_Error "Invalid credentials"))).
Proof.
  assert (Hh : "hash:SecurePass123!" <> EmptyString) by discriminate.
  destruct (PipelineFacts.failed_login_is_answered_500
              Demo.auth_env DemoMore.login_request DemoMore.login_request_dev
              {| AuthService.login_username := "nobody"; AuthService.login_password := "x" |}
              {| AuthService.login_username := "johndoe"; AuthService.login_password := "x" |}
              (Demo.auth_world [Demo.john]) (Demo.auth_world [Demo.john])
              {| AuthService.recordset := Some [] |}
              {| AuthService.recordset := Some [Demo.john] |}
              [Demo.john] [Demo.john] Demo.john [] "hash:SecurePass123!"
              eq_refl (or_intror eq_refl) eq_refl eq_refl eq_refl Hh eq_refl)
    as (_ & H2 & H3).
  split; [exact (proj1 (H3 DemoMore.login_request_dev)) | exact H2].
Defined.

(** [POST /refresh] with the token ["good"]. *)
Lemma refresh_route_never_lacks_token_witness :
  let c1 := snd (AuthMiddleware.authenticate Demo.auth_env (Some "Bearer good")
                                             (Demo.fresh [Demo.john])) in
  let r := fst (Controllers.refreshToken Demo.auth_env DemoMore.login_request
                  (Some "Bearer good") (AuthMiddleware.req_user c1)
                  (AuthMiddleware.world c1)) in
  (exists result,
      r = Return {| ErrorMiddleware.status := 200;
                    ErrorMiddleware.body :=
                      ErrorMiddleware.SuccessBody "Token refreshed successfully"
                        (ErrorMiddleware.AuthData result)
                        (ErrorMiddleware.now DemoMore.login_request) |})
  \/ r = Return (ErrorMiddleware.errorHandler DemoMore.login_request
                   (ErrorMiddleware.thrown_object
                      (ErrorMiddleware.thrown_stack DemoMore.login_request)
                      (new_Error "Token refresh failed"))).
Proof.
  exact (PipelineFacts.refresh_route_never_lacks_token
           Demo.auth_env DemoMore.login_request (Some "Bearer good")
           (Demo.fresh [Demo.john]) eq_refl).
Defined.

(** The key [admin] of a body does not reach the handler. *)
Lemma validateBody_strips_unknown_witness :
  exists o' : gmap string Validation.JVal,
    Validation.req_body
      (Validation.req
         (snd (Validation.validateBody Demo.joi "2023-08-29T10:00:00.000Z"
                 Validation.createProductSchema
                 (Demo.request_ctx (Validation.VObject DemoMore.padded_product)
                                   (Validation.VObject ∅)))))
    = Validation.VObject o'
    /\ o' !! "admin" = None.
Proof.
  assert (Hn : Validation.next_calls
                 (snd (Validation.validateBody Demo.joi "2023-08-29T10:00:00.000Z"
                         Validation.createProductSchema
                         (Demo.request_ctx (Validation.VObject DemoMore.padded_product)
                                           (Validation.VObject ∅))))
               = S (Validation.next_calls
                      (Demo.request_ctx (Validation.VObject DemoMore.padded_product)
                                        (Validation.VObject ∅))))
    by (vm_compute; reflexivity).
  destruct (ValidationMore.validateBody_strips_unknown
              Demo.joi "2023-08-29T10:00:00.000Z" Validation.createProductSchema
              (Demo.request_ctx (Validation.VObject DemoMore.padded_product)
                                (Validation.VObject ∅))
              DemoMore.padded_product eq_refl Hn)
    as (o' & Hb & Hk).
  exists o'. split; [exact Hb|].
  destruct (o' !! "admin") as [v|] eqn:E; [|reflexivity].
  destruct (Hk _ _ E) as [Hin _]. cbn in Hin.
  repeat (destruct Hin as [Hin|Hin]; [discriminate Hin|]). destruct Hin.
Defined.

(** A name of 200 accented letters and the price 1.005, which the
    conversion rounds to 1. *)
Lemma createProductSchema_sound_witness :
  exists (o' : gmap string Validation.JVal) (price : Q),
    Validation.req_body
      (Validation.req
         (snd (Validation.validateBody Demo.joi "2023-08-29T10:00:00.000Z"
                 Validation.createProductSchema
                 (Demo.request_ctx (Validation.VObject DemoMore.accented_product)
                                   (Validation.VObject ∅)))))
    = Validation.VObject o'
    /\ o' !! "price" = Some (Validation.VNumber price)
    /\ (price <= Validation.literal (99999999 # 100))%Q
    /\ (forall k, is_Some (o' !! k) -> In k ["name"; "description"; "price"; "category"]).
Proof.
  assert (Hn : Validation.next_calls
                 (snd (Validation.validateBody Demo.joi "2023-08-29T10:00:00.000Z"
                         Validation.createProductSchema
                         (Demo.request_ctx (Validation.VObject DemoMore.accented_product)
                                           (Validation.VObject ∅))))
               = S (Validation.next_calls
                      (Demo.request_ctx (Validation.VObject DemoMore.accented_product)
                                        (Validation.VObject ∅))))
    by (vm_compute; reflexivity).
  destruct (ValidationMore.createProductSchema_sound
              Demo.joi "2023-08-29T10:00:00.000Z"
              (Demo.request_ctx (Validation.VObject DemoMore.accented_product)
                                (Validation.VObject ∅))
              DemoMore.accented_product eq_refl Hn)
    as (o' & name & category & price & Hb & _ & _ & _ & _ & _ & _ & _ & Hp & _ & Hmax
        & _ & _ & _ & Hk).
  exists o', price. split; [exact Hb|]. split; [exact Hp|]. split; [exact Hmax | exact Hk].
Defined.

(** [{ id: 7 }] *)
Lemma productIdSchema_accepts_witness :
  fst (Validation.schema_validate Demo.joi Validation.productIdSchema
         (Validation.VObject DemoMore.seven)) = [].
Proof.
  assert (Hid : DemoMore.seven !! "id" = Some (Validation.VNumber (7 # 1)))
    by (vm_compute; reflexivity).
  destruct (ValidationMore.productIdSchema_accepts Demo.joi DemoMore.seven (7 # 1) Hid)
    as (H & _).
  apply H. split; [reflexivity|]. split; [reflexivity | reflexivity].
Defined.

(** The [SyntaxError] of [express.json()] is answered with its own status. *)
Lemma errorHandler_envelope_witness :
  ErrorMiddleware.status
    (ErrorMiddleware.errorHandler DemoMore.login_request DemoMore.malformed_json) = 400.
Proof.
  destruct (PipelineFacts.errorHandler_envelope DemoMore.login_request DemoMore.malformed_json)
    as (envelope & stack & _ & _ & Hs & _).
  exact Hs.
Defined.

End InstancesMore.
